(** * Investor-data enrichment and matching: a shallow embedding

    The development follows three Python modules of the repository:

    - [api_integration.py]   (class [VCDataEnricher]): record merging and the
      derived analytics of a venture-capital profile; (classes
      [MockCrunchbaseProvider], [MockPitchbookProvider]): the providers the
      enricher is built with;
    - [web_scraper.py]       (class [VCWebScraper]): the sector classifier,
      the stages and the geography read from a text;
    - [openai_integration.py] (class [VCMatcher]): the local fallback scorer,
      the prompt context and the matching through the reasoning service.

    Python objects are modelled by the type [value] below; a Python [dict] is
    an association list in insertion order, which is the order Python
    iterates a dict in.  An exception is a value of [exn] carried by
    [result].

    Numbers.  Amounts are Python [int]s.  A double is the rational it
    stands for, and a division that yields a double rounds the exact
    quotient to the nearest binary64 number ([double_div]); the division of
    two [int]s raises [OverflowError] when that number is beyond the
    largest double ([int_true_divide]).  The check range, the sweet spot
    and the ['.1f'] conversion of the formatters go through these.  For
    amounts below 10^15 the doubles round to the same integer as the exact
    quotients, because a tie [k + 1/2] is represented exactly and every
    other quotient lies at least 1/100000 away from a tie
    ([rounded_thousands_exact], [sweet_spot_exact] below); above, they need
    not.  The lead ratio compares with 0.7 and 0.3 as the exact fraction
    does for any deal list of realistic length.

    Text.  A Python [str] is the [string] of its code points, for text
    whose code points are below 256 (Latin-1).  On such text [str.lower]
    works character by character: it adds 32 to the letters [A]-[Z] (65 to
    90) and to the accented capitals 192 to 222 other than the
    multiplication sign 215, and leaves every other character. *)

From Stdlib Require Import ZArith QArith Qabs List String Ascii Bool Lia.
From Stdlib Require Import Permutation Sorted DecimalString Lqa.
Import ListNotations.

Local Open Scope Z_scope.
Local Open Scope list_scope.

Set Warnings "-register-all".

(** ** Exceptions *)

Inductive exn : Type :=
| AttributeError
| TypeError
| KeyError
| NameError
| OverflowError
| ProviderError (msg : string).

Inductive result (A : Type) : Type :=
| Ok (a : A)
| Raise (e : exn).

Arguments Ok {A} a.
Arguments Raise {A} e.

Definition bind {A B : Type} (m : result A) (k : A -> result B) : result B :=
  match m with
  | Ok a => k a
  | Raise e => Raise e
  end.

Declare Scope py_scope.
Delimit Scope py_scope with py.
Notation "x <- m ;; k" := (bind m (fun x => k))
  (at level 100, m at next level, right associativity) : py_scope.
Local Open Scope py_scope.

(** A [for] loop whose body may raise: the state is threaded left to right
    and the first exception leaves the loop. *)
Fixpoint for_each {S X : Type} (body : S -> X -> result S) (xs : list X) (s : S)
  : result S :=
  match xs with
  | [] => Ok s
  | x :: rest => s' <- body s x ;; for_each body rest s'
  end.

(** Python's [any] over a generator: it stops at the first true element, so
    an exception behind it is never reached. *)
Fixpoint py_any {X : Type} (p : X -> result bool) (xs : list X) : result bool :=
  match xs with
  | [] => Ok false
  | x :: rest => b <- p x ;; if b then Ok true else py_any p rest
  end.

(** ** Python values *)

Inductive value : Type :=
| VNone
| VBool (b : bool)
| VInt (n : Z)
| VStr (s : string)
| VList (l : list value)
| VDict (d : list (string * value)).

Definition dict : Type := list (string * value).

(** Truth value testing. *)
Definition truthy (v : value) : bool :=
  match v with
  | VNone => false
  | VBool b => b
  | VInt n => negb (n =? 0)
  | VStr s => negb (String.eqb s "")
  | VList l => match l with [] => false | _ => true end
  | VDict d => match d with [] => false | _ => true end
  end.

(** [a or b] *)
Definition py_or (a b : value) : value := if truthy a then a else b.

(** The numeric reading of a value: [bool] is a subclass of [int]. *)
Definition as_number (v : value) : option Z :=
  match v with
  | VInt n => Some n
  | VBool b => Some (if b then 1 else 0)
  | _ => None
  end.

(** ** Insertion-ordered dictionaries with string keys *)

Section Assoc.
Context {V : Type}.

Fixpoint assoc_get (d : list (string * V)) (k : string) : option V :=
  match d with
  | [] => None
  | (k', v) :: rest => if String.eqb k k' then Some v else assoc_get rest k
  end.

Definition assoc_mem (d : list (string * V)) (k : string) : bool :=
  match assoc_get d k with Some _ => true | None => false end.

(** [d[k] = v]: an existing key keeps its place, a new key goes last. *)
Fixpoint assoc_set (d : list (string * V)) (k : string) (v : V)
  : list (string * V) :=
  match d with
  | [] => [(k, v)]
  | (k', v') :: rest =>
      if String.eqb k k' then (k', v) :: rest
      else (k', v') :: assoc_set rest k v
  end.

Definition assoc_values (d : list (string * V)) : list V := map snd d.
End Assoc.

(** [d.get(k, default)] *)
Definition dict_get (d : dict) (k : string) (default : value) : value :=
  match assoc_get d k with
  | Some v => v
  | None => default
  end.

(** [{**d, k1: v1, ...}]: the keys of [extra] are written into a copy of [d]
    one after the other. *)
Definition dict_extend (d extra : dict) : dict :=
  fold_left (fun acc kv => assoc_set acc (fst kv) (snd kv)) extra d.

(** ** Strings *)

(** [c.lower()] for one character of Latin-1 text. *)
Definition lower_char (c : ascii) : ascii :=
  let n := nat_of_ascii c in
  if ((Nat.leb 65 n && Nat.leb n 90)
      || (Nat.leb 192 n && Nat.leb n 222 && negb (Nat.eqb n 215)))%bool
  then ascii_of_nat (n + 32) else c.

Fixpoint lower (s : string) : string :=
  match s with
  | EmptyString => EmptyString
  | String c rest => String (lower_char c) (lower rest)
  end.

(** [v.lower()] on an arbitrary object: only [str] has the method. *)
Definition value_lower (v : value) : result string :=
  match v with
  | VStr s => Ok (lower s)
  | _ => Raise AttributeError
  end.

(** [kw in text] for two strings. *)
Fixpoint contains (text kw : string) : bool :=
  if String.prefix kw text then true
  else match text with
       | EmptyString => false
       | String _ rest => contains rest kw
       end.

(** [text.count(kw)]: occurrences that do not overlap, scanned from the
    left; [skip] is the number of characters still covered by the last
    occurrence. *)
Fixpoint count_from (skip : nat) (text kw : string) : nat :=
  match text with
  | EmptyString => 0
  | String _ rest =>
      match skip with
      | S k => count_from k rest kw
      | O => if String.prefix kw text
             then S (count_from (String.length kw - 1) rest kw)
             else count_from O rest kw
      end
  end.

Definition str_count (text kw : string) : nat :=
  match kw with
  | EmptyString => S (String.length text)
  | _ => count_from O text kw
  end.

(** [sep.join(parts)] *)
Fixpoint join (sep : string) (parts : list string) : string :=
  match parts with
  | [] => EmptyString
  | [p] => p
  | p :: rest => String.append p (String.append sep (join sep rest))
  end.

(** [l[:n]] for a non-negative [n] *)
Definition take {X : Type} (n : nat) (l : list X) : list X := firstn n l.

(** [l[:n]] for any integer [n]: a negative bound counts from the end. *)
Definition slice_to {X : Type} (n : Z) (l : list X) : list X :=
  if n <? 0 then firstn (List.length l - Z.to_nat (- n)) l
  else firstn (Z.to_nat n) l.

(** Decimal digits of an integer. *)
Definition Z_to_string (n : Z) : string := NilZero.string_of_int (Z.to_int n).

(** ** Sorting *)

(** [sorted(l, key=..., reverse=True)] and [l.sort(key=..., reverse=True)]:
    descending by key; elements with equal keys keep their order. *)
Section SortDesc.
Context {X : Type} (key : X -> Z).

Fixpoint insert_desc (x : X) (l : list X) : list X :=
  match l with
  | [] => [x]
  | y :: rest =>
      if key y <? key x then x :: y :: rest
      else y :: insert_desc x rest
  end.

Definition sorted_desc (l : list X) : list X :=
  fold_left (fun acc x => insert_desc x acc) l [].
End SortDesc.

(** [l.sort()] on integers. *)
Fixpoint insert_asc (x : Z) (l : list Z) : list Z :=
  match l with
  | [] => [x]
  | y :: rest => if x <? y then x :: y :: rest else y :: insert_asc x rest
  end.

Definition sort_asc (l : list Z) : list Z :=
  fold_left (fun acc x => insert_asc x acc) l [].

(** ** Rounding and number formatting *)

(** Round a quotient [n / d] ([d > 0]) to the nearest integer, ties to the
    even one. *)
Definition round_half_even (n d : Z) : Z :=
  let f := n / d in
  let r2 := 2 * (n mod d) in
  if r2 <? d then f
  else if d <? r2 then f + 1
  else if Z.even f then f else f + 1.

(** [round(q)] *)
Definition py_round (q : Q) : Z := round_half_even (Qnum q) (Zpos (Qden q)).

(** The binary64 number nearest to [n / d], for [n >= 0] and [d > 0] in the
    normal range: a 53-bit significand rounded half to even. *)
Definition double_div (n d : Z) : Q :=
  if n <=? 0 then 0%Q
  else
    let e0 := Z.log2 n - Z.log2 d - 53 in
    let scaled (e : Z) : Z * Z :=
      if e <? 0 then (n * 2 ^ (- e), d) else (n, d * 2 ^ e) in
    let e :=
      let '(sn, sd) := scaled e0 in
      if sn / sd <? 2 ^ 53 then e0 else e0 + 1 in
    let '(sn, sd) := scaled e in
    let m := round_half_even sn sd in
    if e <? 0 then Qmake m (Z.to_pos (2 ^ (- e)))
    else inject_Z (m * 2 ^ e).

(** [a / b] on two positive integers: Python rounds the exact quotient to
    the nearest double, and raises [OverflowError] when that is beyond the
    largest double. *)
Definition int_true_divide (a b : Z) : result Q :=
  let q := double_div a b in
  if Qle_bool (inject_Z (2 ^ 1024)) q then Raise OverflowError else Ok q.

(** [x / b] on a positive double and a positive integer that a double
    holds: the double nearest to the exact quotient. *)
Definition float_divide (x : Q) (b : Z) : Q :=
  double_div (Qnum x) (Zpos (Qden x) * b).

(** ['%.1f' % x] for a non-negative [x]: the decimal nearest to the exact
    value of the double, ties to even. *)
Definition format_f1 (x : Q) : string :=
  let t := py_round (x * 10)%Q in
  String.append (Z_to_string (t / 10))
    (String.append "." (Z_to_string (t mod 10))).

(** ['%.0f' % n] for an integer [n] that a double holds exactly. *)
Definition format_f0 (n : Z) : string := Z_to_string n.

Local Open Scope string_scope.
Local Open Scope list_scope.
Local Open Scope Z_scope.
Notation "a +++ b" := (String.append a b) (at level 60, right associativity).

(** ** [str()], [len()] and iteration on arbitrary objects *)

Definition hex_digit (n : nat) : string :=
  String.substring n 1 "0123456789abcdef".

Definition repr_char (quote : ascii) (c : ascii) : string :=
  let n := nat_of_ascii c in
  if Ascii.eqb c "\" then "\\"
  else if Ascii.eqb c quote then String "\" (String c "")
  else if Nat.eqb n 10 then "\n"
  else if Nat.eqb n 13 then "\r"
  else if Nat.eqb n 9 then "\t"
  else if (Nat.ltb n 32 || Nat.eqb n 127 ||
           (Nat.leb 128 n && Nat.leb n 160) || Nat.eqb n 173)%bool
       then "\x" +++ hex_digit (n / 16) +++ hex_digit (n mod 16)
  else String c "".

(** [repr(s)] for a string: single quotes unless the text has a single quote
    and no double quote. *)
Definition repr_str (s : string) : string :=
  let dquote : ascii := ascii_of_nat 34 in
  let q : ascii :=
    if (contains s "'" && negb (contains s (String dquote "")))%bool
    then dquote else "'"%char in
  String q (String.concat "" (map (repr_char q) (list_ascii_of_string s)))
    +++ String q "".

Fixpoint py_repr (v : value) : string :=
  match v with
  | VNone => "None"
  | VBool b => if b then "True" else "False"
  | VInt n => Z_to_string n
  | VStr s => repr_str s
  | VList l => "[" +++ join ", " (map py_repr l) +++ "]"
  | VDict d =>
      "{" +++ join ", "
                (map (fun kv => repr_str (fst kv) +++ ": " +++ py_repr (snd kv)) d)
          +++ "}"
  end.

(** [str(v)], which is what an f-string field prints. *)
Definition py_str (v : value) : string :=
  match v with
  | VStr s => s
  | _ => py_repr v
  end.

(** [len(v)] *)
Definition py_len (v : value) : result nat :=
  match v with
  | VStr s => Ok (String.length s)
  | VList l => Ok (List.length l)
  | VDict d => Ok (List.length d)
  | _ => Raise TypeError
  end.

(** [for x in v]: the elements of a list, the characters of a string, the
    keys of a dict. *)
Definition py_iter (v : value) : result (list value) :=
  match v with
  | VList l => Ok l
  | VStr s => Ok (map (fun c => VStr (String c "")) (list_ascii_of_string s))
  | VDict d => Ok (map (fun kv => VStr (fst kv)) d)
  | _ => Raise TypeError
  end.

(** [v == s] for a string constant [s] *)
Definition eq_str (v : value) (s : string) : bool :=
  match v with
  | VStr s' => String.eqb s' s
  | _ => false
  end.

(** [v.startswith(p)] *)
Definition value_startswith (v : value) (p : string) : result bool :=
  match v with
  | VStr s => Ok (String.prefix p s)
  | _ => Raise AttributeError
  end.

(** [sep.join(parts)] on arbitrary objects: every part has to be a [str]. *)
Fixpoint strings_of (parts : list value) : result (list string) :=
  match parts with
  | [] => Ok []
  | VStr s :: rest => l <- strings_of rest ;; Ok (s :: l)
  | _ :: _ => Raise TypeError
  end.

Definition join_values (sep : string) (parts : list value) : result string :=
  l <- strings_of parts ;; Ok (join sep l).

(** * [api_integration.py] *)

Module VCDataEnricher.

(** ** Record merging *)

(** [company.get("name", "").lower()] *)
Definition company_key (company : dict) : result string :=
  value_lower (dict_get company "name" (VStr "")).

(** The update of an entry that exists already:
[[
for key, value in company.items():
    if value and (key not in merged[name] or not merged[name][key]):
        merged[name][key] = value
]] *)
Definition fill_gaps (existing company : dict) : dict :=
  fold_left
    (fun acc kv =>
       let '(key, value) := kv in
       let gap := match assoc_get acc key with
                  | None => true
                  | Some old => negb (truthy old)
                  end in
       if (truthy value && gap)%bool then assoc_set acc key value else acc)
    company existing.

(** One pass over the first list: [merged[key] = record] for a non-empty
    key. *)
Definition insert_all (key_of : dict -> result string)
  (records : list dict) (merged : list (string * dict))
  : result (list (string * dict)) :=
  for_each
    (fun merged record =>
       key <- key_of record ;;
       Ok (if String.eqb key "" then merged else assoc_set merged key record))
    records merged.

(** One pass over the second list: add a new key, fill the gaps of an
    existing one. *)
Definition add_or_update (key_of : dict -> result string)
  (records : list dict) (merged : list (string * dict))
  : result (list (string * dict)) :=
  for_each
    (fun merged record =>
       key <- key_of record ;;
       if String.eqb key "" then Ok merged
       else match assoc_get merged key with
            | Some existing =>
                Ok (assoc_set merged key (fill_gaps existing record))
            | None => Ok (assoc_set merged key record)
            end)
    records merged.

(** The records stored in [merged] are the objects of the input lists, and
    [fill_gaps] writes into them in place.  The list returned is read off
    [merged] at the end, so it shows every record as last written; with
    the records of the two lists distinct objects, the aliasing with the
    caller's lists does not change what is returned. *)
Definition _merge_company_data (cb_companies pb_companies : list dict)
  : result (list dict) :=
  merged <- insert_all company_key cb_companies [] ;;
  merged <- add_or_update company_key pb_companies merged ;;
  Ok (assoc_values merged).

(** [f"{company}|{date}|{stage}"] *)
Definition deal_key (deal : dict) : result string :=
  company <- value_lower (dict_get deal "company" (VStr "")) ;;
  let date := dict_get deal "date" (VStr "") in
  stage <- value_lower (dict_get deal "stage" (VStr "")) ;;
  Ok (company +++ "|" +++ py_str date +++ "|" +++ stage).

Definition _merge_deal_data (cb_deals pb_deals : list dict)
  : result (list dict) :=
  merged <- insert_all deal_key cb_deals [] ;;
  merged <- add_or_update deal_key pb_deals merged ;;
  Ok (assoc_values merged).

(** ** Ranked tags *)

(** [counts[k] = counts.get(k, 0) + 1] *)
Definition bump (counts : list (string * Z)) (k : string) : list (string * Z) :=
  assoc_set counts k
    (match assoc_get counts k with Some c => c | None => 0 end + 1).

(** Keys seen at least twice, the most frequent first. *)
Definition ranked (counts : list (string * Z)) : list string :=
  let top := map fst (filter (fun kc => 2 <=? snd kc) counts) in
  sorted_desc
    (fun s => match assoc_get counts s with Some c => c | None => 0 end) top.

Definition _derive_sector_focus (portfolio : list dict) : result (list string) :=
  sector_counts <-
    for_each
      (fun counts company =>
         categories <- py_iter (dict_get company "categories" (VList [])) ;;
         Ok (fold_left
               (fun counts category =>
                  match category with
                  | VStr s => if String.eqb s "" then counts else bump counts s
                  | _ => counts
                  end)
               categories counts))
      portfolio [] ;;
  Ok (take 10 (ranked sector_counts)).

Definition _normalize_stage (stage : value) : result string :=
  stage_lower <- value_lower stage ;;
  let has := contains stage_lower in
  Ok (if (has "pre-seed" || has "preseed")%bool then "Pre-seed"
      else if (has "seed" || has "angel")%bool then "Seed"
      else if has "series a" then "Series A"
      else if has "series b" then "Series B"
      else if existsb has ["series c"; "series d"; "series e"; "series f"]
           then "Series C+"
      else if (has "late" && has "stage")%bool then "Series C+"
      else if (has "early" && has "stage")%bool then "Seed+"
      else "").

Definition _derive_stage_preference (deals : list dict) : result (list string) :=
  stage_counts <-
    for_each
      (fun counts deal =>
         let stage := dict_get deal "stage" (VStr "") in
         if truthy stage then
           norm_stage <- _normalize_stage stage ;;
           Ok (if String.eqb norm_stage "" then counts
               else bump counts norm_stage)
         else Ok counts)
      deals [] ;;
  Ok (ranked stage_counts).

(** ** Check sizes *)

(** The loop shared by the two check-size functions:
[[
for deal in deals:
    amount = deal.get("amount", 0)
    if amount and amount > 0:
        amounts.append(amount)
]] *)
Definition collect_amounts (deals : list dict) : result (list Z) :=
  for_each
    (fun amounts deal =>
       let amount := dict_get deal "amount" (VInt 0) in
       if truthy amount then
         match as_number amount with
         | Some n => Ok (if 0 <? n then amounts ++ [n] else amounts)
         | None => Raise TypeError
         end
       else Ok amounts)
    deals [].

(** [min(l)] and [max(l)] of a non-empty list *)
Definition list_min (l : list Z) : Z :=
  match l with
  | [] => 0
  | x :: rest => fold_left Z.min rest x
  end.

Definition list_max (l : list Z) : Z :=
  match l with
  | [] => 0
  | x :: rest => fold_left Z.max rest x
  end.


(** [min(amounts) / 1000] and [max(amounts) / 1000] divide two [int]s;
    [min_amount / 50] and [max_amount / 50] divide a double.
[[
min_amount = min(amounts) / 1000
max_amount = max(amounts) / 1000
min_amount = round(min_amount / 50) * 50
max_amount = round(max_amount / 50) * 50
return (min_amount, max_amount)
]] *)
Definition _calculate_check_range (deals : list dict) : result (Z * Z) :=
  amounts <- collect_amounts deals ;;
  match amounts with
  | [] => Ok (0, 0)
  | _ =>
      min_amount <- int_true_divide (list_min amounts) 1000 ;;
      max_amount <- int_true_divide (list_max amounts) 1000 ;;
      let min_amount := py_round (float_divide min_amount 50) * 50 in
      let max_amount := py_round (float_divide max_amount 50) * 50 in
      Ok (min_amount, max_amount)
  end.

(** One bound of a range, in thousands: [f"${x/1000:.1f}M"] from 1000 up,
    [f"${x:.0f}k"] below. *)
Definition format_amount (x : Z) : string :=
  if 1000 <=? x then "$" +++ format_f1 (double_div x 1000) +++ "M"
  else "$" +++ format_f0 x +++ "k".

Definition _format_check_range (min_amount max_amount : Z) : string :=
  if (min_amount =? 0) && (max_amount =? 0) then "Unknown"
  else format_amount min_amount +++ "-" +++ format_amount max_amount.

(** The median of a sorted, non-empty list as the code forms it: the middle
    amount of an odd count, an [int]; of an even count the double
    [(a + b) / 2] of the two middle amounts.
[[
if len(amounts) % 2 == 0:
    median = (amounts[len(amounts)//2 - 1] + amounts[len(amounts)//2]) / 2
else:
    median = amounts[len(amounts)//2]
]] *)
Definition median (amounts : list Z) : result (Z + Q) :=
  let n := List.length amounts in
  let half := (n / 2)%nat in
  if Nat.even n
  then
    let two_middle := nth (half - 1) amounts 0 + nth half amounts 0 in
    m <- int_true_divide two_middle 2 ;;
    Ok (inr m)
  else Ok (inl (nth half amounts 0)).

(** [median / 1000] is a division of two [int]s for an odd count and of a
    double by 1000 for an even count; [sweet_spot / 50] divides a double;
    [round] of a double is its nearest integer, ties to even. *)
Definition _calculate_sweet_spot (deals : list dict) : result Z :=
  amounts <- collect_amounts deals ;;
  match amounts with
  | [] => Ok 0
  | _ =>
      let amounts := sort_asc amounts in
      median <- median amounts ;;
      sweet_spot <- match median with
                    | inl m => int_true_divide m 1000
                    | inr x => Ok (float_divide x 1000)
                    end ;;
      Ok (py_round (float_divide sweet_spot 50) * 50)
  end.

Definition _format_sweet_spot (sweet_spot : Z) : string :=
  if sweet_spot =? 0 then "Unknown" else format_amount sweet_spot.

(** ** Lead or follow *)

Definition _determine_lead_follow (deals : list dict) : string :=
  let '(lead_count, total_count) :=
    fold_left
      (fun counts deal =>
         let '(lead_count, total_count) := counts in
         let is_lead := dict_get deal "is_lead" (VBool false) in
         (if truthy is_lead then lead_count + 1 else lead_count,
          total_count + 1))
      deals (0, 0) in
  if total_count =? 0 then "Unknown"
  else
    let lead_ratio := (inject_Z lead_count / inject_Z total_count)%Q in
    if Qle_bool (7 # 10) lead_ratio then "Lead"
    else if Qle_bool lead_ratio (3 # 10) then "Follow"
    else "Both".

(** ** Geography *)

Definition region_keywords : list (string * list string) :=
  [ ("Silicon Valley",
     ["san francisco"; "palo alto"; "menlo park"; "mountain view";
      "silicon valley"; "bay area"; "san jose"; "oakland"]);
    ("New York", ["new york"; "nyc"; "brooklyn"; "manhattan"]);
    ("Boston", ["boston"; "cambridge, ma"; "massachusetts"]);
    ("Midwest",
     ["chicago"; "detroit"; "minneapolis"; "ohio"; "michigan"; "illinois";
      "wisconsin"; "indiana"]);
    ("Southeast",
     ["atlanta"; "miami"; "florida"; "carolina"; "tennessee"; "georgia";
      "alabama"; "louisiana"]);
    ("Texas", ["texas"; "austin"; "dallas"; "houston"]);
    ("Pacific Northwest", ["seattle"; "portland"; "washington"; "oregon"]);
    ("Europe", ["london"; "berlin"; "paris"; "amsterdam"; "europe"]);
    ("Asia", ["china"; "india"; "japan"; "singapore"; "hong kong"; "asia"]);
    ("California", ["ca"; "california"]) ].

(** The [if]/[elif] chain over the regions: the first region with a keyword
    in the text. *)
Fixpoint first_region (table : list (string * list string))
  (location_lower : string) : string :=
  match table with
  | [] => "USA"
  | (region, keywords) :: rest =>
      if existsb (contains location_lower) keywords then region
      else first_region rest location_lower
  end.

Definition _determine_geo_focus (cb_info pb_info : dict) (portfolio : list dict)
  : result string :=
  let cb_location := dict_get cb_info "location" (VStr "") in
  let pb_location := dict_get pb_info "location" (VStr "") in
  let location := py_or cb_location pb_location in
  if truthy location then
    location_lower <- value_lower location ;;
    Ok (first_region region_keywords location_lower)
  else Ok "USA".

(** ** Investment thesis *)

(** The thesis composed when no description is long enough. *)
Definition derived_pattern (sectors stages : list string)
  (portfolio : list dict) : result string :=
  let derived_thesis := "Pattern: " in
  let derived_thesis :=
    match sectors, stages with
    | _ :: _, _ :: _ =>
        derived_thesis +++ "Invests in " +++ join ", " (take 3 sectors)
          +++ " at " +++ join ", " stages +++ " stages" +++ "."
    | _ :: _, [] =>
        derived_thesis +++ "Invests in " +++ join ", " (take 3 sectors) +++ "."
    | [], _ :: _ =>
        derived_thesis +++ "Focuses on " +++ join ", " stages
          +++ " stage investments."
    | [], [] =>
        derived_thesis
          +++ "General investment approach across various sectors and stages."
    end in
  if (3 <=? List.length portfolio)%nat then
    let sample_companies :=
      map (fun c => dict_get c "name" (VStr ""))
        (filter (fun c => truthy (dict_get c "name" VNone)) (take 3 portfolio)) in
    match sample_companies with
    | [] => Ok derived_thesis
    | _ =>
        names <- join_values ", " sample_companies ;;
        Ok (derived_thesis +++ " Portfolio includes " +++ names +++ ".")
    end
  else Ok derived_thesis.

Definition _derive_investment_thesis (cb_info pb_info : dict)
  (sectors stages : list string) (portfolio : list dict) : result string :=
  let cb_desc := dict_get cb_info "description" (VStr "") in
  let pb_desc := dict_get pb_info "description" (VStr "") in
  let description := py_or cb_desc pb_desc in
  long <- (if truthy description
           then n <- py_len description ;; Ok (20 <? n)%nat
           else Ok false) ;;
  if long then Ok ("Thesis: " +++ py_str description)
  else derived_pattern sectors stages portfolio.

(** ** Status *)

(** [[
status = "Active"
if not merged_deals or not any(d.get("date", "").startswith("202")
                               for d in merged_deals):
    if not merged_portfolio:
        status = "Unknown"
]] *)
Definition derive_status (merged_portfolio merged_deals : list dict)
  : result string :=
  stale <- match merged_deals with
           | [] => Ok true
           | _ =>
               recent <- py_any
                           (fun d => value_startswith
                                       (dict_get d "date" (VStr "")) "202")
                           merged_deals ;;
               Ok (negb recent)
           end ;;
  Ok (if stale
      then match merged_portfolio with [] => "Unknown" | _ => "Active" end
      else "Active").

(** ** The provider gateway and its cache *)

(** A hashable object used as a dict key: [True == 1] and [False == 0] as
    keys, a list or a dict cannot be hashed. *)
Inductive key : Type :=
| KNone
| KNum (n : Z)
| KStr (s : string).

Definition hash_key (v : value) : result key :=
  match v with
  | VNone => Ok KNone
  | VBool b => Ok (KNum (if b then 1 else 0))
  | VInt n => Ok (KNum n)
  | VStr s => Ok (KStr s)
  | VList _ | VDict _ => Raise TypeError
  end.

Definition key_eqb (a b : key) : bool :=
  match a, b with
  | KNone, KNone => true
  | KNum m, KNum n => m =? n
  | KStr s, KStr t => String.eqb s t
  | _, _ => false
  end.

Fixpoint memo_get {X : Type} (m : list (key * X)) (k : key) : option X :=
  match m with
  | [] => None
  | (k', x) :: rest => if key_eqb k k' then Some x else memo_get rest k
  end.

(** The cache keeps what the providers returned.  In Python the cached
    lists hold the very record objects the merge writes into, so a later
    firm that hits the same entry sees them as the earlier merge left them.
    The model stores values; the statements about the enrichment hold for
    every state of the cache, so none depends on what an entry holds. *)
Record Cache : Type := {
  cb_info : list (key * dict);
  cb_portfolio : list (key * list dict);
  cb_deals : list (key * list dict);
  pb_info : list (key * dict);
  pb_portfolio : list (key * list dict);
  pb_deals : list (key * list dict)
}.

Definition empty_cache : Cache :=
  {| cb_info := []; cb_portfolio := []; cb_deals := [];
     pb_info := []; pb_portfolio := []; pb_deals := [] |}.

(** A data provider is outside the program: each call reads and changes a
    world [W] (the network, the service) and answers or raises. *)
Record Provider (W : Type) : Type := {
  get_vc_info : value -> W -> result dict * W;
  get_portfolio : value -> W -> result (list dict) * W;
  get_deals : value -> W -> result (list dict) * W
}.

Arguments get_vc_info {W}.
Arguments get_portfolio {W}.
Arguments get_deals {W}.

Section Enrichment.
Context {W : Type} (crunchbase pitchbook : Provider W).

(** The enricher's mutable state: its cache and the world of the
    providers.  A computation keeps its state when it raises. *)
Definition state : Type := Cache * W.
Definition M (A : Type) : Type := state -> result A * state.

Definition ret {A : Type} (a : A) : M A := fun s => (Ok a, s).

Definition bindM {A B : Type} (m : M A) (k : A -> M B) : M B :=
  fun s =>
    match m s with
    | (Ok a, s') => k a s'
    | (Raise e, s') => (Raise e, s')
    end.

Definition lift {A : Type} (r : result A) : M A := fun s => (r, s).

Notation "x <~ m ;; k" := (bindM m (fun x => k))
  (at level 100, m at next level, right associativity).

(** One memoised provider call:
[[
if k in cache[slot]:
  x = cache[slot][k]
else:
  x = call(k)
  cache[slot][k] = x
]] *)
Definition memoised {X : Type}
  (read : Cache -> list (key * X))
  (write : Cache -> list (key * X) -> Cache)
  (call : value -> W -> result X * W) (k : value) : M X :=
  fun s =>
    let '(cache, w) := s in
    match hash_key k with
    | Raise e => (Raise e, s)
    | Ok hk =>
        match memo_get (read cache) hk with
        | Some x => (Ok x, s)
        | None =>
            match call k w with
            | (Ok x, w') => (Ok x, (write cache ((hk, x) :: read cache), w'))
            | (Raise e, w') => (Raise e, (cache, w'))
            end
        end
    end.

Definition set_cb_info c m :=
  {| cb_info := m; cb_portfolio := cb_portfolio c; cb_deals := cb_deals c;
     pb_info := pb_info c; pb_portfolio := pb_portfolio c;
     pb_deals := pb_deals c |}.
Definition set_cb_portfolio c m :=
  {| cb_info := cb_info c; cb_portfolio := m; cb_deals := cb_deals c;
     pb_info := pb_info c; pb_portfolio := pb_portfolio c;
     pb_deals := pb_deals c |}.
Definition set_cb_deals c m :=
  {| cb_info := cb_info c; cb_portfolio := cb_portfolio c; cb_deals := m;
     pb_info := pb_info c; pb_portfolio := pb_portfolio c;
     pb_deals := pb_deals c |}.
Definition set_pb_info c m :=
  {| cb_info := cb_info c; cb_portfolio := cb_portfolio c;
     cb_deals := cb_deals c;
     pb_info := m; pb_portfolio := pb_portfolio c; pb_deals := pb_deals c |}.
Definition set_pb_portfolio c m :=
  {| cb_info := cb_info c; cb_portfolio := cb_portfolio c;
     cb_deals := cb_deals c;
     pb_info := pb_info c; pb_portfolio := m; pb_deals := pb_deals c |}.
Definition set_pb_deals c m :=
  {| cb_info := cb_info c; cb_portfolio := cb_portfolio c;
     cb_deals := cb_deals c;
     pb_info := pb_info c; pb_portfolio := pb_portfolio c; pb_deals := m |}.

Definition _get_vc_info (name : value) : M (dict * dict) :=
  cb <~ memoised cb_info set_cb_info (get_vc_info crunchbase) name ;;
  pb <~ memoised pb_info set_pb_info (get_vc_info pitchbook) name ;;
  ret (cb, pb).

(** [provider.get_x(id) if id else []] *)
Definition if_id (call : value -> W -> result (list dict) * W)
  (id : value) (w : W) : result (list dict) * W :=
  if truthy id then call id w else (Ok [], w).

Definition _get_portfolio_and_deals (cb_id pb_id : value)
  : M (list dict * list dict * list dict * list dict) :=
  cbp <~ memoised cb_portfolio set_cb_portfolio
           (if_id (get_portfolio crunchbase)) cb_id ;;
  cbd <~ memoised cb_deals set_cb_deals (if_id (get_deals crunchbase)) cb_id ;;
  pbp <~ memoised pb_portfolio set_pb_portfolio
           (if_id (get_portfolio pitchbook)) pb_id ;;
  pbd <~ memoised pb_deals set_pb_deals (if_id (get_deals pitchbook)) pb_id ;;
  ret (cbp, cbd, pbp, pbd).

(** ** Enrichment of one firm *)

(** The record returned when the enrichment raised: the input fields, then
    the defaults. *)
Definition default_fields : dict :=
  [ ("About", VStr "");
    ("Investment Thesis", VStr "");
    ("Sector Focus", VList []);
    ("Preferred Deal Stage", VList []);
    ("Check Range", VStr "Unknown");
    ("Check Sweet Spot", VStr "Unknown");
    ("Geo Focus", VStr "USA");
    ("Status", VStr "Unknown");
    ("Lead/Follow", VStr "Unknown");
    ("Portfolio", VList []);
    ("Deals", VList []) ].

(** The body of the [try] block. *)
Definition enrich_body (vc_data : dict) (name : value) : M dict :=
  infos <~ _get_vc_info name ;;
  let '(cb_info, pb_info) := infos in
  let cb_id := dict_get cb_info "uuid" (VStr "") in
  let pb_id := dict_get pb_info "uuid" (VStr "") in
  fetched <~ _get_portfolio_and_deals cb_id pb_id ;;
  let '(cb_portfolio, cb_deals, pb_portfolio, pb_deals) := fetched in
  lift (
    merged_portfolio <- _merge_company_data cb_portfolio pb_portfolio ;;
    merged_deals <- _merge_deal_data cb_deals pb_deals ;;
    sector_focus <- _derive_sector_focus merged_portfolio ;;
    stage_preference <- _derive_stage_preference merged_deals ;;
    range <- _calculate_check_range merged_deals ;;
    let check_range := _format_check_range (fst range) (snd range) in
    sweet_spot <- _calculate_sweet_spot merged_deals ;;
    let sweet_spot_str := _format_sweet_spot sweet_spot in
    let lead_follow := _determine_lead_follow merged_deals in
    geo_focus <- _determine_geo_focus cb_info pb_info merged_portfolio ;;
    investment_thesis <-
      _derive_investment_thesis cb_info pb_info sector_focus
        stage_preference merged_portfolio ;;
    status <- derive_status merged_portfolio merged_deals ;;
    Ok (dict_extend vc_data
          [ ("About",
             py_or (dict_get cb_info "description" (VStr ""))
                   (dict_get pb_info "description" (VStr "")));
            ("Investment Thesis", VStr investment_thesis);
            ("Sector Focus", VList (map VStr sector_focus));
            ("Preferred Deal Stage", VList (map VStr stage_preference));
            ("Check Range", VStr check_range);
            ("Check Sweet Spot", VStr sweet_spot_str);
            ("Geo Focus", VStr geo_focus);
            ("Status", VStr status);
            ("Lead/Follow", VStr lead_follow);
            ("Portfolio", VList (map VDict merged_portfolio));
            ("Deals", VList (map VDict merged_deals)) ])).

Definition enrich_vc_data (vc_data : dict) : M dict :=
  let name := dict_get vc_data "Name" (VStr "") in
  if negb (truthy name) then ret vc_data
  else
    fun s =>
      match enrich_body vc_data name s with
      | (Ok enhanced_vc, s') => (Ok enhanced_vc, s')
      | (Raise _, s') => (Ok (dict_extend vc_data default_fields), s')
      end.

(** ** Enrichment of a batch *)

Fixpoint enrich_loop (vc_data_list : list dict) (enhanced_vcs : list dict)
  : M (list dict) :=
  match vc_data_list with
  | [] => ret enhanced_vcs
  | vc :: rest =>
      fun s =>
        match enrich_vc_data vc s with
        | (Ok enhanced_vc, s') => enrich_loop rest (enhanced_vcs ++ [enhanced_vc]) s'
        | (Raise _, s') =>
            enrich_loop rest
              (enhanced_vcs ++ [dict_extend vc default_fields]) s'
        end
  end.

Definition enrich_multiple_vcs (vc_data_list : list dict) : M (list dict) :=
  enrich_loop vc_data_list [].

End Enrichment.

End VCDataEnricher.

(** * The mock providers of [api_integration.py] *)

(** ** Operations on responses of unknown shape *)

(** [IndexError] is raised inside a provider only. *)
Definition IndexError : exn := ProviderError "IndexError".

(** [k in v] for a string [k]: a key of a dict, a substring of a string, an
    element of a list. *)
Definition value_contains (v : value) (k : string) : result bool :=
  match v with
  | VDict d => Ok (assoc_mem d k)
  | VStr s => Ok (contains s k)
  | VList l => Ok (existsb (fun x => eq_str x k) l)
  | _ => Raise TypeError
  end.

(** [v[k]] for a string [k] *)
Definition value_getitem (v : value) (k : string) : result value :=
  match v with
  | VDict d =>
      match assoc_get d k with
      | Some x => Ok x
      | None => Raise KeyError
      end
  | _ => Raise TypeError
  end.

(** [v.get(k, default)] *)
Definition value_get (v : value) (k : string) (default : value) : result value :=
  match v with
  | VDict d => Ok (dict_get d k default)
  | _ => Raise AttributeError
  end.

(** [v[0]] *)
Definition value_index0 (v : value) : result value :=
  match v with
  | VList (x :: _) => Ok x
  | VList [] => Raise IndexError
  | VStr (String c _) => Ok (VStr (String c ""))
  | VStr EmptyString => Raise IndexError
  | VDict _ => Raise KeyError
  | _ => Raise TypeError
  end.

(** A list comprehension whose element expression may raise. *)
Fixpoint map_result {X Y : Type} (f : X -> result Y) (xs : list X)
  : result (list Y) :=
  match xs with
  | [] => Ok []
  | x :: rest => y <- f x ;; ys <- map_result f rest ;; Ok (y :: ys)
  end.

(** [range(a, b)] *)
Definition range (a b : nat) : list Z := map Z.of_nat (seq a (b - a)).

(** [f"{i:02d}"] for a non-negative [i] *)
Definition pad2 (i : Z) : string :=
  if i <? 10 then "0" +++ Z_to_string i else Z_to_string i.

(** ** The world of the providers *)

(** What the mock providers touch outside the program: the clock, through
    [time.sleep(0.2)], and the JSON files of a mock data directory.
    [json_file w path] is [None] when no file exists at [path], and
    otherwise what opening and parsing it gives. *)
Record world : Type := {
  sleeps : nat;
  json_file : string -> option (result value)
}.

Definition sleep (w : world) : world :=
  {| sleeps := S (sleeps w); json_file := json_file w |}.

(** [endpoint.split("/")[-1]] *)
Fixpoint after_last_slash (s acc : string) : string :=
  match s with
  | EmptyString => acc
  | String c rest =>
      if Ascii.eqb c "/" then after_last_slash rest ""
      else after_last_slash rest (acc +++ String c "")
  end.

Fixpoint ends_with_slash (s : string) : bool :=
  match s with
  | EmptyString => false
  | String c EmptyString => Ascii.eqb c "/"
  | String _ rest => ends_with_slash rest
  end.

(** [os.path.join(a, b)] *)
Definition path_join (a b : string) : string :=
  if String.prefix "/" b then b
  else if (String.eqb a "" || ends_with_slash a)%bool then a +++ b
  else a +++ "/" +++ b.

Module MockCrunchbaseProvider.

Definition _generate_mock_organization : value :=
  VDict
    [ ("data",
       VDict
         [ ("uuid", VStr "mock-uuid");
           ("properties",
            VDict
              [ ("name", VStr "Mock Ventures");
                ("short_description",
                 VStr "A leading venture capital firm investing in technology startups.");
                ("website", VStr "mockventures.com");
                ("founded_on", VStr "2010-01-01");
                ("location_identifiers",
                 VList [VDict [("value", VStr "San Francisco, CA")]]);
                ("categories",
                 VList [ VDict [("value", VStr "Venture Capital")];
                         VDict [("value", VStr "Finance")] ]) ]) ]) ].

Definition _generate_mock_portfolio : value :=
  let mock_companies :=
    map
      (fun i =>
         VDict
           [ ("uuid", VStr ("company-" +++ Z_to_string i));
             ("properties",
              VDict
                [ ("name", VStr ("Portfolio Company " +++ Z_to_string i));
                  ("short_description",
                   VStr ("Description for portfolio company " +++ Z_to_string i));
                  ("website", VStr ("company" +++ Z_to_string i +++ ".com"));
                  ("founded_on", VStr "2018-01-01");
                  ("categories",
                   VList [ VDict [("value", VStr "Software")];
                           VDict [("value", VStr "Artificial Intelligence")] ]) ]) ])
      (range 1 11) in
  VDict
    [ ("data", VDict [("cards", VList mock_companies)]);
      ("count", VInt (Z.of_nat (List.length mock_companies))) ].

Definition _generate_mock_deals : value :=
  let stages := ["Seed"; "Series A"; "Series B"; "Series C"] in
  let amounts := [750000; 2500000; 8000000; 15000000] in
  let mock_deals :=
    map
      (fun i =>
         VDict
           [ ("uuid", VStr ("deal-" +++ Z_to_string i));
             ("properties",
              VDict
                [ ("name", VStr ("Funding Round " +++ Z_to_string i));
                  ("announced_on", VStr ("2022-" +++ pad2 i +++ "-01"));
                  ("investment_type",
                   VStr (nth (Z.to_nat (i mod Z.of_nat (List.length stages)))
                           stages ""));
                  ("money_raised",
                   VInt (nth (Z.to_nat (i mod Z.of_nat (List.length amounts)))
                           amounts 0));
                  ("lead_investor_identifiers",
                   VList (if i mod 3 =? 0
                          then [VDict [("value", VStr "Lead VC")]]
                          else []));
                  ("investor_identifiers",
                   VList [VDict [("value", VStr "Mock Ventures")]]);
                  ("organization_identifiers",
                   VList [VDict [("value",
                                  VStr ("Portfolio Company " +++ Z_to_string i))]])
                ]) ])
      (range 1 16) in
  VDict
    [ ("data", VDict [("cards", VList mock_deals)]);
      ("count", VInt (Z.of_nat (List.length mock_deals))) ].

(** The request: a mock file answers when the provider has a mock data
    path and the file exists; otherwise the answer is generated after the
    simulated latency, chosen by the first of the three words the endpoint
    contains. *)
Definition _make_request (mock_data_path : option string) (endpoint : string)
  (w : world) : result value * world :=
  let from_file :=
    match mock_data_path with
    | Some path =>
        if negb (String.eqb path "") then
          let endpoint_name := after_last_slash endpoint "" in
          let mock_file := path_join path (endpoint_name +++ ".json") in
          json_file w mock_file
        else None
    | None => None
    end in
  match from_file with
  | Some loaded => (loaded, w)
  | None =>
      let w := sleep w in
      if contains endpoint "organizations"
      then (Ok _generate_mock_organization, w)
      else if contains endpoint "portfolio"
      then (Ok _generate_mock_portfolio, w)
      else if contains endpoint "deals"
      then (Ok _generate_mock_deals, w)
      else (Ok (VDict [("data", VDict []); ("count", VInt 0)]), w)
  end.

(** [[c.get("value", "") for c in props.get(field, [])]] *)
Definition values_of (props : value) (field : string) : result (list value) :=
  entries <- value_get props field (VList []) ;;
  items <- py_iter entries ;;
  map_result (fun c => value_get c "value" (VStr "")) items.

(** [props.get(field, [{}])[0].get("value", "") if props.get(field) else ""] *)
Definition first_value_of (props : value) (field : string) : result value :=
  present <- value_get props field VNone ;;
  if truthy present then
    entries <- value_get props field (VList [VDict []]) ;;
    first <- value_index0 entries ;;
    value_get first "value" (VStr "")
  else Ok (VStr "").

(** ["data" in response and field in response["data"]] *)
Definition has_data_field (response : value) (field : string) : result bool :=
  has_data <- value_contains response "data" ;;
  if has_data then
    data <- value_getitem response "data" ;;
    value_contains data field
  else Ok false.

(** The processing of the organization response. *)
Definition info_of_response (response : value) : result dict :=
  found <- has_data_field response "properties" ;;
  if found then
    data <- value_getitem response "data" ;;
    props <- value_getitem data "properties" ;;
    data <- value_getitem response "data" ;;
    uuid <- value_get data "uuid" (VStr "") ;;
    name <- value_get props "name" (VStr "") ;;
    description <- value_get props "short_description" (VStr "") ;;
    website <- value_get props "website" (VStr "") ;;
    founded <- value_get props "founded_on" (VStr "") ;;
    location <- first_value_of props "location_identifiers" ;;
    categories <- values_of props "categories" ;;
    Ok [ ("uuid", uuid);
         ("name", name);
         ("description", description);
         ("website", website);
         ("founded", founded);
         ("location", location);
         ("categories", VList categories) ]
  else Ok [].

Definition get_vc_info (mock_data_path : option string) (name : value)
  (w : world) : result dict * world :=
  let endpoint := "/organizations/lookup" in
  let '(response, w) := _make_request mock_data_path endpoint w in
  (response <- response ;; info_of_response response, w).

(** The loop over the cards of a response. *)
Definition cards_of_response {X : Type} (response : value)
  (record_of : value -> value -> result X) : result (list X) :=
  found <- has_data_field response "cards" ;;
  if found then
    data <- value_getitem response "data" ;;
    cards <- value_getitem data "cards" ;;
    cards <- py_iter cards ;;
    for_each
      (fun records card =>
         has_properties <- value_contains card "properties" ;;
         if has_properties then
           props <- value_getitem card "properties" ;;
           record <- record_of card props ;;
           Ok (records ++ [record])
         else Ok records)
      cards []
  else Ok [].

Definition company_of_card (card props : value) : result dict :=
  uuid <- value_get card "uuid" (VStr "") ;;
  name <- value_get props "name" (VStr "") ;;
  description <- value_get props "short_description" (VStr "") ;;
  website <- value_get props "website" (VStr "") ;;
  founded <- value_get props "founded_on" (VStr "") ;;
  categories <- values_of props "categories" ;;
  Ok [ ("uuid", uuid);
       ("name", name);
       ("description", description);
       ("website", website);
       ("founded", founded);
       ("categories", VList categories) ].

Definition portfolio_of_response (response : value) : result (list dict) :=
  cards_of_response response company_of_card.

Definition get_portfolio (mock_data_path : option string) (vc_id : value)
  (w : world) : result (list dict) * world :=
  let endpoint := "/organizations/" +++ py_str vc_id +++ "/portfolio" in
  let '(response, w) := _make_request mock_data_path endpoint w in
  (response <- response ;; portfolio_of_response response, w).

(** [any(name in li for li in lead_investors)]: the method binds no [name]
    and the module has none, so the first element that is tested raises
    [NameError]; over an empty list nothing is tested. *)
Definition any_name_in (lead_investors : list value) : result bool :=
  match lead_investors with
  | [] => Ok false
  | _ :: _ => Raise NameError
  end.

Definition deal_of_card (card props : value) : result dict :=
  lead_investors <- values_of props "lead_investor_identifiers" ;;
  is_lead <- any_name_in lead_investors ;;
  uuid <- value_get card "uuid" (VStr "") ;;
  name <- value_get props "name" (VStr "") ;;
  date <- value_get props "announced_on" (VStr "") ;;
  stage <- value_get props "investment_type" (VStr "") ;;
  amount <- value_get props "money_raised" (VInt 0) ;;
  company <- first_value_of props "organization_identifiers" ;;
  Ok [ ("uuid", uuid);
       ("name", name);
       ("date", date);
       ("stage", stage);
       ("amount", amount);
       ("is_lead", VBool is_lead);
       ("company", company) ].

Definition deals_of_response (response : value) : result (list dict) :=
  cards_of_response response deal_of_card.

Definition get_deals (mock_data_path : option string) (vc_id : value)
  (w : world) : result (list dict) * world :=
  let endpoint :=
    "/organizations/" +++ py_str vc_id +++ "/participated_funding_rounds" in
  let '(response, w) := _make_request mock_data_path endpoint w in
  (response <- response ;; deals_of_response response, w).

(** [MockCrunchbaseProvider(api_key, mock_data_path)]; the key is stored and
    never read. *)
Definition new (mock_data_path : option string)
  : VCDataEnricher.Provider world :=
  {| VCDataEnricher.get_vc_info := get_vc_info mock_data_path;
     VCDataEnricher.get_portfolio := get_portfolio mock_data_path;
     VCDataEnricher.get_deals := get_deals mock_data_path |}.

End MockCrunchbaseProvider.

Module MockPitchbookProvider.

Definition _generate_mock_investor : value :=
  VDict
    [ ("id", VStr "mock-pb-id");
      ("name", VStr "PB Ventures");
      ("description",
       VStr "A venture capital firm with a focus on enterprise technology and fintech.");
      ("website", VStr "pbventures.com");
      ("foundedDate", VStr "2012");
      ("headquarters", VStr "New York, NY");
      ("aum", VInt 250000000);
      ("sectors",
       VList [ VStr "Enterprise Software"; VStr "Financial Technology";
               VStr "Data & Analytics" ]);
      ("investmentStages", VList [VStr "Early Stage"; VStr "Late Stage"]);
      ("status", VStr "Active") ].

Definition _generate_mock_portfolio : value :=
  VList
    (map
       (fun i =>
          VDict
            [ ("id", VStr ("comp-" +++ Z_to_string i));
              ("name", VStr ("PB Portfolio Co " +++ Z_to_string i));
              ("description",
               VStr ("Description for portfolio company " +++ Z_to_string i));
              ("website", VStr ("pbcompany" +++ Z_to_string i +++ ".com"));
              ("foundedDate", VStr "2019");
              ("headquarters", VStr "San Francisco, CA");
              ("sectors",
               VList [VStr "Enterprise Software"; VStr "Artificial Intelligence"]);
              ("lastFundingStage",
               VStr (nth (Z.to_nat (i mod 3)) ["Series A"; "Series B"; "Seed"] ""));
              ("totalFunding",
               VInt (nth (Z.to_nat (i mod 3)) [1000000; 5000000; 15000000] 0)) ])
       (range 1 13)).

Definition _generate_mock_deals : value :=
  let stages := ["Seed"; "Series A"; "Series B"; "Series C"] in
  let amounts := [800000; 3000000; 9000000; 18000000] in
  VList
    (map
       (fun i =>
          VDict
            [ ("id", VStr ("deal-" +++ Z_to_string i));
              ("dealName", VStr ("Funding Round " +++ Z_to_string i));
              ("dealDate", VStr ("2023-" +++ pad2 (i mod 12 + 1) +++ "-15"));
              ("dealType", VStr "Venture Capital");
              ("dealStage",
               VStr (nth (Z.to_nat (i mod Z.of_nat (List.length stages)))
                       stages ""));
              ("dealSize",
               VInt (nth (Z.to_nat (i mod Z.of_nat (List.length amounts)))
                       amounts 0));
              ("isLead", VBool (i mod 3 =? 0));
              ("investedCompany",
               VStr ("PB Portfolio Co " +++ Z_to_string (i mod 12 + 1)));
              ("investedCompanyId",
               VStr ("comp-" +++ Z_to_string (i mod 12 + 1))) ])
       (range 1 18)).

Definition _make_request (endpoint : string) (w : world) : value * world :=
  let w := sleep w in
  if contains endpoint "investors" then (_generate_mock_investor, w)
  else if contains endpoint "portfolio" then (_generate_mock_portfolio, w)
  else if contains endpoint "deals" then (_generate_mock_deals, w)
  else (VDict [("data", VList []); ("count", VInt 0)], w).

Definition info_of_response (response : value) : dict :=
  match response with
  | VDict response =>
      [ ("uuid", dict_get response "id" (VStr ""));
        ("name", dict_get response "name" (VStr ""));
        ("description", dict_get response "description" (VStr ""));
        ("website", dict_get response "website" (VStr ""));
        ("founded", dict_get response "foundedDate" (VStr ""));
        ("location", dict_get response "headquarters" (VStr ""));
        ("categories", dict_get response "sectors" (VList []));
        ("investment_stages", dict_get response "investmentStages" (VList []));
        ("aum", dict_get response "aum" (VInt 0));
        ("status", dict_get response "status" (VStr "")) ]
  | _ => []
  end.

Definition get_vc_info (name : value) (w : world) : result dict * world :=
  let endpoint := "/investors/search" in
  let '(response, w) := _make_request endpoint w in
  (Ok (info_of_response response), w).

(** The loop over a response that is a list. *)
Definition items_of_response (response : value)
  (record_of : value -> result dict) : result (list dict) :=
  match response with
  | VList response =>
      for_each
        (fun records item => record <- record_of item ;; Ok (records ++ [record]))
        response []
  | _ => Ok []
  end.

Definition portfolio_item (company : value) : result dict :=
  uuid <- value_get company "id" (VStr "") ;;
  name <- value_get company "name" (VStr "") ;;
  description <- value_get company "description" (VStr "") ;;
  website <- value_get company "website" (VStr "") ;;
  founded <- value_get company "foundedDate" (VStr "") ;;
  categories <- value_get company "sectors" (VList []) ;;
  last_funding <- value_get company "lastFundingStage" (VStr "") ;;
  total_funding <- value_get company "totalFunding" (VInt 0) ;;
  Ok [ ("uuid", uuid);
       ("name", name);
       ("description", description);
       ("website", website);
       ("founded", founded);
       ("categories", categories);
       ("last_funding", last_funding);
       ("total_funding", total_funding) ].

Definition get_portfolio (vc_id : value) (w : world)
  : result (list dict) * world :=
  let endpoint := "/investors/" +++ py_str vc_id +++ "/portfolio" in
  let '(response, w) := _make_request endpoint w in
  (items_of_response response portfolio_item, w).

Definition deal_item (deal : value) : result dict :=
  uuid <- value_get deal "id" (VStr "") ;;
  name <- value_get deal "dealName" (VStr "") ;;
  date <- value_get deal "dealDate" (VStr "") ;;
  stage <- value_get deal "dealStage" (VStr "") ;;
  amount <- value_get deal "dealSize" (VInt 0) ;;
  is_lead <- value_get deal "isLead" (VBool false) ;;
  company <- value_get deal "investedCompany" (VStr "") ;;
  Ok [ ("uuid", uuid);
       ("name", name);
       ("date", date);
       ("stage", stage);
       ("amount", amount);
       ("is_lead", is_lead);
       ("company", company) ].

Definition get_deals (vc_id : value) (w : world) : result (list dict) * world :=
  let endpoint := "/investors/" +++ py_str vc_id +++ "/deals" in
  let '(response, w) := _make_request endpoint w in
  (items_of_response response deal_item, w).

(** [MockPitchbookProvider(api_key)]; the key is stored and never read. *)
Definition new : VCDataEnricher.Provider world :=
  {| VCDataEnricher.get_vc_info := get_vc_info;
     VCDataEnricher.get_portfolio := get_portfolio;
     VCDataEnricher.get_deals := get_deals |}.

End MockPitchbookProvider.

(** [VCDataEnricher.__init__]: either value of [use_mock] builds the mock
    providers, the Crunchbase one without a mock data path. *)
Definition __init__ (use_mock : bool)
  : VCDataEnricher.Provider world * VCDataEnricher.Provider world :=
  if use_mock
  then (MockCrunchbaseProvider.new None, MockPitchbookProvider.new)
  else (MockCrunchbaseProvider.new None, MockPitchbookProvider.new).

(** * [web_scraper.py] *)

Module VCWebScraper.

Definition sector_keywords : list (string * list string) :=
  [ ("Fintech",
     ["fintech"; "financial technology"; "financial services"; "banking";
      "insurance"; "payments"]);
    ("Enterprise SaaS",
     ["enterprise"; "saas"; "software as a service"; "b2b software";
      "cloud software"]);
    ("Health Tech",
     ["health"; "healthcare"; "medical"; "biotech"; "life sciences";
      "digital health"]);
    ("AI/ML",
     ["ai"; "artificial intelligence"; "machine learning"; "deep learning";
      "nlp"; "computer vision"]);
    ("Cybersecurity",
     ["security"; "cybersecurity"; "infosec"; "data protection"; "privacy"]);
    ("E-commerce",
     ["e-commerce"; "ecommerce"; "e commerce"; "retail"; "direct to consumer";
      "d2c"; "dtc"]);
    ("Edtech", ["education"; "edtech"; "learning"; "teaching"; "training"]);
    ("Climate Tech",
     ["climate"; "cleantech"; "sustainability"; "green"; "renewable";
      "carbon"]);
    ("Consumer Apps",
     ["consumer"; "apps"; "mobile apps"; "social media"; "social network"]);
    ("B2B Marketplace", ["b2b"; "marketplace"; "platform"; "exchange"]);
    ("Web3/Blockchain",
     ["web3"; "blockchain"; "crypto"; "bitcoin"; "ethereum"; "nft"; "defi";
      "dao"]);
    ("Hardware",
     ["hardware"; "devices"; "iot"; "internet of things"; "sensors";
      "electronics"]);
    ("Robotics", ["robotics"; "robots"; "automation"; "autonomous"]);
    ("AR/VR",
     ["augmented reality"; "virtual reality"; "ar"; "vr"; "mixed reality";
      "metaverse"]);
    ("Space", ["space"; "aerospace"; "satellite"; "launch"]);
    ("AgTech", ["agriculture"; "agtech"; "farming"; "food production"]);
    ("Manufacturing",
     ["manufacturing"; "industry 4.0"; "industrial"; "factories"]);
    ("PropTech", ["real estate"; "proptech"; "construction"; "buildings"]);
    ("Mobility",
     ["mobility"; "transportation"; "automotive"; "electric vehicles"; "ev"]) ].

(** [any(keyword in text_lower for keyword in keywords)] *)
Definition flagged (text_lower : string) (keywords : list string) : bool :=
  existsb (contains text_lower) keywords.

(** [sum(text_lower.count(keyword) for keyword in keywords)] *)
Definition keyword_score (text_lower : string) (keywords : list string) : Z :=
  fold_left (fun total keyword => total + Z.of_nat (str_count text_lower keyword))
    keywords 0.

(** The classifier over a vocabulary; [_extract_sectors] is its instance at
    [sector_keywords]. *)
Definition extract_from (vocabulary : list (string * list string))
  (text : string) : list string :=
  let text_lower := lower text in
  let sectors :=
    fold_left
      (fun sectors entry =>
         let '(sector, keywords) := entry in
         if flagged text_lower keywords then sectors ++ [sector] else sectors)
      vocabulary [] in
  if (5 <? List.length sectors)%nat then
    let sector_scores :=
      fold_left
        (fun scores entry =>
           let '(sector, keywords) := entry in
           if existsb (String.eqb sector) sectors
           then assoc_set scores sector (keyword_score text_lower keywords)
           else scores)
        vocabulary [] in
    map fst (take 5 (sorted_desc snd sector_scores))
  else sectors.

Definition _extract_sectors (text : string) : list string :=
  extract_from sector_keywords text.

(** ** Stages *)

(** The regular expressions of the stage table are made of literal
    characters, the dot and the optional dot. *)
Inductive regex_item : Type :=
| Literal (c : ascii)
| AnyChar
| OptionalChar.

Fixpoint compile (pattern : string) : list regex_item :=
  match pattern with
  | EmptyString => []
  | String "." (String "?" rest) => OptionalChar :: compile rest
  | String "." rest => AnyChar :: compile rest
  | String c rest => Literal c :: compile rest
  end.

(** The dot matches every character but the newline. *)
Definition dot_matches (c : ascii) : bool := negb (Ascii.eqb c (ascii_of_nat 10)).

(** A match that starts at the first character. *)
Fixpoint match_here (items : list regex_item) (s : string) : bool :=
  match items with
  | [] => true
  | Literal c :: rest =>
      match s with
      | String c' s' => (Ascii.eqb c c' && match_here rest s')%bool
      | EmptyString => false
      end
  | AnyChar :: rest =>
      match s with
      | String c' s' => (dot_matches c' && match_here rest s')%bool
      | EmptyString => false
      end
  | OptionalChar :: rest =>
      (match s with
       | String c' s' => (dot_matches c' && match_here rest s')%bool
       | EmptyString => false
       end || match_here rest s)%bool
  end.

Fixpoint search_items (items : list regex_item) (s : string) : bool :=
  (match_here items s
   || match s with
      | EmptyString => false
      | String _ rest => search_items items rest
      end)%bool.

(** [re.search(pattern, text)] as a truth value *)
Definition re_search (pattern text : string) : bool :=
  search_items (compile pattern) text.

Definition stage_patterns : list (string * list string) :=
  [ ("Pre-seed", ["pre.?seed"; "concept"; "idea stage"; "earliest"]);
    ("Seed", ["seed"; "early stage"; "initial funding"]);
    ("Series A", ["series a"; "series.a"; "early growth"]);
    ("Series B", ["series b"; "series.b"; "growth stage"]);
    ("Series C+",
     ["series c"; "series.c"; "series d"; "later stage"; "growth equity"]) ].

Definition _extract_stages (text : string) : list string :=
  let text_lower := lower text in
  fold_left
    (fun stages entry =>
       let '(stage, patterns) := entry in
       if existsb (fun pattern => re_search pattern text_lower) patterns
       then stages ++ [stage] else stages)
    stage_patterns [].

(** ** Geography *)

Definition geo_regions : list (string * list string) :=
  [ ("Silicon Valley",
     ["silicon valley"; "bay area"; "san francisco"; "palo alto"; "menlo park"]);
    ("New York", ["new york"; "nyc"; "brooklyn"; "manhattan"]);
    ("Boston", ["boston"; "cambridge"; "massachusetts"; "new england"]);
    ("Midwest",
     ["midwest"; "chicago"; "detroit"; "minneapolis"; "ohio"; "michigan";
      "illinois"]);
    ("Southeast",
     ["southeast"; "atlanta"; "miami"; "florida"; "carolina"; "tennessee";
      "georgia"]);
    ("Texas", ["texas"; "austin"; "dallas"; "houston"; "san antonio"]);
    ("Europe",
     ["europe"; "european"; "uk"; "london"; "berlin"; "paris"; "amsterdam"]);
    ("Asia", ["asia"; "china"; "india"; "japan"; "singapore"; "hong kong"]);
    ("Global", ["global"; "worldwide"; "international"; "across the world"]);
    ("USA",
     ["usa"; "united states"; "america"; "american"; "nationwide"; "national";
      "across the country"]) ].

(** The loop over the regions, left at the first region with a keyword in
    the text. *)
Fixpoint first_flagged (regions : list (string * list string))
  (text_lower : string) : option string :=
  match regions with
  | [] => None
  | (region, keywords) :: rest =>
      if flagged text_lower keywords then Some region
      else first_flagged rest text_lower
  end.

Definition _extract_geo_focus (text : string) : string :=
  let text_lower := lower text in
  match first_flagged geo_regions text_lower with
  | Some region => region
  | None => "USA"
  end.

End VCWebScraper.

(** ** Further operations on objects *)

Definition nl : string := String (ascii_of_nat 10) "".
Definition dq : string := String (ascii_of_nat 34) "".

(** [a == b]: numbers compare by value ([True == 1]), lists element by
    element, dicts as mappings, whatever the order of their keys. *)
Fixpoint value_eqb (a b : value) : bool :=
  match a, b with
  | VNone, VNone => true
  | VBool x, VBool y => Bool.eqb x y
  | VBool x, VInt n => (if x then 1 else 0) =? n
  | VInt n, VBool x => n =? (if x then 1 else 0)
  | VInt m, VInt n => m =? n
  | VStr s, VStr t => String.eqb s t
  | VList l1, VList l2 =>
      (fix all (l1 l2 : list value) : bool :=
         match l1, l2 with
         | [], [] => true
         | x :: r1, y :: r2 => (value_eqb x y && all r1 r2)%bool
         | _, _ => false
         end) l1 l2
  | VDict d1, VDict d2 =>
      (Nat.eqb (List.length d1) (List.length d2)
       && (fix all (d : list (string * value)) : bool :=
             match d with
             | [] => true
             | (k, v) :: rest =>
                 (match assoc_get d2 k with
                  | Some v' => value_eqb v v'
                  | None => false
                  end && all rest)%bool
             end) d1)%bool
  | _, _ => false
  end.

(** A list comprehension whose condition may raise. *)
Fixpoint filter_result {X : Type} (p : X -> result bool) (xs : list X)
  : result (list X) :=
  match xs with
  | [] => Ok []
  | x :: rest =>
      keep <- p x ;;
      kept <- filter_result p rest ;;
      Ok (if keep then x :: kept else kept)
  end.

(** [v[:n]] on a string or a list; an integer or [None] cannot be sliced,
    and a dict rejects the slice as a key ([TypeError]: a slice cannot be
    hashed; from Python 3.12 on it can, and the dict raises [KeyError]). *)
Definition slice_value (n : nat) (v : value) : result value :=
  match v with
  | VStr s => Ok (VStr (String.substring 0 n s))
  | VList l => Ok (VList (firstn n l))
  | _ => Raise TypeError
  end.

(** * [openai_integration.py] *)

Module VCMatcher.

(** The matcher object: the client of the reasoning service, the model name
    and the tokenizer. *)
Record matcher : Type := {
  client : string -> result string;
  model : string;
  encoding : option (string -> list Z)
}.

Definition sector_keywords : list (string * list string) :=
  [ ("fintech", ["fintech"; "financial"; "banking"; "payment"; "insurance"]);
    ("enterprise saas", ["enterprise"; "saas"; "software"; "b2b"]);
    ("health tech", ["health"; "medical"; "biotech"; "healthcare"]);
    ("ai/ml", ["ai"; "artificial intelligence"; "machine learning"; "ml"]);
    ("ecommerce", ["ecommerce"; "e-commerce"; "retail"; "consumer"]);
    ("edtech", ["education"; "learning"; "edtech"]);
    ("climate tech", ["climate"; "clean"; "sustainability"; "green"]) ].

Definition stage_keywords : list (string * list string) :=
  [ ("pre-seed", ["pre-seed"; "pre seed"; "idea"; "concept"]);
    ("seed", ["seed"; "early"; "prototype"]);
    ("series a", ["series a"; "growth"; "revenue"]);
    ("series b", ["series b"; "scale"; "expansion"]) ].

(** The tags of a table with a keyword in the description. *)
Definition matched_tags (table : list (string * list string))
  (description_lower : string) : list string :=
  fold_left
    (fun matched entry =>
       let '(tag, keywords) := entry in
       if existsb (contains description_lower) keywords
       then matched ++ [tag] else matched)
    table [].

(** [str.split()]: the maximal runs of characters that are not white
    space. *)
Definition is_space (c : ascii) : bool :=
  let n := nat_of_ascii c in
  ((Nat.leb 9 n && Nat.leb n 13) || (Nat.leb 28 n && Nat.leb n 32)
   || Nat.eqb n 133 || Nat.eqb n 160)%bool.

Fixpoint split_from (word : string) (s : string) : list string :=
  let flush := match word with EmptyString => [] | _ => [word] end in
  match s with
  | EmptyString => flush
  | String c rest =>
      if is_space c then flush ++ split_from EmptyString rest
      else split_from (word +++ String c EmptyString) rest
  end.

Definition split (s : string) : list string := split_from EmptyString s.

(** The score and the reasons one table adds:
[[
if vc.get(field) and matched:
    for tag in matched:
        if any(x.lower() == tag.lower() for x in vc[field]):
            score += points
            match_reasons.append(f"{label} match: {tag}")
]] *)
Definition score_tags (vc : dict) (field label : string) (points : Z)
  (matched : list string) (acc : Z * list string) : result (Z * list string) :=
  let focus := dict_get vc field VNone in
  if (truthy focus && match matched with [] => false | _ => true end)%bool then
    for_each
      (fun acc tag =>
         let '(score, match_reasons) := acc in
         items <- py_iter focus ;;
         hit <- py_any
                  (fun x => xl <- value_lower x ;; Ok (String.eqb xl (lower tag)))
                  items ;;
         Ok (if hit
             then (score + points,
                   match_reasons ++ [label +++ " match: " +++ tag])
             else acc))
      matched acc
  else Ok acc.

Definition caution_text : string :=
  "This match was generated by a simplified algorithm due to API limitations.".

(** The body of the loop over the profiles: the new state of [matches]. *)
Definition score_vc (description_lower : string)
  (matched_sectors matched_stages : list string)
  (lead_preference : option string)
  (matches : list dict) (vc : dict) : result (list dict) :=
  acc <- score_tags vc "Sector Focus" "Sector" 30 matched_sectors (0, []) ;;
  acc <- score_tags vc "Preferred Deal Stage" "Stage" 20 matched_stages acc ;;
  let '(score, match_reasons) := acc in
  let lead_follow := dict_get vc "Lead/Follow" VNone in
  let '(score, match_reasons) :=
    match lead_preference with
    | Some preference =>
        if (truthy lead_follow
            && (eq_str lead_follow preference || eq_str lead_follow "Both"))%bool
        then (score + 10,
              match_reasons ++ ["Lead/Follow match: " +++ preference])
        else (score, match_reasons)
    | None => (score, match_reasons)
    end in
  let thesis := dict_get vc "Investment Thesis" VNone in
  thesis_hit <-
    (if truthy thesis
     then py_any
            (fun keyword =>
               thesis_lower <- value_lower thesis ;;
               Ok (contains thesis_lower keyword))
            (filter (fun keyword => (4 <? String.length keyword)%nat)
               (split description_lower))
     else Ok false) ;;
  let '(score, match_reasons) :=
    if thesis_hit then (score + 15, match_reasons ++ ["Thesis keywords match"])
    else (score, match_reasons) in
  let score :=
    if eq_str (dict_get vc "Status" VNone) "Active" then score + 5 else score in
  Ok (if 0 <? score
      then matches ++
           [dict_extend vc
              [ ("match_score", VInt (Z.min score 100));
                ("match_reason", VStr (join "; " match_reasons));
                ("caution", VStr caution_text) ]]
      else matches).

(** [x['match_score']] of a record built by [score_vc] *)
Definition match_score (x : dict) : Z :=
  match assoc_get x "match_score" with
  | Some (VInt n) => n
  | _ => 0
  end.

Definition _fallback_matching (self : matcher) (startup_description : string)
  (vc_data : list dict) (num_matches : Z) : result (list dict) :=
  let description_lower := lower startup_description in
  let matched_sectors := matched_tags sector_keywords description_lower in
  let matched_stages := matched_tags stage_keywords description_lower in
  let lead_preference :=
    if existsb (contains description_lower) ["lead investor"; "lead round"]
    then Some "Lead"
    else if existsb (contains description_lower) ["follow-on"; "follow on"]
    then Some "Follow"
    else None in
  matches <-
    for_each
      (score_vc description_lower matched_sectors matched_stages lead_preference)
      vc_data [] ;;
  Ok (slice_to num_matches (sorted_desc match_score matches)).

(** ** The context of the prompt *)

(** [vc.get(field) and len(vc.get(field, [])) > 0] *)
Definition listed (vc : dict) (field : string) : result bool :=
  if truthy (dict_get vc field VNone) then
    n <- py_len (dict_get vc field (VList [])) ;;
    Ok (0 <? n)%nat
  else Ok false.

Definition completeness_score (vc : dict) : result Z :=
  let score := 0 in
  let score :=
    score + (if truthy (dict_get vc "Investment Thesis" VNone) then 3 else 0) in
  sectors <- listed vc "Sector Focus" ;;
  let score := score + (if sectors then 2 else 0) in
  stages <- listed vc "Preferred Deal Stage" ;;
  let score := score + (if stages then 2 else 0) in
  let score :=
    score + (if truthy (dict_get vc "Check Range" VNone) then 1 else 0) in
  let score := score + (if truthy (dict_get vc "About" VNone) then 1 else 0) in
  n <- py_len (dict_get vc "Portfolio" (VList [])) ;;
  Ok (score + (if (0 <? n)%nat then 1 else 0)).

(** [sorted(vc_data, key=completeness_score, reverse=True)]: the keys are
    computed first, one per profile in order. *)
Definition sorted_by_completeness (vc_data : list dict) : result (list dict) :=
  keys <- map_result completeness_score vc_data ;;
  Ok (map snd (sorted_desc fst (combine keys vc_data))).

(** One optional line of a summary: [f"{label}: {vc[field]}\n"] when the
    field is truthy. *)
Definition text_line (vc : dict) (field label : string) (vc_summary : string)
  : string :=
  let v := dict_get vc field VNone in
  if truthy v then vc_summary +++ label +++ ": " +++ py_str v +++ nl
  else vc_summary.

(** One optional line of a summary: [f"{label}: {', '.join(vc[field])}\n"]
    when the field is listed. *)
Definition joined_line (vc : dict) (field label : string) (vc_summary : string)
  : result string :=
  has <- listed vc field ;;
  if has then
    items <- py_iter (dict_get vc field VNone) ;;
    joined <- join_values ", " items ;;
    Ok (vc_summary +++ label +++ ": " +++ joined +++ nl)
  else Ok vc_summary.

Definition summary_of (vc : dict) : result string :=
  let vc_summary :=
    "Investor: " +++ py_str (dict_get vc "Name" (VStr "Unknown")) +++ nl
    +++ "Website: " +++ py_str (dict_get vc "Website" (VStr "")) +++ nl in
  vc_summary <- joined_line vc "Sector Focus" "Sectors" vc_summary ;;
  vc_summary <- joined_line vc "Preferred Deal Stage" "Stages" vc_summary ;;
  let vc_summary := text_line vc "Check Range" "Check Size" vc_summary in
  let vc_summary := text_line vc "Geo Focus" "Geography" vc_summary in
  let vc_summary := text_line vc "Lead/Follow" "Lead/Follow" vc_summary in
  let vc_summary := text_line vc "Investment Thesis" "Thesis" vc_summary in
  let about := dict_get vc "About" VNone in
  vc_summary <-
    (if truthy about then
       shown <- slice_value 200 about ;;
       Ok (vc_summary +++ "About: " +++ py_str shown +++ "..." +++ nl)
     else Ok vc_summary) ;;
  n <- py_len (dict_get vc "Portfolio" (VList [])) ;;
  vc_summary <-
    (if (0 <? n)%nat then
       portfolio_sample <- slice_value 3 (dict_get vc "Portfolio" (VList [])) ;;
       items <- py_iter portfolio_sample ;;
       names <- map_result (fun p => value_get p "name" (VStr "Unknown")) items ;;
       portfolio_str <- join_values ", " names ;;
       Ok (vc_summary +++ "Portfolio Examples: " +++ portfolio_str +++ nl)
     else Ok vc_summary) ;;
  Ok (vc_summary
      +++ "Status: " +++ py_str (dict_get vc "Status" (VStr "Unknown")) +++ nl +++ nl).

(** [len(self.encoding.encode(text))]; without a tokenizer the attribute
    lookup on [None] raises. *)
Definition _count_tokens (self : matcher) (text : string) : result Z :=
  match encoding self with
  | Some encode => Ok (Z.of_nat (List.length (encode text)))
  | None => Raise AttributeError
  end.

(** The loop over the sorted profiles, left at the first summary that would
    exceed the limit. *)
Fixpoint context_loop (self : matcher) (max_tokens : Z) (sorted_vcs : list dict)
  (context_parts : list string) (current_tokens : Z) : result (list string) :=
  match sorted_vcs with
  | [] => Ok context_parts
  | vc :: rest =>
      vc_summary <- summary_of vc ;;
      tokens_to_add <- _count_tokens self vc_summary ;;
      if max_tokens <? current_tokens + tokens_to_add then Ok context_parts
      else context_loop self max_tokens rest (context_parts ++ [vc_summary])
             (current_tokens + tokens_to_add)
  end.

Definition _create_vc_context (self : matcher) (vc_data : list dict)
  (max_tokens : Z) : result string :=
  sorted_vcs <- sorted_by_completeness vc_data ;;
  context_parts <- context_loop self max_tokens sorted_vcs [] 0 ;;
  Ok (join "" context_parts).

(** ** Matching through the reasoning service *)

(** [any(s.lower() == wanted.lower() for s in items)] *)
Definition any_equal_lower (items wanted : value) : result bool :=
  items <- py_iter items ;;
  py_any
    (fun s => sl <- value_lower s ;; wl <- value_lower wanted ;;
              Ok (String.eqb sl wl))
    items.

(** One filter of the explicit criteria, applied when the criterion is
    truthy. *)
Definition filter_when (wanted : value) (keep : dict -> result bool)
  (filtered_vcs : list dict) : result (list dict) :=
  if truthy wanted then filter_result keep filtered_vcs else Ok filtered_vcs.

Definition filter_by_criteria (match_criteria : option dict)
  (vc_data : list dict) : result (list dict) :=
  let filtered_vcs := vc_data in
  match match_criteria with
  | Some ((_ :: _) as match_criteria) =>
      let sector := dict_get match_criteria "sector" VNone in
      filtered_vcs <-
        filter_when sector
          (fun vc =>
             if truthy (dict_get vc "Sector Focus" VNone)
             then any_equal_lower (dict_get vc "Sector Focus" (VList [])) sector
             else Ok false)
          filtered_vcs ;;
      let stage := dict_get match_criteria "stage" VNone in
      filtered_vcs <-
        filter_when stage
          (fun vc =>
             if truthy (dict_get vc "Preferred Deal Stage" VNone)
             then any_equal_lower
                    (dict_get vc "Preferred Deal Stage" (VList [])) stage
             else Ok false)
          filtered_vcs ;;
      let geography := dict_get match_criteria "geography" VNone in
      filtered_vcs <-
        filter_when geography
          (fun vc =>
             let geo_focus := dict_get vc "Geo Focus" VNone in
             if truthy geo_focus then
               wanted <- value_lower geography ;;
               geo_lower <- value_lower geo_focus ;;
               Ok (contains geo_lower wanted)
             else Ok false)
          filtered_vcs ;;
      let lead_follow := dict_get match_criteria "lead_follow" VNone in
      filter_when lead_follow
        (fun vc =>
           let vc_lead := dict_get vc "Lead/Follow" VNone in
           if truthy vc_lead then
             vc_lower <- value_lower vc_lead ;;
             wanted <- value_lower lead_follow ;;
             Ok (String.eqb vc_lower wanted || eq_str vc_lead "Both")%bool
           else Ok false)
        filtered_vcs
  | _ => Ok filtered_vcs
  end.

(** The prompt of [match_startup_to_vcs]. *)
Definition match_prompt (num_matches : Z) (startup_description vc_context : string)
  : string :=
  nl
  +++ "        You are a VC matching expert. Based on the startup description, find the "
    +++ Z_to_string num_matches +++ " most suitable " +++ nl
  +++ "        investors from the list below. Consider sector match, stage, check size, and thesis alignment."
    +++ nl
  +++ "        " +++ nl
  +++ "        Startup description: " +++ startup_description +++ nl
  +++ "        " +++ nl
  +++ "        Available investors:" +++ nl
  +++ "        " +++ vc_context +++ nl
  +++ "        " +++ nl
  +++ "        Return a JSON array of objects with:" +++ nl
  +++ "        1. " +++ dq +++ "name" +++ dq +++ ": The exact name of the VC"
    +++ nl
  +++ "        2. " +++ dq +++ "match_score" +++ dq
    +++ ": A number from 1-100 indicating how good a match this is" +++ nl
  +++ "        3. " +++ dq +++ "match_reason" +++ dq
    +++ ": A short explanation of why this VC is a good match" +++ nl
  +++ "        4. " +++ dq +++ "caution" +++ dq
    +++ ": Optional caution if there's any potential issue with the match"
    +++ nl
  +++ "        " +++ nl
  +++ "        The JSON should be formatted as:" +++ nl
  +++ "        [" +++ nl
  +++ "            {" +++ dq +++ "name" +++ dq +++ ": " +++ dq +++ "VC Name"
    +++ dq +++ ", " +++ dq +++ "match_score" +++ dq +++ ": 95, " +++ dq
    +++ "match_reason" +++ dq +++ ": " +++ dq +++ "Explanation..." +++ dq
    +++ ", " +++ dq +++ "caution" +++ dq +++ ": " +++ dq
    +++ "Optional caution" +++ dq +++ "}" +++ nl
  +++ "        ]" +++ nl
  +++ "        ".

(** [re.search(r'\[.*\]', text, re.DOTALL)]: from the first opening bracket
    to the last closing bracket behind it. *)
Fixpoint to_last_close (s : string) : option string :=
  match s with
  | EmptyString => None
  | String c rest =>
      match to_last_close rest with
      | Some span => Some (String c span)
      | None => if Ascii.eqb c "]" then Some (String c EmptyString) else None
      end
  end.

Fixpoint bracket_span (text : string) : option string :=
  match text with
  | EmptyString => None
  | String c rest =>
      if Ascii.eqb c "["
      then match to_last_close rest with
           | Some span => Some (String c span)
           | None => None
           end
      else bracket_span rest
  end.

(** [[vc for vc in vc_data if vc.get('Name') == vc_name]], over whatever
    [vc_data] is bound to. *)
Definition named_like (vc_data vc_name : value) : result (list value) :=
  items <- py_iter vc_data ;;
  filter_result
    (fun vc => name <- value_get vc "Name" VNone ;; Ok (value_eqb name vc_name))
    items.

(** The body of the loop over the parsed matches.  The loop assigns the
    copy of the profile it found to [vc_data], the name of the profile list,
    so the binding of [vc_data] is part of the loop state. *)
Definition add_match (state : value * list dict) (match_ : value)
  : result (value * list dict) :=
  let '(vc_data, result) := state in
  vc_name <- value_get match_ "name" VNone ;;
  matching_vcs <- named_like vc_data vc_name ;;
  match matching_vcs with
  | [] => Ok (vc_data, result)
  | first :: _ =>
      match first with
      | VDict first =>
          let vc_data := first in
          match_score <- value_get match_ "match_score" VNone ;;
          let vc_data := assoc_set vc_data "match_score" match_score in
          match_reason <- value_get match_ "match_reason" VNone ;;
          let vc_data := assoc_set vc_data "match_reason" match_reason in
          caution <- value_get match_ "caution" (VStr "") ;;
          let vc_data := assoc_set vc_data "caution" caution in
          Ok (VDict vc_data, result ++ [vc_data])
      | _ => Raise AttributeError
      end
  end.

Section Matching.
(** [json.loads]: the parsed value, or [None] when the text is not JSON. *)
Variable json_loads : string -> option value.

(** The [try] block up to its [return result]: the matches of the service,
    or [None] when the answer holds no JSON array. *)
Definition service_matches (self : matcher) (prompt : string)
  (vc_data : list dict) : result (option (list dict)) :=
  result_text <- client self prompt ;;
  match bracket_span result_text with
  | Some json_str =>
      match json_loads json_str with
      | Some matches =>
          matches <- py_iter matches ;;
          final <- for_each add_match matches (VList (map VDict vc_data), []) ;;
          Ok (Some (snd final))
      | None => Ok None
      end
  | None => Ok None
  end.

(** Every way out of the [try] block other than [return result] ends in the
    same call of the fallback. *)
Definition match_startup_to_vcs (self : matcher) (startup_description : string)
  (vc_data : list dict) (num_matches : Z) (match_criteria : option dict)
  : result (list dict) :=
  filtered_vcs <- filter_by_criteria match_criteria vc_data ;;
  let filtered_vcs :=
    filter (fun vc => eq_str (dict_get vc "Status" VNone) "Active") filtered_vcs in
  vc_context <- _create_vc_context self filtered_vcs 3500 ;;
  match filtered_vcs with
  | [] => Ok []
  | _ :: _ =>
      let prompt := match_prompt num_matches startup_description vc_context in
      match service_matches self prompt vc_data with
      | Ok (Some result) => Ok result
      | Ok None | Raise _ =>
          _fallback_matching self startup_description filtered_vcs num_matches
      end
  end.

End Matching.

End VCMatcher.

(** * Vocabulary of the statements *)

Module Spec.

(** The amount of a deal as the check-size loops read it. *)
Definition amount (deal : dict) : value := dict_get deal "amount" (VInt 0).

(** A deal of the data model: its amount is a number, or is empty. *)
Definition numeric_amount (deal : dict) : bool :=
  match as_number (amount deal) with
  | Some _ => true
  | None => negb (truthy (amount deal))
  end.

(** The positive amounts of a deal list, in the order of the deals. *)
Definition positive_amounts (deals : list dict) : list Z :=
  flat_map
    (fun deal =>
       match as_number (amount deal) with
       | Some n => if 0 <? n then [n] else []
       | None => []
       end)
    deals.

(** An exact number rounded to a multiple of 50, ties to the even
    multiple of 100. *)
Definition round_to_50 (x : Q) : Z := py_round (x / 50) * 50.

(** The exact median of a sorted, non-empty list. *)
Definition median_of_sorted (amounts : list Z) : Q :=
  let n := List.length amounts in
  let half := (n / 2)%nat in
  if Nat.even n
  then
    let two_middle := nth (half - 1) amounts 0 + nth half amounts 0 in
    (inject_Z two_middle / 2)%Q
  else inject_Z (nth half amounts 0).

(** Half the gap between 1 and the next double, [2^-53]: the largest
    relative error of a quotient rounded to the nearest double. *)
Definition unit_roundoff : Q := 1 # 9007199254740992.

(** Amounts for which the doubles of the sweet spot carry the exact
    quotients to the same integer: every positive amount is below
    [10^15]. *)
Definition below_limit (deals : list dict) : bool :=
  forallb (fun a => a <? 10 ^ 15) (positive_amounts deals).

(** Amounts whose quotients a double holds: every positive amount is below
    [2^1023], so no division of the check sizes raises [OverflowError]. *)
Definition within_double (deals : list dict) : bool :=
  forallb (fun a => a <? 2 ^ 1023) (positive_amounts deals).



(** The deals whose [is_lead] is true. *)
Definition lead_deals (deals : list dict) : list dict :=
  filter (fun deal => truthy (dict_get deal "is_lead" (VBool false))) deals.

(** The share of lead deals among all deals. *)
Definition lead_ratio (deals : list dict) : Q :=
  (inject_Z (Z.of_nat (List.length (lead_deals deals)))
   / inject_Z (Z.of_nat (List.length deals)))%Q.

(** The name of a company record is text, or the record has no name. *)
Definition text_name (record : dict) : bool :=
  match dict_get record "name" (VStr "") with
  | VStr _ => true
  | _ => false
  end.

(** The lower-cased name of a record, empty when it has none. *)
Definition name_of (record : dict) : string :=
  match VCDataEnricher.company_key record with
  | Ok k => k
  | Raise _ => ""
  end.

(** The record a list holds for a lower-cased name.  When several records
    carry the name it is the last of them: in the mapping a later record
    takes the place of an earlier one. *)
Fixpoint record_for (records : list dict) (name : string) : option dict :=
  match records with
  | [] => None
  | r :: rest =>
      match record_for rest name with
      | Some r' => Some r'
      | None => if String.eqb (name_of r) name then Some r else None
      end
  end.

(** A field that is falsy in a record, or missing from it. *)
Definition falsy_or_missing (record : dict) (field : string) : Prop :=
  match assoc_get record field with
  | None => True
  | Some v => truthy v = false
  end.

(** The mapping built by the merge: distinct keys, each the lower-cased
    name of its record, none empty. *)
Definition keyed (merged : list (string * dict)) : Prop :=
  NoDup (map fst merged) /\
  forall k r, In (k, r) merged -> VCDataEnricher.company_key r = Ok k /\ k <> "".

(** [m] is the record [a] with gaps filled from the records of [B] named
    [k]: the truthy fields of [a] stand, and a field that differs from
    [a]'s was falsy or missing in [a] and holds a truthy value of such a
    record of [B]. *)
Definition gaps_filled (B : list dict) (k : string) (a m : dict) : Prop :=
  (forall F v,
      assoc_get a F = Some v -> truthy v = true -> assoc_get m F = Some v)
  /\ (forall F,
         assoc_get m F <> assoc_get a F ->
         falsy_or_missing a F /\
         exists b v,
           In b B /\ name_of b = k /\ In (F, v) b /\ truthy v = true /\
           assoc_get m F = Some v).

(** A value that is text, or is falsy (absent, [None], empty). *)
Definition text_or_empty (v : value) : bool :=
  match v with
  | VStr _ => true
  | _ => negb (truthy v)
  end.

(** The text of a value, empty when it is not text. *)
Definition text_of (v : value) : string :=
  match v with
  | VStr s => s
  | _ => ""
  end.

(** The description of a source info record. *)
Definition description_of (info : dict) : value :=
  dict_get info "description" (VStr "").

(** The description the thesis is derived from: the first source's when it
    is not empty, the second source's otherwise. *)
Definition chosen_description (cb_info pb_info : dict) : string :=
  let cb_desc := text_of (description_of cb_info) in
  if String.eqb cb_desc "" then text_of (description_of pb_info) else cb_desc.

(** The names shown as portfolio samples: of a portfolio of at least three
    companies, the non-empty names among the first three. *)
Definition sample_names (portfolio : list dict) : list string :=
  if (3 <=? List.length portfolio)%nat
  then filter (fun n => negb (String.eqb n ""))
         (map (fun c => text_of (dict_get c "name" VNone)) (firstn 3 portfolio))
  else [].

(** The synthesized thesis. *)
Definition pattern_thesis (sectors stages : list string)
  (portfolio : list dict) : string :=
  "Pattern: "
  +++ match firstn 3 sectors, stages with
      | [], [] =>
          "General investment approach across various sectors and stages."
      | [], _ => "Focuses on " +++ join ", " stages +++ " stage investments."
      | top, [] => "Invests in " +++ join ", " top +++ "."
      | top, _ =>
          "Invests in " +++ join ", " top +++ " at " +++ join ", " stages
            +++ " stages."
      end
  +++ match sample_names portfolio with
      | [] => ""
      | names => " Portfolio includes " +++ join ", " names +++ "."
      end.

(** The values the code collects as samples. *)
Definition samples_of (cs : list dict) : list value :=
  map (fun c => dict_get c "name" (VStr ""))
    (filter (fun c => truthy (dict_get c "name" VNone)) cs).



(** The name of a firm record as the enrichment reads it. *)
Definition firm_name (vc : dict) : value := dict_get vc "Name" (VStr "").

(** A provider that cannot be reached: every call raises. *)
Definition offline : VCDataEnricher.Provider unit :=
  {| VCDataEnricher.get_vc_info := fun _ w => (Raise (ProviderError "offline"), w);
     VCDataEnricher.get_portfolio := fun _ w => (Raise (ProviderError "offline"), w);
     VCDataEnricher.get_deals := fun _ w => (Raise (ProviderError "offline"), w) |}.


(** The sectors of the vocabulary with a keyword in the text, in vocabulary
    order. *)
Definition flagged_sectors (text : string) : list string :=
  map fst
    (filter (fun entry => existsb (contains (lower text)) (snd entry))
       VCWebScraper.sector_keywords).

(** The occurrences of the keywords of a list in a text, summed. *)
Definition occurrences (text_lower : string) (keywords : list string) : Z :=
  fold_right (fun keyword total => Z.of_nat (str_count text_lower keyword) + total)
    0 keywords.

(** The keyword-occurrence count of a sector in a text. *)
Definition sector_score (text : string) (sector : string) : Z :=
  match assoc_get VCWebScraper.sector_keywords sector with
  | Some keywords => occurrences (lower text) keywords
  | None => 0
  end.

(** A list of numbers in descending order. *)
Definition descending (l : list Z) : Prop :=
  StronglySorted (fun a b => b <= a) l.

(** No string occurs twice in a list. *)
Fixpoint distinct (l : list string) : bool :=
  match l with
  | [] => true
  | x :: rest => negb (existsb (String.eqb x) rest) && distinct rest
  end.

(** ** Vocabulary of the further properties *)

(** How often a tag occurs in a list of tags. *)
Definition tag_count (tags : list string) (t : string) : Z :=
  Z.of_nat (count_occ string_dec tags t).

(** An object a [for] loop can run over. *)
Definition iterable (v : value) : bool :=
  match py_iter v with
  | Ok _ => true
  | Raise _ => false
  end.

(** The non-empty text items of an iterable object, in order. *)
Definition text_items (v : value) : list string :=
  match py_iter v with
  | Ok items =>
      flat_map
        (fun x => match x with
                  | VStr s => if String.eqb s "" then [] else [s]
                  | _ => []
                  end)
        items
  | Raise _ => []
  end.

(** The categories of a company record. *)
Definition categories_of (company : dict) : value :=
  dict_get company "categories" (VList []).

(** All category tags of a portfolio, company after company. *)
Definition category_tags (portfolio : list dict) : list string :=
  flat_map (fun company => text_items (categories_of company)) portfolio.

(** The stage of a deal record. *)
Definition stage_of (deal : dict) : value := dict_get deal "stage" (VStr "").

(** The normalized stages of a deal list, deal after deal; a deal whose
    stage is empty or maps to no stage contributes none. *)
Definition stage_tags (deals : list dict) : list string :=
  flat_map
    (fun deal =>
       match VCDataEnricher._normalize_stage (stage_of deal) with
       | Ok n => if String.eqb n "" then [] else [n]
       | Raise _ => []
       end)
    deals.

(** The names a stage can normalize to. *)
Definition stage_names : list string :=
  ["Pre-seed"; "Seed"; "Series A"; "Series B"; "Series C+"; "Seed+"].

(** The count a tally holds for a tag, 0 when it has none. *)
Definition held (counts : list (string * Z)) (t : string) : Z :=
  match assoc_get counts t with Some c => c | None => 0 end.

(** The identity key of a deal, empty when the key cannot be formed. *)
Definition deal_id (deal : dict) : string :=
  match VCDataEnricher.deal_key deal with
  | Ok k => k
  | Raise _ => ""
  end.

(** The company and the stage of a deal record are text, or the record has
    none. *)
Definition deal_text (deal : dict) : bool :=
  match dict_get deal "company" (VStr ""), dict_get deal "stage" (VStr "") with
  | VStr _, VStr _ => true
  | _, _ => false
  end.

(** The distinct non-empty strings of a list. *)
Definition distinct_nonempty (keys : list string) : list string :=
  nodup string_dec (filter (fun k => negb (String.eqb k "")) keys).

(** The distinct strings of a list in the order of their first occurrence:
    the order in which a Python dict holds the keys written to it. *)
Fixpoint first_occurrences (keys : list string) : list string :=
  match keys with
  | [] => []
  | k :: rest =>
      k :: filter (fun k' => negb (String.eqb k' k)) (first_occurrences rest)
  end.

(** The non-empty identity keys of a record list, each once, in the order
    of their first record. *)
Definition merged_keys (id : dict -> string) (records : list dict)
  : list string :=
  first_occurrences (filter (fun k => negb (String.eqb k "")) (map id records)).

(** The records of a list with the identity key [k], in the order of the
    list. *)
Definition records_of (id : dict -> string) (records : list dict)
  (k : string) : list dict :=
  filter (fun r => String.eqb (id r) k) records.

(** The last record of a list with the identity key [k]. *)
Fixpoint last_with (id : dict -> string) (records : list dict) (k : string)
  : option dict :=
  match records with
  | [] => None
  | r :: rest =>
      match last_with id rest k with
      | Some r' => Some r'
      | None => if String.eqb (id r) k then Some r else None
      end
  end.

(** The record that stands for the key [k] after a merge of [A] and [B]:
    the last record of [A] with that key, with its gaps filled from the
    records of [B] with that key one after the other; without a record in
    [A], the first such record of [B], filled from the later ones. *)
Definition merged_record (id : dict -> string) (A B : list dict)
  (k : string) : option dict :=
  match last_with id A k with
  | Some a => Some (fold_left VCDataEnricher.fill_gaps (records_of id B k) a)
  | None =>
      match records_of id B k with
      | b :: bs => Some (fold_left VCDataEnricher.fill_gaps bs b)
      | [] => None
      end
  end.

(** A record with no field name twice, as every Python dict is. *)
Definition well_formed (record : dict) : bool := distinct (map fst record).

(** Every truthy field of [b] is truthy in [m]. *)
Definition covers (m b : dict) : Prop :=
  forall F v,
    In (F, v) b -> truthy v = true ->
    exists v', assoc_get m F = Some v' /\ truthy v' = true.

(** The cache holds [x] for the key [k] in the slot [read]. *)
Definition cached {X : Type}
  (read : VCDataEnricher.Cache -> list (VCDataEnricher.key * X))
  (k : value) (x : X) (c : VCDataEnricher.Cache) : Prop :=
  exists hk, VCDataEnricher.hash_key k = Ok hk
             /\ VCDataEnricher.memo_get (read c) hk = Some x.

(** ** Vocabulary of the mock-provider properties *)

(** The information the Crunchbase mock gives for every name. *)
Definition crunchbase_answer : dict :=
  [ ("uuid", VStr "mock-uuid");
    ("name", VStr "Mock Ventures");
    ("description",
     VStr "A leading venture capital firm investing in technology startups.");
    ("website", VStr "mockventures.com");
    ("founded", VStr "2010-01-01");
    ("location", VStr "San Francisco, CA");
    ("categories", VList [VStr "Venture Capital"; VStr "Finance"]) ].

(** The information the PitchBook mock gives for every name. *)
Definition pitchbook_answer : dict :=
  [ ("uuid", VStr "mock-pb-id");
    ("name", VStr "PB Ventures");
    ("description",
     VStr "A venture capital firm with a focus on enterprise technology and fintech.");
    ("website", VStr "pbventures.com");
    ("founded", VStr "2012");
    ("location", VStr "New York, NY");
    ("categories",
     VList [ VStr "Enterprise Software"; VStr "Financial Technology";
             VStr "Data & Analytics" ]);
    ("investment_stages", VList [VStr "Early Stage"; VStr "Late Stage"]);
    ("aum", VInt 250000000);
    ("status", VStr "Active") ].

(** The derived fields every firm gets from the mock providers. *)
Definition mock_profile : dict :=
  [ ("About",
     VStr "A leading venture capital firm investing in technology startups.");
    ("Investment Thesis",
     VStr "Thesis: A leading venture capital firm investing in technology startups.");
    ("Sector Focus", VList []);
    ("Preferred Deal Stage", VList []);
    ("Check Range", VStr "Unknown");
    ("Check Sweet Spot", VStr "Unknown");
    ("Geo Focus", VStr "Silicon Valley");
    ("Status", VStr "Unknown");
    ("Lead/Follow", VStr "Unknown");
    ("Portfolio", VList []);
    ("Deals", VList []) ].

(** A name that can be a dict key. *)
Definition hashable (v : value) : bool :=
  match VCDataEnricher.hash_key v with
  | Ok _ => true
  | Raise _ => false
  end.

(** What the enricher built with the mock providers makes of a firm
    record. *)
Definition enriched_with_mocks (vc : dict) : dict :=
  if negb (truthy (firm_name vc)) then vc
  else if hashable (firm_name vc) then dict_extend vc mock_profile
  else dict_extend vc VCDataEnricher.default_fields.

(** The caches the enricher reaches with the mock providers: every entry
    holds a mock answer, and the portfolio and deal slots are keyed by the
    ids of the mock answers. *)
Definition mock_cache (c : VCDataEnricher.Cache) : Prop :=
  Forall (fun e => snd e = crunchbase_answer) (VCDataEnricher.cb_info c) /\
  Forall (fun e => snd e = pitchbook_answer) (VCDataEnricher.pb_info c) /\
  Forall (fun e => e = (VCDataEnricher.KStr "mock-uuid", []))
    (VCDataEnricher.cb_portfolio c) /\
  Forall (fun e => e = (VCDataEnricher.KStr "mock-uuid", []))
    (VCDataEnricher.cb_deals c) /\
  Forall (fun e => e = (VCDataEnricher.KStr "mock-pb-id", []))
    (VCDataEnricher.pb_portfolio c) /\
  Forall (fun e => e = (VCDataEnricher.KStr "mock-pb-id", []))
    (VCDataEnricher.pb_deals c).

(** The portfolio and deal slots of a cache that are still empty. *)
Definition unfilled {X : Type} (slot : list X) : nat :=
  match slot with [] => 1 | _ :: _ => 0 end.

Definition pending (c : VCDataEnricher.Cache) : nat :=
  unfilled (VCDataEnricher.cb_portfolio c) + unfilled (VCDataEnricher.cb_deals c)
  + unfilled (VCDataEnricher.pb_portfolio c) + unfilled (VCDataEnricher.pb_deals c).

(** The firms of a list that have a name. *)
Definition named (vcs : list dict) : list dict :=
  filter (fun vc => truthy (firm_name vc)) vcs.

(** ** Vocabulary of the matcher properties *)

(** A profile whose status is the text "Active". *)
Definition active (vc : dict) : bool :=
  eq_str (dict_get vc "Status" VNone) "Active".

(** [m] is the profile [vc] with the three fields of a fallback match, the
    score between 1 and 100. *)
Definition scored_from (vc m : dict) : Prop :=
  exists score reason,
    1 <= score <= 100 /\
    m = dict_extend vc
          [ ("match_score", VInt score);
            ("match_reason", VStr reason);
            ("caution", VStr VCMatcher.caution_text) ].

(** The tokens the matcher counts for a text. *)
Definition tokens (self : VCMatcher.matcher) (text : string) : Z :=
  match VCMatcher._count_tokens self text with
  | Ok n => n
  | Raise _ => 0
  end.

(** The tokens of the parts of a context, summed. *)
Definition total_tokens (self : VCMatcher.matcher) (parts : list string) : Z :=
  fold_right (fun part total => tokens self part + total) 0 parts.

(** The profiles that pass the explicit criteria and are active. *)
Definition candidates (match_criteria : option dict) (vc_data : list dict)
  : result (list dict) :=
  match VCMatcher.filter_by_criteria match_criteria vc_data with
  | Ok filtered => Ok (filter active filtered)
  | Raise e => Raise e
  end.

(** ** Vocabulary of the scraper properties *)

(** The stage names of the scraper, in the order of its table. *)
Definition scraper_stage_names : list string :=
  map fst VCWebScraper.stage_patterns.

(** The region names of the scraper, in the order of its table. *)
Definition scraper_region_names : list string :=
  map fst VCWebScraper.geo_regions.

(** No explicit criterion is set: there is no criteria dict, or each of its
    four entries is falsy or missing. *)
Definition no_criteria (match_criteria : option dict) : bool :=
  match match_criteria with
  | None => true
  | Some criteria =>
      forallb (fun k => negb (truthy (dict_get criteria k VNone)))
        ["sector"; "stage"; "geography"; "lead_follow"]
  end.

End Spec.

(** * Lemmas on the Python layer *)

Lemma bind_ok {A B : Type} (m : result A) (k : A -> result B) (b : B) :
  bind m k = Ok b -> exists a, m = Ok a /\ k a = Ok b.
Proof.
  destruct m as [a | e]; simpl; intros H.
  - exists a; split; [reflexivity | exact H].
  - discriminate.
Qed.

Lemma for_each_app {S X : Type} (body : S -> X -> result S) (xs ys : list X) (s : S) :
  for_each body (xs ++ ys) s = bind (for_each body xs s) (for_each body ys).
Proof.
  revert s; induction xs as [| x xs IH]; intros s; simpl.
  - reflexivity.
  - destruct (body s x) as [s' | e]; simpl; [apply IH | reflexivity].
Qed.

(** ** Rounding *)

(** [round_half_even n d] is within one half of [n / d], and even on a tie. *)
Lemma round_half_even_spec (n d : Z) :
  0 < d ->
  let r := round_half_even n d in
  (2 * n - d < 2 * d * r < 2 * n + d)
  \/ (2 * d * r = 2 * n - d /\ Z.even r = true)
  \/ (2 * d * r = 2 * n + d /\ Z.even r = true).
Proof.
  intros Hd r; subst r; unfold round_half_even.
  pose proof (Z.div_mod n d ltac:(lia)) as Hdm.
  pose proof (Z.mod_pos_bound n d Hd) as Hb.
  set (f := n / d) in *; set (m := n mod d) in *.
  assert (Hf1 : 2 * d * (f + 1) = 2 * (d * f) + 2 * d) by ring.
  assert (Hf0 : 2 * d * f = 2 * (d * f)) by ring.
  destruct (Z.ltb_spec (2 * m) d) as [H1 | H1].
  - left; rewrite Hf0; lia.
  - destruct (Z.ltb_spec d (2 * m)) as [H2 | H2].
    + left; rewrite Hf1; lia.
    + assert (2 * m = d) by lia.
      destruct (Z.even f) eqn:Hev.
      * right; left; split; [rewrite Hf0; lia | exact Hev].
      * right; right; split; [rewrite Hf1; lia |].
        rewrite Z.even_add, Hev; reflexivity.
Qed.

Lemma round_half_even_mono (n1 d1 n2 d2 : Z) :
  0 < d1 -> 0 < d2 -> n1 * d2 <= n2 * d1 ->
  round_half_even n1 d1 <= round_half_even n2 d2.
Proof.
  intros H1 H2 Hle.
  pose proof (round_half_even_spec n1 d1 H1) as S1.
  pose proof (round_half_even_spec n2 d2 H2) as S2.
  cbv zeta in S1, S2.
  set (r1 := round_half_even n1 d1) in *.
  set (r2 := round_half_even n2 d2) in *.
  destruct (Z.le_gt_cases r1 r2) as [Hok | Hgt]; [exact Hok | exfalso].
  assert (Hup : 2 * d1 * r1 <= 2 * n1 + d1) by lia.
  assert (Hlo : 2 * n2 - d2 <= 2 * d2 * r2) by lia.
  assert (Hstep : r2 + 1 <= r1) by lia.
  assert (E1 : 2 * d1 * d2 * r1 <= 2 * n1 * d2 + d1 * d2) by nia.
  assert (E2 : 2 * n2 * d1 - d1 * d2 <= 2 * d1 * d2 * r2) by nia.
  assert (E3 : 2 * d1 * d2 * (r2 + 1) <= 2 * d1 * d2 * r1) by nia.
  assert (Heq : r1 = r2 + 1) by nia.
  assert (T1 : 2 * d1 * r1 = 2 * n1 + d1) by nia.
  assert (T2 : 2 * d2 * r2 = 2 * n2 - d2) by nia.
  assert (Ev1 : Z.even r1 = true) by (destruct S1 as [? | [[? ?] | [? ?]]]; [lia | lia | assumption]).
  assert (Ev2 : Z.even r2 = true) by (destruct S2 as [? | [[? ?] | [? ?]]]; [lia | assumption | lia]).
  rewrite Heq, Z.even_add, Ev2 in Ev1; discriminate.
Qed.

Lemma py_round_mono (p q : Q) : (p <= q)%Q -> py_round p <= py_round q.
Proof.
  intros H; unfold py_round.
  apply round_half_even_mono; try reflexivity.
  exact H.
Qed.

Lemma py_round_compat (p q : Q) : (p == q)%Q -> py_round p = py_round q.
Proof.
  intros H; apply Z.le_antisymm; apply py_round_mono; rewrite H; apply Qle_refl.
Qed.

Lemma py_round_Z (n : Z) : py_round (inject_Z n) = n.
Proof.
  unfold py_round, round_half_even; simpl.
  rewrite Z.div_1_r, Z.mod_1_r; reflexivity.
Qed.


(** ** Doubles *)

(** The significand of a quotient: how [double_div] scales. *)
Lemma double_div_cases (n d : Z) :
  0 < n -> 0 < d ->
  (exists E, 0 < E /\ 2 ^ 52 * d <= n * 2 ^ E < 2 ^ 53 * d /\
             double_div n d
             = Qmake (round_half_even (n * 2 ^ E) d) (Z.to_pos (2 ^ E)))
  \/ (exists e, 0 <= e /\ 2 ^ 52 * (d * 2 ^ e) <= n < 2 ^ 53 * (d * 2 ^ e) /\
                double_div n d = inject_Z (round_half_even n (d * 2 ^ e) * 2 ^ e)).
Proof.
  intros Hn Hd; unfold double_div.
  destruct (Z.leb_spec n 0) as [H0 | _]; [lia |].
  pose proof (Z.log2_spec n Hn) as [Ln1 Ln2].
  pose proof (Z.log2_spec d Hd) as [Ld1 Ld2].
  pose proof (Z.log2_nonneg n) as Hln.
  pose proof (Z.log2_nonneg d) as Hld.
  set (ln := Z.log2 n) in *; set (ld := Z.log2 d) in *.
  set (e0 := ln - ld - 53).
  (* the bounds at e0 *)
  assert (Hlow0 : forall sn sd,
             (if e0 <? 0 then (n * 2 ^ (- e0), d) else (n, d * 2 ^ e0)) = (sn, sd) ->
             2 ^ 52 * sd <= sn < 2 ^ 54 * sd /\ 0 < sd).
  { intros sn sd; destruct (Z.ltb_spec e0 0) as [Hneg | Hpos]; intros H;
      injection H as <- <-.
    - split; [| exact Hd].
      assert (E : 2 ^ ln * 2 ^ (- e0) = 2 ^ (53 + ld))
        by (rewrite <- Z.pow_add_r by lia; f_equal; lia).
      assert (E2 : 2 ^ (53 + ld) = 2 ^ 52 * 2 ^ (Z.succ ld))
        by (rewrite <- Z.pow_add_r by lia; f_equal; lia).
      assert (E3 : 2 ^ (Z.succ ln) * 2 ^ (- e0) = 2 ^ 54 * 2 ^ ld)
        by (rewrite <- !Z.pow_add_r by lia; f_equal; lia).
      assert (P : 0 < 2 ^ (- e0)) by (apply Z.pow_pos_nonneg; lia).
      split; nia.
    - assert (P : 0 < 2 ^ e0) by (apply Z.pow_pos_nonneg; lia).
      split; [| nia].
      assert (E : 2 ^ 52 * (2 ^ (Z.succ ld) * 2 ^ e0) = 2 ^ ln)
        by (rewrite <- !Z.pow_add_r by lia; f_equal; lia).
      assert (E3 : 2 ^ 54 * (2 ^ ld * 2 ^ e0) = 2 ^ (Z.succ ln))
        by (rewrite <- !Z.pow_add_r by lia; f_equal; lia).
      split; nia. }
  destruct (if e0 <? 0 then (n * 2 ^ (- e0), d) else (n, d * 2 ^ e0))
    as [sn0 sd0] eqn:Hs0.
  destruct (Hlow0 sn0 sd0 eq_refl) as [[Hl0 Hu0] Hsd0].
  destruct (Z.ltb_spec (sn0 / sd0) (2 ^ 53)) as [Hsmall | Hbig].
  - (* e = e0 *)
    assert (Hsmall' : sn0 < 2 ^ 53 * sd0).
    { destruct (Z.lt_ge_cases sn0 (2 ^ 53 * sd0)) as [? | Hge];
        [assumption | exfalso].
      pose proof (Z.div_le_lower_bound sn0 sd0 (2 ^ 53) Hsd0
                    ltac:(rewrite Z.mul_comm; exact Hge)).
      lia. }
    rewrite Hs0.
    destruct (Z.ltb_spec e0 0) as [Hneg | Hpos]; injection Hs0 as <- <-.
    + left; exists (- e0); repeat split; [lia | exact Hl0 | exact Hsmall'].
    + right; exists e0; repeat split; [exact Hpos | exact Hl0 | exact Hsmall'].
  - (* e = e0 + 1 *)
    assert (Hbig' : 2 ^ 53 * sd0 <= sn0).
    { pose proof (Z.mul_div_le sn0 sd0 Hsd0). nia. }
    change (2 ^ 54) with (2 * 2 ^ 53) in Hu0.
    change (2 ^ 53) with (2 * 2 ^ 52) in Hbig'.
    destruct (Z.ltb_spec (e0 + 1) 0) as [Hneg | Hpos].
    + destruct (Z.ltb_spec e0 0) as [_ | ?]; [| lia].
      injection Hs0 as <- <-.
      left; exists (- (e0 + 1)).
      assert (E : 2 ^ (- e0) = 2 * 2 ^ (- (e0 + 1)))
        by (rewrite <- Z.pow_succ_r by lia; f_equal; lia).
      rewrite E in Hbig', Hu0.
      repeat split; lia.
    + right; exists (e0 + 1); split; [exact Hpos |]; split; [| reflexivity].
      destruct (Z.ltb_spec e0 0) as [Hneg0 | Hpos0]; injection Hs0 as <- <-.
      * assert (e0 = -1) by lia; subst e0.
        replace (ln - ld - 53 + 1) with 0 by lia.
        replace (- (ln - ld - 53)) with 1 in Hbig', Hu0 by lia.
        change (2 ^ 1) with 2 in *; change (2 ^ 0) with 1.
        lia.
      * rewrite Z.pow_add_r by lia.
        change (2 ^ 1) with 2. split; nia.
Qed.

Lemma round_half_even_exact (a d : Z) : 0 < d -> round_half_even (a * d) d = a.
Proof.
  intros Hd; unfold round_half_even.
  rewrite Z.div_mul, Z.mod_mul by lia; simpl.
  destruct (Z.ltb_spec 0 d); [reflexivity | lia].
Qed.

(** The double nearest to a quotient is within [2^-53] of it, relatively. *)
Lemma double_div_error (n : Z) (p : positive) :
  0 < n ->
  ((n # p) * (1 - Spec.unit_roundoff) <= double_div n (Zpos p))%Q /\
  (double_div n (Zpos p) <= (n # p) * (1 + Spec.unit_roundoff))%Q.
Proof.
  intros Hn.
  destruct (double_div_cases n (Zpos p) Hn ltac:(lia))
    as [(E & HE & Hlow & ->) | (e & He & Hlow & ->)].
  - assert (P : 0 < 2 ^ E) by (apply Z.pow_pos_nonneg; lia).
    pose proof (round_half_even_spec (n * 2 ^ E) (Zpos p) ltac:(lia)) as S.
    cbv zeta in S.
    set (m := round_half_even (n * 2 ^ E) (Zpos p)) in *.
    set (P2 := 2 ^ E) in *.
    unfold Qle, Qmult, Qminus, Qplus, Qopp, Spec.unit_roundoff; cbn [Qnum Qden].
    rewrite !Pos2Z.inj_mul, Z2Pos.id by exact P.
    change (2 ^ 52) with 4503599627370496 in Hlow.
    split; nia.
  - assert (P : 0 < 2 ^ e) by (apply Z.pow_pos_nonneg; lia).
    pose proof (round_half_even_spec n (Zpos p * 2 ^ e) ltac:(nia)) as S.
    cbv zeta in S.
    set (m := round_half_even n (Zpos p * 2 ^ e)) in *.
    set (P2 := 2 ^ e) in *.
    unfold Qle, Qmult, Qminus, Qplus, Qopp, Spec.unit_roundoff, inject_Z; cbn [Qnum Qden].
    rewrite !Pos2Z.inj_mul.
    change (2 ^ 52) with 4503599627370496 in Hlow.
    split; nia.
Qed.

(** A quotient that a double holds is its own nearest double. *)
Lemma double_div_exact (n : Z) (p : positive) (K j : Z) :
  0 < K < 2 ^ 53 -> 0 <= j -> n * 2 ^ j = K * Zpos p ->
  (double_div n (Zpos p) * inject_Z (2 ^ j) == inject_Z K)%Q.
Proof.
  intros HK Hj Hq.
  assert (Pj : 0 < 2 ^ j) by (apply Z.pow_pos_nonneg; lia).
  assert (Hn : 0 < n) by nia.
  destruct (double_div_cases n (Zpos p) Hn ltac:(lia))
    as [(E & HE & Hlow & ->) | (e & He & Hlow & ->)].
  - assert (P : 0 < 2 ^ E) by (apply Z.pow_pos_nonneg; lia).
    (* j <= E *)
    assert (HjE : j <= E).
    { destruct (Z.le_gt_cases j E) as [? | Hgt]; [assumption | exfalso].
      assert (Hj1 : 2 ^ j = 2 ^ (j - E - 1) * (2 * 2 ^ E)).
      { rewrite <- Z.pow_succ_r, <- Z.pow_add_r by lia; f_equal; lia. }
      assert (Pd : 0 < 2 ^ (j - E - 1)) by (apply Z.pow_pos_nonneg; lia).
      assert (H1 : 2 ^ 52 * Zpos p * 2 ^ j <= K * Zpos p * 2 ^ E) by nia.
      rewrite Hj1 in H1.
      change (2 ^ 53) with (2 * 2 ^ 52) in HK.
      set (c := 2 ^ (j - E - 1)) in *.
      assert (H2 : 2 ^ 52 * (c * 2) <= K) by nia.
      change (2 ^ 52) with 4503599627370496 in *. nia. }
    assert (HE2 : 2 ^ E = 2 ^ (E - j) * 2 ^ j)
      by (rewrite <- Z.pow_add_r by lia; f_equal; lia).
    assert (Hsn : n * 2 ^ E = (K * 2 ^ (E - j)) * Zpos p).
    { rewrite HE2; nia. }
    rewrite Hsn, round_half_even_exact by lia.
    unfold Qeq, Qmult, inject_Z; cbn [Qnum Qden].
    rewrite Pos.mul_1_r, Z2Pos.id by exact P.
    rewrite HE2; ring.
  - assert (P : 0 < 2 ^ e) by (apply Z.pow_pos_nonneg; lia).
    assert (Hzero : e = 0 /\ j = 0).
    { assert (H1 : 2 ^ 52 * (Zpos p * 2 ^ e) * 2 ^ j <= K * Zpos p) by nia.
      assert (H2 : 2 ^ 52 * (2 ^ e * 2 ^ j) <= K) by nia.
      rewrite <- Z.pow_add_r in H2 by lia.
      destruct (Z.eq_dec (e + j) 0) as [? | Hne]; [lia | exfalso].
      assert (H3 : 2 ^ 1 <= 2 ^ (e + j)) by (apply Z.pow_le_mono_r; lia).
      change (2 ^ 53) with (2 ^ 52 * 2 ^ 1) in HK.
      change (2 ^ 52) with 4503599627370496 in *. nia. }
    destruct Hzero as [-> ->]; change (2 ^ 0) with 1 in *.
    rewrite !Z.mul_1_r in *.
    rewrite Hq, round_half_even_exact by lia.
    unfold Qeq, Qmult, inject_Z; cbn [Qnum Qden].
    change (Zpos (1 * 1)) with 1; ring.
Qed.

(** Both scalings at once: a significand of 53 bits at an exponent
    [a - b]. *)
Lemma double_div_form (n d : Z) :
  0 < n -> 0 < d ->
  exists a b,
    0 <= a /\ 0 <= b /\
    2 ^ 52 * (d * 2 ^ a) <= n * 2 ^ b < 2 ^ 53 * (d * 2 ^ a) /\
    (double_div n d
     == inject_Z (round_half_even (n * 2 ^ b) (d * 2 ^ a) * 2 ^ a)
        / inject_Z (2 ^ b))%Q.
Proof.
  intros Hn Hd.
  destruct (double_div_cases n d Hn Hd)
    as [(E & HE & Hb & ->) | (e & He & Hb & ->)].
  - exists 0, E; change (2 ^ 0) with 1; rewrite !Z.mul_1_r.
    repeat split; try lia.
    assert (P : 0 < 2 ^ E) by (apply Z.pow_pos_nonneg; lia).
    unfold Qeq, Qdiv, Qmult, Qinv, inject_Z; cbn [Qnum Qden].
    destruct (2 ^ E) as [| p | p] eqn:Ep; try lia.
    cbn [Qnum Qden Z.to_pos]; rewrite ?Pos.mul_1_l; lia.
  - exists e, 0; change (2 ^ 0) with 1; rewrite !Z.mul_1_r.
    repeat split; try lia.
    unfold Qeq, Qdiv, Qmult, Qinv, inject_Z; cbn [Qnum Qden]; lia.
Qed.

(** The nearest double grows with the quotient. *)
Lemma double_div_mono (n1 d1 n2 d2 : Z) :
  0 < n1 -> 0 < d1 -> 0 < n2 -> 0 < d2 ->
  n1 * d2 <= n2 * d1 ->
  (double_div n1 d1 <= double_div n2 d2)%Q.
Proof.
  intros Hn1 Hd1 Hn2 Hd2 Hle.
  destruct (double_div_form n1 d1 Hn1 Hd1)
    as (a1 & b1 & Ha1 & Hb1 & [L1 U1] & ->).
  destruct (double_div_form n2 d2 Hn2 Hd2)
    as (a2 & b2 & Ha2 & Hb2 & [L2 U2] & ->).
  assert (PA1 : 0 < 2 ^ a1) by (apply Z.pow_pos_nonneg; lia).
  assert (PB1 : 0 < 2 ^ b1) by (apply Z.pow_pos_nonneg; lia).
  assert (PA2 : 0 < 2 ^ a2) by (apply Z.pow_pos_nonneg; lia).
  assert (PB2 : 0 < 2 ^ b2) by (apply Z.pow_pos_nonneg; lia).
  (* the significands *)
  assert (M1 : round_half_even (n1 * 2 ^ b1) (d1 * 2 ^ a1) <= 2 ^ 53).
  { pose proof (round_half_even_mono (n1 * 2 ^ b1) (d1 * 2 ^ a1)
                  (2 ^ 53 * (d1 * 2 ^ a1)) (d1 * 2 ^ a1)
                  ltac:(nia) ltac:(nia) ltac:(nia)) as H.
    rewrite round_half_even_exact in H by nia; exact H. }
  assert (M2 : 2 ^ 52 <= round_half_even (n2 * 2 ^ b2) (d2 * 2 ^ a2)).
  { pose proof (round_half_even_mono (2 ^ 52 * (d2 * 2 ^ a2)) (d2 * 2 ^ a2)
                  (n2 * 2 ^ b2) (d2 * 2 ^ a2)
                  ltac:(nia) ltac:(nia) ltac:(nia)) as H.
    rewrite round_half_even_exact in H by nia; exact H. }
  set (m1 := round_half_even (n1 * 2 ^ b1) (d1 * 2 ^ a1)) in *.
  set (m2 := round_half_even (n2 * 2 ^ b2) (d2 * 2 ^ a2)) in *.
  (* the exponents are ordered *)
  assert (Hexp : a1 + b2 <= a2 + b1).
  { destruct (Z.le_gt_cases (a1 + b2) (a2 + b1)) as [? | Hgt];
      [assumption | exfalso].
    assert (Hp : 2 ^ (a2 + b1 + 1) <= 2 ^ (a1 + b2))
      by (apply Z.pow_le_mono_r; lia).
    rewrite !Z.pow_add_r in Hp by lia; change (2 ^ 1) with 2 in Hp.
    change (2 ^ 53) with (2 * 2 ^ 52) in U2.
    change (2 ^ 52) with 4503599627370496 in *.
    set (A1 := 2 ^ a1) in *; set (B1 := 2 ^ b1) in *.
    set (A2 := 2 ^ a2) in *; set (B2 := 2 ^ b2) in *.
    assert (S1 : 4503599627370496 * (d1 * A1) * (d2 * B2)
                 <= n1 * B1 * (d2 * B2)) by nia.
    assert (S2 : n1 * d2 * (B1 * B2) <= n2 * d1 * (B1 * B2)) by nia.
    assert (S3 : n2 * B2 * (d1 * B1)
                 < 2 * 4503599627370496 * (d2 * A2) * (d1 * B1)) by nia.
    assert (S4 : 4503599627370496 * (d1 * d2) * (A1 * B2)
                 < 4503599627370496 * (d1 * d2) * (2 * (A2 * B1))) by nia.
    assert (D : 0 < 4503599627370496 * (d1 * d2)) by nia.
    nia. }
  assert (Goal' : m1 * 2 ^ a1 * 2 ^ b2 <= m2 * 2 ^ a2 * 2 ^ b1).
  { destruct (Z.eq_dec (a1 + b2) (a2 + b1)) as [Heq | Hne].
    - assert (Hp : 2 ^ a1 * 2 ^ b2 = 2 ^ a2 * 2 ^ b1)
        by (rewrite <- !Z.pow_add_r by lia; f_equal; exact Heq).
      assert (Hm : m1 <= m2).
      { unfold m1, m2; apply round_half_even_mono; [nia | nia |].
        set (A1 := 2 ^ a1) in *; set (B1 := 2 ^ b1) in *.
        set (A2 := 2 ^ a2) in *; set (B2 := 2 ^ b2) in *.
        replace (n1 * B1 * (d2 * A2)) with (n1 * d2 * (A2 * B1)) by ring.
        replace (n2 * B2 * (d1 * A1)) with (n2 * d1 * (A1 * B2)) by ring.
        rewrite Hp; nia. }
      rewrite <- !Z.mul_assoc, Hp; nia.
    - assert (Hp : 2 * (2 ^ a1 * 2 ^ b2) <= 2 ^ a2 * 2 ^ b1).
      { rewrite <- !Z.pow_add_r by lia.
        rewrite <- Z.pow_succ_r by lia.
        apply Z.pow_le_mono_r; lia. }
      change (2 ^ 53) with (2 * 2 ^ 52) in M1.
      change (2 ^ 52) with 4503599627370496 in *.
      set (A1 := 2 ^ a1) in *; set (B1 := 2 ^ b1) in *.
      set (A2 := 2 ^ a2) in *; set (B2 := 2 ^ b2) in *.
      assert (T1 : m1 * (A1 * B2) <= 2 * 4503599627370496 * (A1 * B2)) by nia.
      assert (T2 : 4503599627370496 * (A2 * B1) <= m2 * (A2 * B1)) by nia.
      nia. }
  unfold Qle, Qdiv, Qmult, Qinv, inject_Z; cbn [Qnum Qden].
  destruct (2 ^ b1) as [| p1 | p1] eqn:E1; try lia.
  destruct (2 ^ b2) as [| p2 | p2] eqn:E2; try lia.
  cbn [Qnum Qden]; rewrite ?Pos.mul_1_l, ?Z.mul_1_r; lia.
Qed.

(** [round] of a number less than one half away from an integer. *)
Lemma py_round_unique (t : Q) (k : Z) :
  (inject_Z k - (1 # 2) < t)%Q -> (t < inject_Z k + (1 # 2))%Q ->
  py_round t = k.
Proof.
  destruct t as [n d]; unfold py_round; cbn [Qnum Qden].
  pose proof (round_half_even_spec n (Zpos d) ltac:(lia)) as S.
  cbv zeta in S; set (r := round_half_even n (Zpos d)) in *.
  unfold Qlt, Qminus, Qplus, Qopp, inject_Z; cbn [Qnum Qden].
  intros Hlo Hup; nia.
Qed.

Lemma float_divide_error (x : Q) (b : positive) :
  (0 < x)%Q ->
  (x * (1 # b) * (1 - Spec.unit_roundoff) <= float_divide x (Zpos b))%Q
  /\ (float_divide x (Zpos b) <= x * (1 # b) * (1 + Spec.unit_roundoff))%Q.
Proof.
  intros Hx; unfold float_divide.
  rewrite <- Pos2Z.inj_mul.
  assert (Hn : 0 < Qnum x).
  { destruct x as [n d]; unfold Qlt in Hx; cbn in *; lia. }
  destruct (double_div_error (Qnum x) (Qden x * b) Hn) as [Hlo Hup].
  assert (E : (x * (1 # b) == Qnum x # (Qden x * b))%Q).
  { destruct x as [n d]; cbn [Qnum Qden].
    unfold Qeq, Qmult; cbn [Qnum Qden].
    rewrite !Pos2Z.inj_mul; ring. }
  rewrite E; split; assumption.
Qed.

Lemma float_divide_exact (x : Q) (b : positive) (K j : Z) :
  0 < K < 2 ^ 53 -> 0 <= j ->
  (x * inject_Z (2 ^ j) == inject_Z K * inject_Z (Zpos b))%Q ->
  (float_divide x (Zpos b) * inject_Z (2 ^ j) == inject_Z K)%Q.
Proof.
  intros HK Hj Hx; unfold float_divide.
  rewrite <- Pos2Z.inj_mul.
  apply double_div_exact; try assumption.
  destruct x as [n d]; cbn [Qnum Qden].
  unfold Qeq, Qmult, inject_Z in Hx; cbn [Qnum Qden] in Hx.
  rewrite Pos2Z.inj_mul. 
  rewrite ?Pos.mul_1_r, ?Z.mul_1_r in Hx. lia.
Qed.

(** The last two stSpec.unit_roundoff of the sweet spot, from a double [s] next to
    [X / 2000], where [X] is twice the median: [round(s / 50)] is the
    rounding of the exact [X / 100000]. *)
Lemma sweet_spot_rounding (X : Z) (s : Q) :
  0 < X < 2 * 10 ^ 15 ->
  ((X # 2000) * (1 - Spec.unit_roundoff) <= s)%Q ->
  (s <= (X # 2000) * (1 + Spec.unit_roundoff))%Q ->
  (X mod 100000 = 50000 -> (s == X # 2000)%Q) ->
  py_round (float_divide s 50) = round_half_even X 100000.
Proof.
  intros HX Hlo Hup Htie.
  change (2 * 10 ^ 15) with 2000000000000000 in HX.
  set (q := (inject_Z X)%Q).
  assert (Hq : (0 < q)%Q /\ (q < 2000000000000000)%Q).
  { unfold q; split.
    - change 0%Q with (inject_Z 0); rewrite <- Zlt_Qlt; lia.
    - change 2000000000000000%Q with (inject_Z 2000000000000000);
        rewrite <- Zlt_Qlt; lia. }
  assert (EX : (X # 2000 == q * (1 # 2000))%Q).
  { unfold q, Qeq; simpl; lia. }
  rewrite EX in Hlo, Hup.
  unfold Spec.unit_roundoff in Hlo, Hup.
  assert (Hs : (0 < s)%Q) by lra.
  destruct (float_divide_error s 50 Hs) as [Tlo Tup].
  unfold Spec.unit_roundoff in Tlo, Tup.
  set (t := float_divide s 50) in *.
  destruct (Z.eq_dec (X mod 100000) 50000) as [Hmod | Hmod].
  - (* a tie: both quotients are held exactly *)
    specialize (Htie Hmod); clear Hlo Hup Tlo Tup.
    pose proof (Z.div_mod X 100000 ltac:(lia)) as Hdm; rewrite Hmod in Hdm.
    set (k := X / 100000) in *.
    assert (Hk : 0 <= k) by lia.
    assert (Ht : (t * inject_Z (2 ^ 1) == inject_Z (2 * k + 1))%Q).
    { apply float_divide_exact.
      - change (2 ^ 53) with 9007199254740992; lia.
      - lia.
      - rewrite Htie, Hdm.
        change (2 ^ 1) with 2.
        unfold Qeq, Qmult, inject_Z; cbn [Qnum Qden].
        rewrite ?Pos.mul_1_r; lia. }
    change (round_half_even X 100000) with (py_round (X # 100000)).
    apply py_round_compat.
    change (2 ^ 1) with 2 in Ht.
    assert (E : (X # 100000 == inject_Z (2 * k + 1) / 2)%Q).
    { rewrite Hdm.
      unfold Qeq, Qdiv, Qmult, Qinv, inject_Z; cbn [Qnum Qden].
      rewrite ?Pos.mul_1_l; lia. }
    rewrite E, <- Ht; change (inject_Z 2) with 2%Q; field.
  - (* no tie: the doubles stay on the same side of the half *)
    clear Htie.
    pose proof (Z.div_mod X 100000 ltac:(lia)) as Hdm.
    pose proof (Z.mod_pos_bound X 100000 ltac:(lia)) as Hb.
    set (d := X / 100000) in *; set (m := X mod 100000) in *.
    apply py_round_unique.
    + pose proof (round_half_even_spec X 100000 ltac:(lia)) as S.
      cbv zeta in S; set (r := round_half_even X 100000) in *.
      assert (Hr : 100000 * r <= X + 49999) by lia.
      assert (Hr' : (100000 * inject_Z r <= q + 49999)%Q).
      { unfold q.
        change 100000%Q with (inject_Z 100000);
          change 49999%Q with (inject_Z 49999).
        rewrite <- inject_Z_mult, <- inject_Z_plus, <- Zle_Qle; exact Hr. }
      set (R := inject_Z r) in *.
      lra.
    + pose proof (round_half_even_spec X 100000 ltac:(lia)) as S.
      cbv zeta in S; set (r := round_half_even X 100000) in *.
      assert (Hr : X <= 100000 * r + 49999) by lia.
      assert (Hr' : (q <= 100000 * inject_Z r + 49999)%Q).
      { unfold q.
        change 100000%Q with (inject_Z 100000);
          change 49999%Q with (inject_Z 49999).
        rewrite <- inject_Z_mult, <- inject_Z_plus, <- Zle_Qle; exact Hr. }
      set (R := inject_Z r) in *.
      lra.
Qed.

Lemma double_div_pos (n : Z) (p : positive) :
  0 < n -> (0 < double_div n (Zpos p))%Q.
Proof.
  intros Hn.
  destruct (double_div_error n p Hn) as [Hlo _].
  assert (Hq : (0 < n # p)%Q) by (unfold Qlt; cbn [Qnum Qden]; lia).
  unfold Spec.unit_roundoff in Hlo; set (F := (n # p)%Q) in *; lra.
Qed.

Lemma float_divide_pos (x : Q) (b : positive) :
  (0 < x)%Q -> (0 < float_divide x (Zpos b))%Q.
Proof.
  intros Hx; unfold float_divide; rewrite <- Pos2Z.inj_mul.
  apply double_div_pos.
  destruct x as [n d]; unfold Qlt in Hx; cbn in *; lia.
Qed.

Lemma float_divide_mono (x y : Q) (b : positive) :
  (0 < x)%Q -> (x <= y)%Q ->
  (float_divide x (Zpos b) <= float_divide y (Zpos b))%Q.
Proof.
  intros Hx Hxy; unfold float_divide.
  assert (Hy : (0 < y)%Q) by (eapply Qlt_le_trans; eassumption).
  destruct x as [n1 d1], y as [n2 d2]; unfold Qlt, Qle in *; cbn in *.
  apply double_div_mono; try lia.
  nia.
Qed.

(** A quotient of integers below [2^1023] is below the largest double. *)
Lemma int_true_divide_ok (n : Z) (p : positive) :
  0 < n < 2 ^ 1023 ->
  int_true_divide n (Zpos p) = Ok (double_div n (Zpos p)).
Proof.
  intros Hn; unfold int_true_divide.
  destruct (Qle_bool (inject_Z (2 ^ 1024)) (double_div n (Zpos p))) eqn:E;
    [exfalso | reflexivity].
  apply Qle_bool_iff in E.
  destruct (double_div_error n p ltac:(lia)) as [_ Hup].
  assert (Hq : ((n # p) <= inject_Z n)%Q).
  { unfold Qle, inject_Z; cbn [Qnum Qden]; nia. }
  assert (Hpos : (0 <= inject_Z n)%Q)
    by (change 0%Q with (inject_Z 0); rewrite <- Zle_Qle; lia).
  assert (Hbig : (inject_Z (2 ^ 1024) < inject_Z (2 * n))%Q).
  { eapply Qle_lt_trans; [exact E |].
    eapply Qle_lt_trans; [exact Hup |].
    assert (Hn' : (0 < inject_Z n)%Q)
      by (change 0%Q with (inject_Z 0); rewrite <- Zlt_Qlt; lia).
    rewrite inject_Z_mult; change (inject_Z 2) with 2%Q.
    unfold Spec.unit_roundoff; set (N := inject_Z n) in *.
    set (F := (n # p)%Q) in *; lra. }
  rewrite <- Zlt_Qlt in Hbig.
  change (2 ^ 1024) with (2 * 2 ^ 1023) in Hbig.
  lia.
Qed.

(** An amount in thousands, rounded as the code does: [round(a / 1000 / 50)]
    with both quotients doubles. *)
Lemma rounded_thousands_mono (a b : Z) :
  0 < a <= b ->
  py_round (float_divide (double_div a 1000) 50)
  <= py_round (float_divide (double_div b 1000) 50).
Proof.
  intros H; apply py_round_mono, float_divide_mono.
  - apply double_div_pos; lia.
  - apply double_div_mono; lia.
Qed.

Lemma rounded_thousands_nonneg (a : Z) :
  0 < a -> 0 <= py_round (float_divide (double_div a 1000) 50).
Proof.
  intros H.
  change 0 with (py_round 0) at 1.
  apply py_round_mono, Qlt_le_weak, float_divide_pos, double_div_pos, H.
Qed.

(** Below [10^15] the two doubles carry the exact quotient to the same
    integer. *)
Lemma rounded_thousands_exact (m : Z) :
  0 < m < 10 ^ 15 ->
  py_round (float_divide (double_div m 1000) 50)
  = py_round (inject_Z m / 1000 / 50).
Proof.
  intros Hm; change (10 ^ 15) with 1000000000000000 in Hm.
  destruct (double_div_error m 1000 ltac:(lia)) as [Slo Sup].
  assert (EX : (2 * m # 2000 == m # 1000)%Q)
    by (unfold Qeq; cbn [Qnum Qden]; lia).
  rewrite (sweet_spot_rounding (2 * m) (double_div m 1000)).
  - change (round_half_even (2 * m) 100000)
      with (py_round (2 * m # 100000)).
    apply py_round_compat.
    unfold Qeq, Qdiv, Qmult, Qinv, inject_Z; cbn [Qnum Qden].
    rewrite ?Pos.mul_1_l; lia.
  - change (2 * 10 ^ 15) with 2000000000000000; lia.
  - rewrite EX; exact Slo.
  - rewrite EX; exact Sup.
  - intros Hmod.
    pose proof (Z.div_mod (2 * m) 100000 ltac:(lia)) as Hdm;
      rewrite Hmod in Hdm.
    set (k := 2 * m / 100000) in *.
    assert (E : (double_div m 1000 * inject_Z (2 ^ 0)
                 == inject_Z (50 * k + 25))%Q).
    { apply double_div_exact.
      - change (2 ^ 53) with 9007199254740992; lia.
      - lia.
      - change (2 ^ 0) with 1; lia. }
    change (2 ^ 0) with 1 in E; change (inject_Z 1) with 1%Q in E.
    rewrite Qmult_1_r in E; rewrite E, EX.
    unfold Qeq, inject_Z; cbn [Qnum Qden]; lia.
Qed.


(** ** Sorting in ascending order *)

Lemma insert_asc_perm (x : Z) (l : list Z) : Permutation (insert_asc x l) (x :: l).
Proof.
  induction l as [| y l IH]; simpl.
  - apply Permutation_refl.
  - destruct (x <? y).
    + apply Permutation_refl.
    + eapply Permutation_trans; [apply perm_skip, IH | apply perm_swap].
Qed.

Lemma insert_asc_sorted (x : Z) (l : list Z) :
  StronglySorted Z.le l -> StronglySorted Z.le (insert_asc x l).
Proof.
  induction 1 as [| y l Hs IH Hall]; simpl.
  - constructor; constructor.
  - destruct (Z.ltb_spec x y) as [Hlt | Hge].
    + constructor.
      * constructor; assumption.
      * constructor; [lia |].
        eapply Forall_impl; [| exact Hall]; simpl; intros; lia.
    + constructor; [exact IH |].
      eapply Permutation_Forall; [apply Permutation_sym, insert_asc_perm |].
      constructor; [exact Hge | exact Hall].
Qed.

Lemma sort_asc_from (l acc : list Z) :
  StronglySorted Z.le acc ->
  let out := fold_left (fun acc x => insert_asc x acc) l acc in
  Permutation out (l ++ acc) /\ StronglySorted Z.le out.
Proof.
  revert acc; induction l as [| x l IH]; intros acc Hacc; simpl.
  - split; [apply Permutation_refl | exact Hacc].
  - destruct (IH (insert_asc x acc) (insert_asc_sorted x acc Hacc)) as [Hp Hs].
    split; [| exact Hs].
    eapply Permutation_trans; [exact Hp |].
    eapply Permutation_trans;
      [apply Permutation_app_head, insert_asc_perm | apply Permutation_sym, Permutation_middle].
Qed.

Lemma sort_asc_perm (l : list Z) : Permutation (sort_asc l) l.
Proof.
  destruct (sort_asc_from l [] (SSorted_nil _)) as [Hp _].
  rewrite app_nil_r in Hp; exact Hp.
Qed.



(** ** Medians *)


(** ** The amounts of a deal list *)

Lemma collect_amounts_from (deals : list dict) (acc : list Z) :
  forallb Spec.numeric_amount deals = true ->
  for_each
    (fun amounts deal =>
       let amount := dict_get deal "amount" (VInt 0) in
       if truthy amount then
         match as_number amount with
         | Some n => Ok (if 0 <? n then amounts ++ [n] else amounts)
         | None => Raise TypeError
         end
       else Ok amounts)
    deals acc
  = Ok (acc ++ Spec.positive_amounts deals).
Proof.
  revert acc; induction deals as [| deal deals IH]; intros acc Hok; simpl.
  - rewrite app_nil_r; reflexivity.
  - simpl in Hok; apply andb_prop in Hok; destruct Hok as [Hd Hrest].
    unfold Spec.numeric_amount, Spec.amount in Hd.
    unfold Spec.amount.
    destruct (dict_get deal "amount" (VInt 0)) as [| b | n | s | l | d] eqn:Ea;
      simpl in *.
    + rewrite IH by assumption; reflexivity.
    + destruct b; simpl; rewrite IH by assumption; simpl;
        [rewrite <- app_assoc |]; reflexivity.
    + destruct (Z.eqb_spec n 0) as [-> | Hn]; simpl.
      * rewrite IH by assumption; reflexivity.
      * destruct (0 <? n); simpl; rewrite IH by assumption;
          [rewrite <- app_assoc |]; reflexivity.
    + destruct (String.eqb s ""); simpl in *; [| discriminate].
      rewrite IH by assumption; reflexivity.
    + destruct l; simpl in *; [| discriminate].
      rewrite IH by assumption; reflexivity.
    + destruct d; simpl in *; [| discriminate].
      rewrite IH by assumption; reflexivity.
Qed.

Lemma collect_amounts_ok (deals : list dict) :
  forallb Spec.numeric_amount deals = true ->
  VCDataEnricher.collect_amounts deals = Ok (Spec.positive_amounts deals).
Proof.
  intros H; unfold VCDataEnricher.collect_amounts.
  rewrite collect_amounts_from by exact H; reflexivity.
Qed.

Lemma positive_amounts_pos (deals : list dict) :
  Forall (fun n => 0 < n) (Spec.positive_amounts deals).
Proof.
  unfold Spec.positive_amounts; induction deals as [| deal deals IH]; simpl.
  - constructor.
  - apply Forall_app; split; [| exact IH].
    destruct (as_number (Spec.amount deal)) as [n |]; [| constructor].
    destruct (Z.ltb_spec 0 n); constructor; [assumption | constructor].
Qed.

Lemma fold_min_le (l : list Z) (x : Z) :
  fold_left Z.min l x <= x /\
  (forall lo, lo <= x -> Forall (fun n => lo <= n) l -> lo <= fold_left Z.min l x).
Proof.
  revert x; induction l as [| y l IH]; intros x; simpl.
  - split; [lia | intros; assumption].
  - destruct (IH (Z.min x y)) as [H1 H2]; split; [lia |].
    intros lo Hx Hall; inversion Hall; subst; apply H2; [lia | assumption].
Qed.

Lemma fold_max_ge (l : list Z) (x : Z) : x <= fold_left Z.max l x.
Proof.
  revert x; induction l as [| y l IH]; intros x; simpl; [lia |].
  specialize (IH (Z.max x y)); lia.
Qed.

Lemma list_min_max (l : list Z) :
  Forall (fun n => 0 < n) l -> l <> [] ->
  0 < VCDataEnricher.list_min l <= VCDataEnricher.list_max l.
Proof.
  intros Hall Hne; destruct l as [| x l]; [contradiction |]; simpl.
  inversion Hall as [| ? ? Hx Hl]; subst.
  destruct (fold_min_le l x) as [Hmin Hlow].
  pose proof (fold_max_ge l x) as Hmax.
  assert (1 <= fold_left Z.min l x); [| lia].
  apply (Hlow 1); [lia |].
  eapply Forall_impl; [| exact Hl]; simpl; intros; lia.
Qed.

Lemma fold_min_below (l : list Z) (x : Z) :
  Forall (fun n => fold_left Z.min l x <= n) (x :: l).
Proof.
  revert x; induction l as [| y l IH]; intros x; simpl.
  - constructor; [lia | constructor].
  - specialize (IH (Z.min x y)); inversion IH as [| ? ? Hhead Htail]; subst.
    constructor; [lia |]. constructor; [lia | exact Htail].
Qed.

Lemma fold_max_above (l : list Z) (x : Z) :
  Forall (fun n => n <= fold_left Z.max l x) (x :: l).
Proof.
  revert x; induction l as [| y l IH]; intros x; simpl.
  - constructor; [lia | constructor].
  - specialize (IH (Z.max x y)); inversion IH as [| ? ? Hhead Htail]; subst.
    constructor; [lia |]. constructor; [lia | exact Htail].
Qed.

Lemma list_min_max_bounds (l : list Z) :
  Forall (fun n => VCDataEnricher.list_min l <= n <= VCDataEnricher.list_max l) l.
Proof.
  destruct l as [| x l]; [constructor |].
  pose proof (fold_min_below l x) as Hmin.
  pose proof (fold_max_above l x) as Hmax.
  rewrite Forall_forall in *; intros n Hn; simpl.
  split; [apply Hmin | apply Hmax]; exact Hn.
Qed.

Lemma fold_max_in (l : list Z) (x : Z) : In (fold_left Z.max l x) (x :: l).
Proof.
  revert x; induction l as [| y l IH]; intros x; simpl; [left; reflexivity |].
  destruct (IH (Z.max x y)) as [H | H]; [| right; right; exact H].
  rewrite <- H.
  destruct (Z.max_spec x y) as [[_ E] | [_ E]]; rewrite E;
    [right; left | left]; reflexivity.
Qed.

Lemma list_max_in (l : list Z) : l <> [] -> In (VCDataEnricher.list_max l) l.
Proof.
  destruct l as [| x l]; [contradiction | intros _; apply fold_max_in].
Qed.

Lemma fold_min_in (l : list Z) (x : Z) : In (fold_left Z.min l x) (x :: l).
Proof.
  revert x; induction l as [| y l IH]; intros x; simpl; [left; reflexivity |].
  destruct (IH (Z.min x y)) as [H | H]; [| right; right; exact H].
  rewrite <- H.
  destruct (Z.min_spec x y) as [[_ E] | [_ E]]; rewrite E;
    [left | right; left]; reflexivity.
Qed.

Lemma list_min_in (l : list Z) : l <> [] -> In (VCDataEnricher.list_min l) l.
Proof.
  destruct l as [| x l]; [contradiction | intros _; apply fold_min_in].
Qed.

(** The check range of amounts that a double holds. *)
Lemma check_range_value (deals : list dict) :
  forallb Spec.numeric_amount deals = true ->
  Spec.within_double deals = true ->
  Spec.positive_amounts deals <> [] ->
  VCDataEnricher._calculate_check_range deals
  = Ok (py_round
          (float_divide
             (double_div (VCDataEnricher.list_min (Spec.positive_amounts deals))
                1000) 50) * 50,
        py_round
          (float_divide
             (double_div (VCDataEnricher.list_max (Spec.positive_amounts deals))
                1000) 50) * 50).
Proof.
  intros Hnum Hlim Hne; unfold VCDataEnricher._calculate_check_range.
  rewrite (collect_amounts_ok deals Hnum); cbn [bind].
  pose proof (positive_amounts_pos deals) as Hpos.
  unfold Spec.within_double in Hlim; rewrite forallb_forall in Hlim.
  destruct (Spec.positive_amounts deals) as [| a amounts] eqn:Ea;
    [contradiction |].
  set (pos := a :: amounts) in *.
  destruct (list_min_max pos Hpos Hne) as [Hlo Hhi].
  assert (Hmax : VCDataEnricher.list_max pos < 2 ^ 1023)
    by (apply Z.ltb_lt, Hlim, list_max_in, Hne).
  rewrite !int_true_divide_ok by lia.
  reflexivity.
Qed.

(** * Check sizes *)

(** C10, as the code has it.  For every deal list whose amounts are integers with the
    positive ones below [2^1023], the check-range calculation returns a pair
    [(lo, hi)] with [0 <= lo <= hi], both bounds multiples of 50; the pair
    is [(0, 0)] when no amount is positive. *)
Theorem check_range_well_formed (deals : list dict) :
  forallb Spec.numeric_amount deals = true ->
  Spec.within_double deals = true ->
  exists lo hi,
    VCDataEnricher._calculate_check_range deals = Ok (lo, hi) /\
    0 <= lo <= hi /\ (50 | lo) /\ (50 | hi) /\
    (Spec.positive_amounts deals = [] -> lo = 0 /\ hi = 0).
Proof.
  intros Hnum Hlim.
  destruct (Spec.positive_amounts deals) as [| a amounts] eqn:Ea.
  - unfold VCDataEnricher._calculate_check_range.
    rewrite (collect_amounts_ok deals Hnum), Ea.
    exists 0, 0; repeat split; try lia; exists 0; reflexivity.
  - rewrite (check_range_value deals Hnum Hlim) by (rewrite Ea; discriminate).
    rewrite Ea.
    pose proof (positive_amounts_pos deals) as Hpos; rewrite Ea in Hpos.
    destruct (list_min_max (a :: amounts) Hpos ltac:(discriminate))
      as [Hlo Hhi].
    eexists _, _; split; [reflexivity |].
    pose proof (rounded_thousands_nonneg _ Hlo) as H0.
    pose proof (rounded_thousands_mono _ _ (conj Hlo Hhi)) as H1.
    split; [lia |].
    split; [eexists; reflexivity |].
    split; [eexists; reflexivity | discriminate].
Qed.

Lemma check_range_well_formed_witness :
  let deals := [ [("amount", VInt 750000)]; [("company", VStr "Acme")];
                 [("amount", VInt 2500000)] ] in
  forallb Spec.numeric_amount deals = true /\
  Spec.within_double deals = true /\
  exists lo hi,
    VCDataEnricher._calculate_check_range deals = Ok (lo, hi) /\
    0 <= lo <= hi /\ (50 | lo) /\ (50 | hi) /\
    (Spec.positive_amounts deals = [] -> lo = 0 /\ hi = 0).
Proof.
  split; [reflexivity |].
  split; [reflexivity |].
  apply (check_range_well_formed
           [ [("amount", VInt 750000)]; [("company", VStr "Acme")];
             [("amount", VInt 2500000)] ]);
    reflexivity.
Defined.

(** One deal of [10^400]: the quotient by 1000 is beyond the largest
    double, and the division raises. *)
Lemma check_range_overflow :
  let deals := [ [("amount", VInt (10 ^ 400))] ] in
  forallb Spec.numeric_amount deals = true
  /\ VCDataEnricher._calculate_check_range deals = Raise OverflowError
  /\ forall lo hi, VCDataEnricher._calculate_check_range deals <> Ok (lo, hi).
Proof.
  assert (E : VCDataEnricher._calculate_check_range
                [ [("amount", VInt (10 ^ 400))] ] = Raise OverflowError)
    by (vm_compute; reflexivity).
  split; [reflexivity |].
  split; [exact E |].
  intros lo hi; cbv zeta; rewrite E; discriminate.
Qed.

(** ** The sweet spot and its doubles *)

(** The amounts at the middle of a list are amounts of the list. *)
Lemma nth_Forall (P : Z -> Prop) (l : list Z) (i : nat) :
  Forall P l -> (i < List.length l)%nat -> P (nth i l 0).
Proof.
  intros HP Hi; rewrite Forall_forall in HP; apply HP, nth_In, Hi.
Qed.

Lemma half_even (n : nat) :
  Nat.even n = true -> n <> 0%nat ->
  (n / 2 - 1 < n)%nat /\ (n / 2 < n)%nat.
Proof.
  intros Hev Hn.
  apply Nat.even_spec in Hev; destruct Hev as [k ->].
  replace (2 * k / 2)%nat with k
    by (apply (Nat.div_unique _ 2 k 0); lia).
  lia.
Qed.

Lemma half_odd (n : nat) : n <> 0%nat -> (n / 2 < n)%nat.
Proof. intros Hn; apply Nat.div_lt; lia. Qed.

(** Below [10^15] the doubles of the code carry the exact quotients to the
    same integer: the steps after the sort give the exact median, divided
    by 1000, rounded to a multiple of 50. *)
Lemma median_rounding (amounts : list Z) :
  amounts <> [] ->
  Forall (fun a => 0 < a < 10 ^ 15) amounts ->
  (median <- VCDataEnricher.median amounts ;;
   sweet_spot <- match median with
                 | inl m => int_true_divide m 1000
                 | inr x => Ok (float_divide x 1000)
                 end ;;
   Ok (py_round (float_divide sweet_spot 50) * 50))
  = Ok (Spec.round_to_50 (Spec.median_of_sorted amounts / 1000)).
Proof.
  intros Hne Hall.
  assert (Hlen : List.length amounts <> 0%nat)
    by (destruct amounts; [contradiction | discriminate]).
  unfold VCDataEnricher.median, Spec.median_of_sorted,
    Spec.round_to_50.
  change (10 ^ 15) with 1000000000000000 in Hall.
  destruct (Nat.even (List.length amounts)) eqn:Hev.
  - (* an even count: the double of (a + b) / 2 is exact *)
    destruct (half_even _ Hev Hlen) as [H1 H2].
    pose proof (nth_Forall _ _ _ Hall H1) as Ha.
    pose proof (nth_Forall _ _ _ Hall H2) as Hb.
    cbv beta in Ha, Hb.
    set (X := nth (List.length amounts / 2 - 1) amounts 0
              + nth (List.length amounts / 2) amounts 0) in *.
    assert (HX : 0 < X < 2 * 10 ^ 15)
      by (change (2 * 10 ^ 15) with 2000000000000000; unfold X; lia).
    change (2 * 10 ^ 15) with 2000000000000000 in HX.
    cbv zeta.
    rewrite (int_true_divide_ok X 2)
      by (split; [lia | apply Z.lt_trans with 2000000000000000;
                          [lia | reflexivity]]).
    cbn [bind].
    set (med := double_div X 2).
    assert (Hmed : (med * inject_Z (2 ^ 1) == inject_Z X)%Q).
    { apply double_div_exact;
        [change (2 ^ 53) with 9007199254740992; lia | lia | reflexivity]. }
    change (2 ^ 1) with 2 in Hmed; change (inject_Z 2) with 2%Q in Hmed.
    assert (Hmed' : (med == inject_Z X * (1 # 2))%Q)
      by (rewrite <- Hmed; field).
    assert (Hpos : (0 < inject_Z X)%Q)
      by (change 0%Q with (inject_Z 0); rewrite <- Zlt_Qlt; lia).
    assert (Hmpos : (0 < med)%Q) by (rewrite Hmed'; lra).
    destruct (float_divide_error med 1000 Hmpos) as [Slo Sup].
    assert (EX : (X # 2000 == med * (1 # 1000))%Q).
    { rewrite Hmed'; unfold Qeq, Qmult, inject_Z; cbn [Qnum Qden].
      rewrite ?Pos.mul_1_l; lia. }
    f_equal; f_equal.
    rewrite (sweet_spot_rounding X (float_divide med 1000)).
    + change (round_half_even X 100000) with (py_round (X # 100000)).
      apply py_round_compat.
      unfold Qeq, Qdiv, Qmult, Qinv, inject_Z; cbn [Qnum Qden].
      rewrite ?Pos.mul_1_l; lia.
    + change (2 * 10 ^ 15) with 2000000000000000; lia.
    + rewrite EX; exact Slo.
    + rewrite EX; exact Sup.
    + intros Hmod.
      pose proof (Z.div_mod X 100000 ltac:(lia)) as Hdm; rewrite Hmod in Hdm.
      set (k := X / 100000) in *.
      assert (E : (float_divide med 1000 * inject_Z (2 ^ 0)
                   == inject_Z (50 * k + 25))%Q).
      { apply float_divide_exact.
        - change (2 ^ 53) with 9007199254740992; lia.
        - lia.
        - rewrite Hmed', Hdm; change (2 ^ 0) with 1.
          unfold Qeq, Qmult, inject_Z; cbn [Qnum Qden].
          rewrite ?Pos.mul_1_r; lia. }
      change (2 ^ 0) with 1 in E; change (inject_Z 1) with 1%Q in E.
      rewrite Qmult_1_r in E; rewrite E, Hdm.
      unfold Qeq, inject_Z; cbn [Qnum Qden]; lia.
  - (* an odd count: the median is an amount *)
    assert (H2 : (List.length amounts / 2 < List.length amounts)%nat)
      by (apply half_odd; exact Hlen).
    pose proof (nth_Forall _ _ _ Hall H2) as Hm; cbv beta in Hm.
    set (m := nth (List.length amounts / 2) amounts 0) in *.
    cbn [bind].
    rewrite (int_true_divide_ok m 1000)
      by (split; [lia | apply Z.lt_trans with 1000000000000000;
                          [lia | reflexivity]]).
    cbn [bind].
    rewrite rounded_thousands_exact
      by (change (10 ^ 15) with 1000000000000000; lia).
    reflexivity.
Qed.

Lemma below_limit_spec (deals : list dict) :
  Spec.below_limit deals = true ->
  Forall (fun a => 0 < a < 10 ^ 15) (Spec.positive_amounts deals).
Proof.
  unfold Spec.below_limit; intros H.
  pose proof (positive_amounts_pos deals) as Hpos.
  rewrite forallb_forall in H; rewrite Forall_forall in *.
  intros a Ha; split; [apply Hpos, Ha |].
  apply Z.ltb_lt, H, Ha.
Qed.

(** The sweet spot of amounts below [10^15] is the rounding of the exact
    median. *)
Lemma sweet_spot_exact (deals : list dict) :
  forallb Spec.numeric_amount deals = true ->
  Spec.below_limit deals = true ->
  Spec.positive_amounts deals <> [] ->
  VCDataEnricher._calculate_sweet_spot deals
  = Ok (Spec.round_to_50
          (Spec.median_of_sorted (sort_asc (Spec.positive_amounts deals))
           / 1000)).
Proof.
  intros Hnum Hlim Hne; unfold VCDataEnricher._calculate_sweet_spot.
  rewrite (collect_amounts_ok deals Hnum); cbn [bind].
  pose proof (below_limit_spec deals Hlim) as Hall.
  pose proof (sort_asc_perm (Spec.positive_amounts deals)) as Hperm.
  destruct (Spec.positive_amounts deals) as [| a pos] eqn:Epos;
    [contradiction |].
  apply median_rounding.
  - intros E; rewrite E in Hperm; apply Permutation_nil in Hperm;
      discriminate.
  - eapply Permutation_Forall; [apply Permutation_sym, Hperm | exact Hall].
Qed.




(** * Lead or follow *)

Lemma lead_follow_counts (deals : list dict) (lead total : Z) :
  fold_left
    (fun counts deal =>
       let '(lead_count, total_count) := counts in
       let is_lead := dict_get deal "is_lead" (VBool false) in
       (if truthy is_lead then lead_count + 1 else lead_count, total_count + 1))
    deals (lead, total)
  = (lead + Z.of_nat (List.length (Spec.lead_deals deals)),
     total + Z.of_nat (List.length deals)).
Proof.
  revert lead total; induction deals as [| deal deals IH]; intros lead total.
  - simpl; f_equal; lia.
  - cbn [fold_left]; rewrite IH; unfold Spec.lead_deals; cbn [filter List.length].
    destruct (truthy (dict_get deal "is_lead" (VBool false)));
      cbn [List.length]; f_equal; lia.
Qed.

(** The three thresholds in terms of the two counts. *)
Lemma lead_follow_by_counts (deals : list dict) :
  let lead := Z.of_nat (List.length (Spec.lead_deals deals)) in
  let total := Z.of_nat (List.length deals) in
  VCDataEnricher._determine_lead_follow deals =
  if total =? 0 then "Unknown"
  else if 7 * total <=? 10 * lead then "Lead"
  else if 10 * lead <=? 3 * total then "Follow"
  else "Both".
Proof.
  intros lead total; unfold VCDataEnricher._determine_lead_follow.
  rewrite lead_follow_counts; simpl Z.add; fold lead total.
  destruct (Z.eqb_spec total 0) as [H0 | H0]; [reflexivity |].
  assert (Hpos : 0 < total) by (unfold total in *; lia).
  destruct total as [| p | p]; try lia.
  unfold Qle_bool, Qdiv, Qmult, Qinv, inject_Z; simpl Qnum; simpl Qden.
  repeat match goal with
         | |- context [?a <=? ?b] => destruct (Z.leb_spec a b)
         end; try reflexivity; lia.
Qed.

Lemma lead_ratio_ge (deals : list dict) (a b : Z) :
  deals <> [] -> 0 < b ->
  ((a # Z.to_pos b <= Spec.lead_ratio deals)%Q <->
   a * Z.of_nat (List.length deals)
   <= b * Z.of_nat (List.length (Spec.lead_deals deals)))
  /\ ((Spec.lead_ratio deals <= a # Z.to_pos b)%Q <->
      b * Z.of_nat (List.length (Spec.lead_deals deals))
      <= a * Z.of_nat (List.length deals)).
Proof.
  intros Hne Hb; unfold Spec.lead_ratio.
  set (lead := Z.of_nat (List.length (Spec.lead_deals deals))).
  set (total := Z.of_nat (List.length deals)).
  assert (Hpos : 0 < total)
    by (unfold total; destruct deals; [contradiction | simpl; lia]).
  destruct total as [| p | p]; try lia.
  destruct b as [| q | q]; try lia.
  unfold Qle, Qdiv, Qmult, Qinv, inject_Z; cbn [Qnum Qden Z.to_pos].
  rewrite ?Pos.mul_1_l.
  split; split; intros; lia.
Qed.

(** C5.  With [ratio] the share of deals whose [is_lead] is true: an empty
    deal list gives "Unknown"; otherwise [ratio >= 0.7] gives "Lead",
    [ratio <= 0.3] gives "Follow" and [0.3 < ratio < 0.7] gives "Both".
    Seven leads out of ten give "Lead", three "Follow", five "Both". *)
Theorem lead_follow_thresholds (deals : list dict) :
  let ratio := Spec.lead_ratio deals in
  let leads := List.length (Spec.lead_deals deals) in
  let answer := VCDataEnricher._determine_lead_follow deals in
  (deals = [] -> answer = "Unknown")
  /\ (deals <> [] ->
      ((7 # 10 <= ratio)%Q -> answer = "Lead")
      /\ ((ratio <= 3 # 10)%Q -> answer = "Follow")
      /\ ((3 # 10 < ratio)%Q -> (ratio < 7 # 10)%Q -> answer = "Both"))
  /\ (List.length deals = 10%nat ->
      (leads = 7%nat -> answer = "Lead")
      /\ (leads = 3%nat -> answer = "Follow")
      /\ (leads = 5%nat -> answer = "Both")).
Proof.
  intros ratio leads answer; subst answer.
  rewrite lead_follow_by_counts; cbv zeta; fold leads.
  split; [| split].
  - intros ->; reflexivity.
  - intros Hne.
    destruct (lead_ratio_ge deals 7 10 Hne ltac:(lia)) as [G7 L7].
    destruct (lead_ratio_ge deals 3 10 Hne ltac:(lia)) as [G3 L3].
    change (7 # Z.to_pos 10) with (7 # 10) in *.
    change (3 # Z.to_pos 10) with (3 # 10) in *.
    fold ratio leads in G7, L7, G3, L3.
    assert (Hpos : 0 < Z.of_nat (List.length deals))
      by (destruct deals; [contradiction | simpl; lia]).
    destruct (Z.eqb_spec (Z.of_nat (List.length deals)) 0); [lia |].
    repeat split.
    + intros H; apply G7 in H.
      destruct (Z.leb_spec (7 * Z.of_nat (List.length deals)) (10 * Z.of_nat leads));
        [reflexivity | lia].
    + intros H; apply L3 in H.
      destruct (Z.leb_spec (7 * Z.of_nat (List.length deals)) (10 * Z.of_nat leads));
        [lia |].
      destruct (Z.leb_spec (10 * Z.of_nat leads) (3 * Z.of_nat (List.length deals)));
        [reflexivity | lia].
    + intros Hlo Hhi.
      apply Qlt_not_le in Hlo, Hhi.
      destruct (Z.leb_spec (7 * Z.of_nat (List.length deals)) (10 * Z.of_nat leads));
        [exfalso; apply Hhi, G7; assumption |].
      destruct (Z.leb_spec (10 * Z.of_nat leads) (3 * Z.of_nat (List.length deals)));
        [exfalso; apply Hlo, L3; assumption | reflexivity].
  - intros ->; repeat split; intros ->; reflexivity.
Qed.

Lemma lead_follow_thresholds_witness :
  let deals := repeat [("is_lead", VBool true)] 7 ++ repeat [("is_lead", VBool false)] 3 in
  (7 # 10 <= Spec.lead_ratio deals)%Q
  /\ VCDataEnricher._determine_lead_follow deals = "Lead".
Proof.
  assert (Hratio :
            (7 # 10 <= Spec.lead_ratio
                         (repeat [("is_lead", VBool true)] 7
                            ++ repeat [("is_lead", VBool false)] 3))%Q)
    by (vm_compute; discriminate).
  split; [exact Hratio |].
  refine (proj1 (proj1 (proj2 (lead_follow_thresholds
                                 (repeat [("is_lead", VBool true)] 7
                                    ++ repeat [("is_lead", VBool false)] 3))) _)
            Hratio).
  discriminate.
Defined.

(** * Insertion-ordered dictionaries *)

Lemma assoc_get_set_same {V : Type} (d : list (string * V)) (k : string) (v : V) :
  assoc_get (assoc_set d k v) k = Some v.
Proof.
  induction d as [| [k' v'] d IH]; simpl.
  - rewrite String.eqb_refl; reflexivity.
  - destruct (String.eqb k k') eqn:E; simpl; rewrite E; [reflexivity | exact IH].
Qed.

Lemma assoc_get_set_other {V : Type} (d : list (string * V)) (k k' : string) (v : V) :
  k <> k' -> assoc_get (assoc_set d k v) k' = assoc_get d k'.
Proof.
  intros Hne; induction d as [| [k0 v0] d IH]; simpl.
  - destruct (String.eqb_spec k' k); [congruence | reflexivity].
  - destruct (String.eqb_spec k k0) as [-> | Hk]; simpl.
    + destruct (String.eqb_spec k' k0); [congruence | reflexivity].
    + destruct (String.eqb k' k0); [reflexivity | exact IH].
Qed.

Lemma assoc_get_in {V : Type} (d : list (string * V)) (k : string) (v : V) :
  assoc_get d k = Some v -> In (k, v) d.
Proof.
  induction d as [| [k' v'] d IH]; simpl; [discriminate |].
  destruct (String.eqb_spec k k') as [-> | Hk]; intros H.
  - injection H as ->; left; reflexivity.
  - right; apply IH; exact H.
Qed.

Lemma assoc_get_none {V : Type} (d : list (string * V)) (k : string) :
  ~ In k (map fst d) -> assoc_get d k = None.
Proof.
  induction d as [| [k' v'] d IH]; simpl; intros H; [reflexivity |].
  destruct (String.eqb_spec k k') as [-> | Hk]; [tauto | apply IH; tauto].
Qed.

Lemma assoc_get_some_key {V : Type} (d : list (string * V)) (k : string) (v : V) :
  assoc_get d k = Some v -> In k (map fst d).
Proof.
  intros H; apply assoc_get_in in H.
  apply (in_map fst) in H; exact H.
Qed.

(** Writing a new key appends it. *)
Lemma assoc_set_new {V : Type} (d : list (string * V)) (k : string) (v : V) :
  assoc_get d k = None -> assoc_set d k v = d ++ [(k, v)].
Proof.
  induction d as [| [k' v'] d IH]; simpl; intros H; [reflexivity |].
  destruct (String.eqb k k'); [discriminate | rewrite IH by exact H; reflexivity].
Qed.

(** Writing an existing key leaves the keys as they are. *)
Lemma assoc_set_keys {V : Type} (d : list (string * V)) (k : string) (v v0 : V) :
  assoc_get d k = Some v0 -> map fst (assoc_set d k v) = map fst d.
Proof.
  induction d as [| [k' v'] d IH]; simpl; intros H; [discriminate |].
  destruct (String.eqb k k'); simpl; [reflexivity | rewrite IH by exact H; reflexivity].
Qed.

Lemma assoc_set_in {V : Type} (d : list (string * V)) (k k' : string) (v v' : V) :
  In (k', v') (assoc_set d k v) -> (k' = k /\ v' = v) \/ In (k', v') d.
Proof.
  induction d as [| [k0 v0] d IH]; simpl.
  - intros [H | []]; injection H as <- <-; left; split; reflexivity.
  - destruct (String.eqb_spec k k0) as [-> | Hk]; simpl.
    + intros [H | H]; [injection H as <- <-; left; split; reflexivity | right; right; exact H].
    + intros [H | H]; [right; left; exact H |].
      destruct (IH H) as [? | ?]; [left; assumption | right; right; assumption].
Qed.

Lemma assoc_get_none_notin {V : Type} (d : list (string * V)) (k : string) :
  assoc_get d k = None -> ~ In k (map fst d).
Proof.
  induction d as [| [k' v'] d IH]; simpl; intros H; [tauto |].
  destruct (String.eqb_spec k k') as [-> | Hk]; [discriminate |].
  intros [Heq | Hin]; [congruence | exact (IH H Hin)].
Qed.

Lemma assoc_set_nodup {V : Type} (d : list (string * V)) (k : string) (v : V) :
  NoDup (map fst d) -> NoDup (map fst (assoc_set d k v)).
Proof.
  intros Hnd; destruct (assoc_get d k) as [v0 |] eqn:E.
  - rewrite (assoc_set_keys d k v v0 E); exact Hnd.
  - rewrite (assoc_set_new d k v E), map_app; simpl.
    apply NoDup_app; [exact Hnd | repeat constructor; simpl; tauto |].
    intros x Hx [Hk | []]; subst x.
    exact (assoc_get_none_notin d k E Hx).
Qed.

Lemma nodup_keys_functional {V : Type} (d : list (string * V)) (k : string) (v v' : V) :
  NoDup (map fst d) -> In (k, v) d -> In (k, v') d -> v = v'.
Proof.
  induction d as [| [k0 v0] d IH]; simpl; intros Hnd H1 H2; [contradiction |].
  inversion Hnd as [| ? ? Hnot Hnd']; subst.
  destruct H1 as [H1 | H1], H2 as [H2 | H2].
  - congruence.
  - injection H1 as -> ->; exfalso; apply Hnot, in_map_iff; exists (k, v'); auto.
  - injection H2 as -> ->; exfalso; apply Hnot, in_map_iff; exists (k, v); auto.
  - apply IH; assumption.
Qed.

(** * Record merging *)

Lemma lower_empty (s : string) : lower s = "" -> s = "".
Proof. destruct s; simpl; [reflexivity | discriminate]. Qed.

Lemma fill_gaps_keeps (existing company : dict) (F : string) (v : value) :
  assoc_get existing F = Some v -> truthy v = true ->
  assoc_get (VCDataEnricher.fill_gaps existing company) F = Some v.
Proof.
  unfold VCDataEnricher.fill_gaps; revert existing.
  induction company as [| [key value] company IH]; intros existing Hget Htrue;
    simpl; [exact Hget |].
  apply IH; [| exact Htrue].
  destruct (String.eqb_spec key F) as [-> | Hne].
  - rewrite Hget, Htrue; simpl; rewrite Bool.andb_false_r; exact Hget.
  - destruct (truthy value && _)%bool; [| exact Hget].
    rewrite assoc_get_set_other by exact Hne; exact Hget.
Qed.

(** A field of the updated record is the old one, or fills a gap with a
    truthy value of the other record. *)
Lemma fill_gaps_field (existing company : dict) (F : string) :
  assoc_get (VCDataEnricher.fill_gaps existing company) F = assoc_get existing F
  \/ (Spec.falsy_or_missing existing F /\
      exists v, In (F, v) company /\ truthy v = true /\
                assoc_get (VCDataEnricher.fill_gaps existing company) F = Some v).
Proof.
  unfold VCDataEnricher.fill_gaps; revert existing.
  induction company as [| [key value] company IH]; intros existing; simpl;
    [left; reflexivity |].
  set (gap := match assoc_get existing key with
              | Some old => negb (truthy old)
              | None => true
              end).
  destruct (truthy value && gap)%bool eqn:Hcond.
  - apply andb_prop in Hcond; destruct Hcond as [Hv Hgap].
    destruct (String.eqb_spec key F) as [-> | Hne].
    + right; split.
      * unfold Spec.falsy_or_missing; subst gap.
        destruct (assoc_get existing F) as [old |]; [| exact I].
        destruct (truthy old); [discriminate | reflexivity].
      * exists value; split; [left; reflexivity | split; [exact Hv |]].
        apply (fill_gaps_keeps (assoc_set existing F value) company F value);
          [apply assoc_get_set_same | exact Hv].
    + destruct (IH (assoc_set existing key value)) as [Hsame | (Hg & v & Hin & Hv' & Hfin)].
      * left; rewrite Hsame; apply assoc_get_set_other; exact Hne.
      * right; split.
        -- unfold Spec.falsy_or_missing in *.
           rewrite assoc_get_set_other in Hg by exact Hne; exact Hg.
        -- exists v; split; [right; exact Hin | split; assumption].
  - destruct (IH existing) as [Hsame | (Hg & v & Hin & Hv' & Hfin)].
    + left; exact Hsame.
    + right; split; [exact Hg |].
      exists v; split; [right; exact Hin | split; assumption].
Qed.

Lemma text_name_key (r : dict) :
  Spec.text_name r = true ->
  VCDataEnricher.company_key r = Ok (Spec.name_of r).
Proof.
  unfold Spec.text_name, Spec.name_of, VCDataEnricher.company_key.
  destruct (dict_get r "name" (VStr "")); simpl; intros H;
    try discriminate; reflexivity.
Qed.

Lemma keyed_set (merged : list (string * dict)) (k : string) (r : dict) :
  Spec.keyed merged -> VCDataEnricher.company_key r = Ok k -> k <> "" ->
  Spec.keyed (assoc_set merged k r).
Proof.
  intros [Hnd Hkeys] Hk Hne; split; [apply assoc_set_nodup; exact Hnd |].
  intros k' r' Hin; apply assoc_set_in in Hin.
  destruct Hin as [[-> ->] | Hin]; [split; assumption | apply Hkeys; exact Hin].
Qed.

(** Filling gaps leaves the name of a keyed record as it is. *)
Lemma fill_gaps_key (existing company : dict) (k : string) :
  VCDataEnricher.company_key existing = Ok k -> k <> "" ->
  VCDataEnricher.company_key (VCDataEnricher.fill_gaps existing company) = Ok k.
Proof.
  unfold VCDataEnricher.company_key, dict_get; intros Hk Hne.
  destruct (assoc_get existing "name") as [v |] eqn:Hget.
  - destruct v as [| b | n | s | l | d]; simpl in Hk; try discriminate.
    injection Hk as Hk.
    rewrite (fill_gaps_keeps existing company "name" (VStr s) Hget).
    + simpl; rewrite Hk; reflexivity.
    + simpl; destruct (String.eqb_spec s ""); [| reflexivity].
      subst s; simpl in Hk; congruence.
  - simpl in Hk; injection Hk as Hk; congruence.
Qed.

Lemma insert_all_spec (A : list dict) (acc : list (string * dict)) :
  forallb Spec.text_name A = true -> Spec.keyed acc ->
  exists merged,
    VCDataEnricher.insert_all VCDataEnricher.company_key A acc = Ok merged /\
    Spec.keyed merged /\
    forall k, k <> "" ->
      assoc_get merged k =
      match Spec.record_for A k with
      | Some a => Some a
      | None => assoc_get acc k
      end.
Proof.
  unfold VCDataEnricher.insert_all; revert acc.
  induction A as [| r A IH]; intros acc Htext Hacc; simpl.
  - exists acc; split; [reflexivity | split; [exact Hacc | intros; reflexivity]].
  - simpl in Htext; apply andb_prop in Htext; destruct Htext as [Hr HA].
    rewrite (text_name_key r Hr); simpl.
    set (acc' := if String.eqb (Spec.name_of r) "" then acc
                 else assoc_set acc (Spec.name_of r) r).
    assert (Hacc' : Spec.keyed acc').
    { subst acc'; destruct (String.eqb_spec (Spec.name_of r) "") as [E | E];
        [exact Hacc | apply keyed_set; [exact Hacc | apply text_name_key; exact Hr | exact E]]. }
    destruct (IH acc' HA Hacc') as (merged & Hrun & Hkeyed & Hget).
    exists merged; split; [exact Hrun | split; [exact Hkeyed |]].
    intros k Hk; rewrite (Hget k Hk).
    destruct (Spec.record_for A k); [reflexivity |].
    subst acc'; destruct (String.eqb_spec (Spec.name_of r) k) as [E | E].
    + subst k; destruct (String.eqb_spec (Spec.name_of r) ""); [contradiction |].
      apply assoc_get_set_same.
    + destruct (String.eqb (Spec.name_of r) ""); [reflexivity |].
      apply assoc_get_set_other; exact E.
Qed.

Lemma gaps_filled_refl (B : list dict) (k : string) (a : dict) :
  Spec.gaps_filled B k a a.
Proof.
  split; [intros F v H _; exact H | intros F H; contradiction H; reflexivity].
Qed.

Lemma gaps_filled_step (B : list dict) (k : string) (a m r : dict) :
  Spec.gaps_filled B k a m -> In r B -> Spec.name_of r = k ->
  Spec.gaps_filled B k a (VCDataEnricher.fill_gaps m r).
Proof.
  intros [Hkeep Hdiff] Hin Hname; split.
  - intros F v Hget Htrue.
    apply fill_gaps_keeps; [apply Hkeep; assumption | exact Htrue].
  - intros F Hne.
    destruct (fill_gaps_field m r F) as [Hsame | (Hgap & v & Hv & Htrue & Hfin)].
    + rewrite Hsame in Hne.
      destruct (Hdiff F Hne) as (Hg & b & v & Hb & Hn & Hf & Ht & Hm).
      split; [exact Hg |].
      exists b, v; repeat split; try assumption.
      rewrite Hsame; exact Hm.
    + split.
      * unfold Spec.falsy_or_missing in *.
        destruct (assoc_get a F) as [va |] eqn:Ea; [| exact I].
        destruct (truthy va) eqn:Ta; [| reflexivity].
        rewrite (Hkeep F va Ea Ta) in Hgap; congruence.
      * exists r, v; repeat split; assumption.
Qed.

Lemma add_or_update_spec (B bs : list dict) (acc : list (string * dict)) :
  incl bs B -> forallb Spec.text_name bs = true -> Spec.keyed acc ->
  exists merged,
    VCDataEnricher.add_or_update VCDataEnricher.company_key bs acc = Ok merged /\
    Spec.keyed merged /\
    forall k a m0,
      assoc_get acc k = Some m0 -> Spec.gaps_filled B k a m0 ->
      exists m, assoc_get merged k = Some m /\ Spec.gaps_filled B k a m.
Proof.
  unfold VCDataEnricher.add_or_update; revert acc.
  induction bs as [| r bs IH]; intros acc Hincl Htext Hacc; simpl.
  - exists acc; split; [reflexivity | split; [exact Hacc |]].
    intros k a m0 Hget Hfilled; exists m0; split; assumption.
  - simpl in Htext; apply andb_prop in Htext; destruct Htext as [Hr Hbs].
    assert (HrB : In r B) by (apply Hincl; left; reflexivity).
    assert (Hincl' : incl bs B) by (intros x Hx; apply Hincl; right; exact Hx).
    rewrite (text_name_key r Hr); simpl.
    destruct (String.eqb_spec (Spec.name_of r) "") as [E | E]; simpl.
    + apply IH; assumption.
    + destruct (assoc_get acc (Spec.name_of r)) as [existing |] eqn:Hex; simpl.
      * assert (Hkey : VCDataEnricher.company_key existing = Ok (Spec.name_of r))
          by (apply (proj2 Hacc), assoc_get_in; exact Hex).
        destruct (IH (assoc_set acc (Spec.name_of r)
                        (VCDataEnricher.fill_gaps existing r)) Hincl' Hbs)
          as (merged & Hrun & Hkeyed & Hget).
        { apply keyed_set; [exact Hacc | apply fill_gaps_key; assumption | exact E]. }
        exists merged; split; [exact Hrun | split; [exact Hkeyed |]].
        intros k a m0 Hk Hfilled.
        destruct (String.eqb_spec (Spec.name_of r) k) as [Ek | Ek].
        -- subst k; rewrite Hex in Hk; injection Hk as <-.
           apply (Hget (Spec.name_of r) a (VCDataEnricher.fill_gaps existing r));
             [apply assoc_get_set_same | apply gaps_filled_step; auto].
        -- apply (Hget k a m0); [| exact Hfilled].
           rewrite assoc_get_set_other by exact Ek; exact Hk.
      * destruct (IH (assoc_set acc (Spec.name_of r) r) Hincl' Hbs)
          as (merged & Hrun & Hkeyed & Hget).
        { apply keyed_set; [exact Hacc | apply text_name_key; exact Hr | exact E]. }
        exists merged; split; [exact Hrun | split; [exact Hkeyed |]].
        intros k a m0 Hk Hfilled.
        destruct (String.eqb_spec (Spec.name_of r) k) as [Ek | Ek].
        -- subst k; congruence.
        -- apply (Hget k a m0); [| exact Hfilled].
           rewrite assoc_get_set_other by exact Ek; exact Hk.
Qed.

Lemma keyed_nil : Spec.keyed [].
Proof. split; [constructor | intros k r []]. Qed.

(** C1, as the code has it.  For company lists whose names are text: the
    merge returns, and for every name that [A] has a record for, the result
    holds exactly one record of that name.  With [A]'s record for the name
    the last record of [A] that carries it -- the mapping keeps no earlier
    one -- each truthy field of that record stands in the merged record
    with [A]'s value, whatever [B] says; and a field that differs from
    [A]'s was falsy or missing in [A] and carries a truthy value that a
    record of [B] with that name has for it. *)
Theorem merge_precedence (A B : list dict) :
  forallb Spec.text_name A = true ->
  forallb Spec.text_name B = true ->
  exists merged,
    VCDataEnricher._merge_company_data A B = Ok merged /\
    forall name a,
      name <> "" -> Spec.record_for A name = Some a ->
      exists m,
        In m merged /\ Spec.name_of m = name /\
        (forall m', In m' merged -> Spec.name_of m' = name -> m' = m) /\
        (forall F v,
            assoc_get a F = Some v -> truthy v = true -> assoc_get m F = Some v) /\
        (forall F,
            assoc_get m F <> assoc_get a F ->
            Spec.falsy_or_missing a F /\
            exists b v,
              In b B /\ Spec.name_of b = name /\ In (F, v) b /\
              truthy v = true /\ assoc_get m F = Some v).
Proof.
  intros HA HB; unfold VCDataEnricher._merge_company_data.
  destruct (insert_all_spec A [] HA keyed_nil) as (m1 & Hrun1 & Hk1 & Hget1).
  rewrite Hrun1; simpl bind.
  destruct (add_or_update_spec B B m1 (incl_refl B) HB Hk1)
    as (m2 & Hrun2 & Hk2 & Hget2).
  rewrite Hrun2; simpl bind.
  exists (assoc_values m2); split; [reflexivity |].
  intros name a Hname Hrec.
  specialize (Hget1 name Hname); rewrite Hrec in Hget1.
  destruct (Hget2 name a a Hget1 (gaps_filled_refl B name a))
    as (m & Hm & Hkeep & Hdiff).
  pose proof (assoc_get_in m2 name m Hm) as Hin.
  exists m; split; [| split; [| split; [| split]]].
  - unfold assoc_values; apply in_map_iff; exists (name, m); split; [reflexivity | exact Hin].
  - unfold Spec.name_of; rewrite (proj1 (proj2 Hk2 name m Hin)); reflexivity.
  - intros m' Hin' Hname'.
    unfold assoc_values in Hin'; apply in_map_iff in Hin'.
    destruct Hin' as [[k' r'] [Heq Hin']]; simpl in Heq; subst r'.
    pose proof (proj1 (proj2 Hk2 k' m' Hin')) as Hkey'.
    unfold Spec.name_of in Hname'; rewrite Hkey' in Hname'; subst k'.
    exact (nodup_keys_functional m2 name m' m (proj1 Hk2) Hin' Hin).
  - exact Hkeep.
  - exact Hdiff.
Qed.

Lemma merge_precedence_witness :
  let A := [ [("name", VStr "Acme"); ("website", VStr "a.com")] ] in
  let B := [ [("name", VStr "ACME"); ("website", VStr "b.com");
              ("founded", VStr "2020")] ] in
  (forallb Spec.text_name A = true /\ forallb Spec.text_name B = true) /\
  exists merged,
    VCDataEnricher._merge_company_data A B = Ok merged /\
    forall name a,
      name <> "" -> Spec.record_for A name = Some a ->
      exists m,
        In m merged /\ Spec.name_of m = name /\
        (forall m', In m' merged -> Spec.name_of m' = name -> m' = m) /\
        (forall F v,
            assoc_get a F = Some v -> truthy v = true -> assoc_get m F = Some v) /\
        (forall F,
            assoc_get m F <> assoc_get a F ->
            Spec.falsy_or_missing a F /\
            exists b v,
              In b B /\ Spec.name_of b = name /\ In (F, v) b /\
              truthy v = true /\ assoc_get m F = Some v).
Proof.
  split; [split; reflexivity |].
  apply (merge_precedence
           [ [("name", VStr "Acme"); ("website", VStr "a.com")] ]
           [ [("name", VStr "ACME"); ("website", VStr "b.com");
              ("founded", VStr "2020")] ]);
    reflexivity.
Defined.

(** Two records of [A] carry one name: the mapping keeps the later one, so
    the truthy website of the earlier one is gone, and the website of [B]
    fills the gap of the later one. *)
Lemma merge_drops_earlier_record :
  let a1 := [("name", VStr "Acme"); ("website", VStr "a.com")] in
  let a2 := [("name", VStr "ACME"); ("founded", VStr "1999")] in
  let b := [("name", VStr "acme"); ("website", VStr "b.com")] in
  (Spec.name_of a1 = "acme" /\ Spec.name_of a2 = "acme"
   /\ Spec.name_of b = "acme")
  /\ (assoc_get a1 "website" = Some (VStr "a.com")
      /\ truthy (VStr "a.com") = true)
  /\ VCDataEnricher._merge_company_data [a1; a2] [b]
     = Ok [ [("name", VStr "ACME"); ("founded", VStr "1999");
             ("website", VStr "b.com")] ]
  /\ (forall merged m,
         VCDataEnricher._merge_company_data [a1; a2] [b] = Ok merged ->
         In m merged -> assoc_get m "website" <> assoc_get a1 "website").
Proof.
  cbv zeta.
  split; [repeat split |].
  split; [split; reflexivity |].
  split; [reflexivity |].
  intros merged m Hrun Hin.
  vm_compute in Hrun; injection Hrun as <-.
  destruct Hin as [<- | []]; vm_compute; discriminate.
Qed.

Lemma insert_all_distinct (A : list dict) (acc : list (string * dict)) :
  NoDup (map fst acc ++ map Spec.name_of A) ->
  ~ In "" (map Spec.name_of A) ->
  VCDataEnricher.insert_all VCDataEnricher.company_key A acc
  = Ok (acc ++ map (fun r => (Spec.name_of r, r)) A).
Proof.
  unfold VCDataEnricher.insert_all; revert acc.
  induction A as [| r A IH]; intros acc Hnd Hne; simpl.
  - rewrite app_nil_r; reflexivity.
  - simpl in Hnd, Hne.
    assert (Hr : Spec.name_of r <> "") by (intros E; apply Hne; left; exact E).
    assert (HA : ~ In "" (map Spec.name_of A)) by (intros E; apply Hne; right; exact E).
    assert (Hkey : VCDataEnricher.company_key r = Ok (Spec.name_of r)).
    { unfold Spec.name_of in *.
      destruct (VCDataEnricher.company_key r); [reflexivity | contradiction Hr; reflexivity]. }
    rewrite Hkey; simpl.
    destruct (String.eqb_spec (Spec.name_of r) ""); [contradiction |].
    assert (Hfresh : assoc_get acc (Spec.name_of r) = None).
    { apply assoc_get_none; intros Hin.
      apply NoDup_remove_2 in Hnd; apply Hnd, in_or_app; left; exact Hin. }
    rewrite (assoc_set_new acc _ r Hfresh).
    rewrite IH.
    + rewrite <- app_assoc; reflexivity.
    + rewrite map_app; simpl; rewrite <- app_assoc; exact Hnd.
    + exact HA.
Qed.

(** C6, as the code has it.  When every record of [A] has a non-empty name
    and no two names agree up to case, merging [A] with the empty list
    returns [A]: the same records, in the same order. *)
Theorem merge_empty_identity (A : list dict) :
  NoDup (map Spec.name_of A) ->
  ~ In "" (map Spec.name_of A) ->
  VCDataEnricher._merge_company_data A [] = Ok A.
Proof.
  intros Hnd Hne; unfold VCDataEnricher._merge_company_data.
  rewrite (insert_all_distinct A [] Hnd Hne); simpl.
  unfold assoc_values; rewrite map_map; simpl; rewrite map_id; reflexivity.
Qed.

Lemma merge_empty_identity_witness :
  let A := [ [("name", VStr "Acme"); ("website", VStr "a.com")];
             [("name", VStr "Bolt"); ("founded", VStr "2020")] ] in
  VCDataEnricher._merge_company_data A [] = Ok A.
Proof.
  apply (merge_empty_identity
           [ [("name", VStr "Acme"); ("website", VStr "a.com")];
             [("name", VStr "Bolt"); ("founded", VStr "2020")] ]).
  - repeat constructor; simpl; intuition discriminate.
  - simpl; intuition discriminate.
Defined.

(** A record without a name is dropped and a repeated name keeps one
    record, so the merge with the empty list is not the identity. *)
Lemma merge_empty_not_identity :
  let A := [ [("name", VStr "Acme"); ("website", VStr "a.com")];
             [("website", VStr "b.com")];
             [("name", VStr "ACME"); ("founded", VStr "2020")] ] in
  VCDataEnricher._merge_company_data A []
  = Ok [ [("name", VStr "ACME"); ("founded", VStr "2020")] ]
  /\ VCDataEnricher._merge_company_data A [] <> Ok A.
Proof.
  split; [reflexivity | discriminate].
Qed.

(** * Investment thesis *)

Lemma append_assoc (a b c : string) : (a +++ b) +++ c = a +++ b +++ c.
Proof. induction a as [| x a IH]; simpl; [reflexivity | rewrite IH; reflexivity]. Qed.

Lemma append_empty_r (a : string) : a +++ "" = a.
Proof. induction a as [| x a IH]; simpl; [reflexivity | rewrite IH; reflexivity]. Qed.

Lemma strings_of_texts (vs : list value) :
  forallb (fun v => match v with VStr _ => true | _ => false end) vs = true ->
  strings_of vs = Ok (map Spec.text_of vs).
Proof.
  induction vs as [| v vs IH]; simpl; intros H; [reflexivity |].
  apply andb_prop in H; destruct H as [Hv Hvs].
  destruct v; try discriminate; rewrite (IH Hvs); reflexivity.
Qed.

Lemma dict_get_cases (d : dict) (k : string) (a b : value) :
  (exists v, dict_get d k a = v /\ dict_get d k b = v /\ assoc_get d k = Some v)
  \/ (dict_get d k a = a /\ dict_get d k b = b).
Proof.
  unfold dict_get; destruct (assoc_get d k) as [v |];
    [left; exists v; repeat split | right; split; reflexivity].
Qed.

Lemma sample_values (cs : list dict) :
  forallb (fun c => Spec.text_or_empty (dict_get c "name" VNone)) cs = true ->
  forallb (fun v => match v with VStr _ => true | _ => false end)
    (Spec.samples_of cs) = true
  /\ map Spec.text_of (Spec.samples_of cs)
     = filter (fun n => negb (String.eqb n ""))
         (map (fun c => Spec.text_of (dict_get c "name" VNone)) cs).
Proof.
  unfold Spec.samples_of.
  induction cs as [| c cs IH]; intros H; [split; reflexivity |].
  cbn [forallb] in H; apply andb_prop in H; destruct H as [Hc Hcs].
  destruct (IH Hcs) as [IH1 IH2]; clear IH.
  cbn [filter map].
  destruct (dict_get_cases c "name" VNone (VStr "")) as [(v & E1 & E2 & _) | [E1 E2]];
    rewrite E1 in *; [| cbn; split; assumption].
  destruct v as [| b | n | s | l | d]; cbn in Hc |- *.
  - split; assumption.
  - destruct b; [discriminate | split; assumption].
  - destruct (n =? 0); cbn in Hc |- *; [split; assumption | discriminate].
  - destruct (String.eqb s ""); cbn; [split; assumption |].
    rewrite E2; cbn; split; [exact IH1 | f_equal; exact IH2].
  - destruct l; cbn in Hc |- *; [split; assumption | discriminate].
  - destruct d; cbn in Hc |- *; [split; assumption | discriminate].
Qed.

Lemma derived_pattern_text (sectors stages : list string) (portfolio : list dict) :
  forallb (fun c => Spec.text_or_empty (dict_get c "name" VNone))
    (firstn 3 portfolio) = true ->
  VCDataEnricher.derived_pattern sectors stages portfolio
  = Ok (Spec.pattern_thesis sectors stages portfolio).
Proof.
  intros Hnames.
  unfold VCDataEnricher.derived_pattern, Spec.pattern_thesis, Spec.sample_names, take.
  destruct (sample_values (firstn 3 portfolio) Hnames) as [Htexts Hmap].
  unfold Spec.samples_of in Htexts, Hmap.
  set (focus := match sectors with [] => _ | _ :: _ => _ end).
  set (focus' := match firstn 3 sectors with [] => _ | _ :: _ => _ end).
  assert (Hfocus : focus = "Pattern: " +++ focus').
  { subst focus focus'; destruct sectors as [| s0 sectors], stages as [| t0 stages];
      rewrite ?append_assoc; reflexivity. }
  rewrite Hfocus.
  destruct (3 <=? List.length portfolio)%nat.
  - rewrite <- Hmap.
    set (samples := map _ (filter _ (firstn 3 portfolio))) in *.
    destruct samples as [| v vs] eqn:Es.
    + cbn [map]; rewrite append_empty_r; reflexivity.
    + unfold join_values; rewrite (strings_of_texts (v :: vs) Htexts).
      cbn [bind].
      destruct (map Spec.text_of (v :: vs)) as [| n ns] eqn:En; [discriminate |].
      rewrite !append_assoc; reflexivity.
  - rewrite append_empty_r; reflexivity.
Qed.

Lemma text_or_empty_cases (v : value) :
  Spec.text_or_empty v = true ->
  (exists s, v = VStr s /\ String.eqb s "" = false /\ truthy v = true)
  \/ (truthy v = false /\ Spec.text_of v = "").
Proof.
  destruct v as [| b | n | s | l | d]; cbn; intros H;
    try (right; split; [destruct (truthy _) eqn:E; cbn in *; congruence | reflexivity]; fail).
  - right; split; reflexivity.
  - right; destruct b; [discriminate | split; reflexivity].
  - right; destruct (n =? 0); [split; reflexivity | discriminate].
  - destruct (String.eqb_spec s "") as [-> | Hs].
    + right; split; reflexivity.
    + left; exists s; repeat split.
      destruct (String.eqb_spec s ""); [contradiction | reflexivity].
  - right; destruct l; [split; reflexivity | discriminate].
  - right; destruct d; [split; reflexivity | discriminate].
Qed.

(** C2, as the code has it.  For sources whose descriptions are text (or
    empty) and portfolio samples whose names are text: when the chosen
    description -- the first source's if it is not empty, the second's
    otherwise -- has more than 20 characters, the thesis is that
    description behind "Thesis: "; otherwise it is the "Pattern: " thesis
    made of the first three sectors, the stages, and the names among the
    first three companies of a portfolio of three or more. *)
Theorem thesis_derivation (cb_info pb_info : dict) (sectors stages : list string)
  (portfolio : list dict) :
  Spec.text_or_empty (Spec.description_of cb_info) = true ->
  Spec.text_or_empty (Spec.description_of pb_info) = true ->
  forallb (fun c => Spec.text_or_empty (dict_get c "name" VNone))
    (firstn 3 portfolio) = true ->
  let description := Spec.chosen_description cb_info pb_info in
  VCDataEnricher._derive_investment_thesis cb_info pb_info sectors stages portfolio
  = Ok (if (20 <? String.length description)%nat
        then "Thesis: " +++ description
        else Spec.pattern_thesis sectors stages portfolio).
Proof.
  intros Hcb Hpb Hnames description; subst description.
  unfold VCDataEnricher._derive_investment_thesis, Spec.chosen_description,
    Spec.description_of in *.
  set (cb := dict_get cb_info "description" (VStr "")) in *.
  set (pb := dict_get pb_info "description" (VStr "")) in *.
  unfold py_or.
  destruct (text_or_empty_cases cb Hcb) as [(s & -> & Es & Ts) | [Tc Ec]].
  - cbn [Spec.text_of]; rewrite Ts, Ts, Es; cbn [py_len bind py_str].
    destruct (20 <? String.length s)%nat;
      [reflexivity | apply derived_pattern_text; exact Hnames].
  - rewrite Tc, Ec; cbn [String.eqb].
    destruct (text_or_empty_cases pb Hpb) as [(s & -> & Es & Ts) | [Tp Ep]].
    + rewrite Ts; cbn [Spec.text_of py_len bind py_str].
      destruct (20 <? String.length s)%nat;
        [reflexivity | apply derived_pattern_text; exact Hnames].
    + rewrite Tp, Ep; cbn [bind String.length Nat.ltb Nat.leb].
      apply derived_pattern_text; exact Hnames.
Qed.

Lemma thesis_derivation_witness :
  let cb_info := [("description", VStr "Seed fund")] in
  let pb_info :=
    [("description",
      VStr "A venture capital firm with a focus on enterprise technology.")] in
  let portfolio := [ [("name", VStr "Acme")]; [("name", VStr "")];
                     [("name", VStr "Bolt")] ] in
  VCDataEnricher._derive_investment_thesis cb_info pb_info
    ["Fintech"] ["Seed"; "Series A"] portfolio
  = Ok "Pattern: Invests in Fintech at Seed, Series A stages. Portfolio includes Acme, Bolt.".
Proof.
  apply (thesis_derivation
           [("description", VStr "Seed fund")]
           [("description",
             VStr "A venture capital firm with a focus on enterprise technology.")]
           ["Fintech"] ["Seed"; "Series A"]
           [ [("name", VStr "Acme")]; [("name", VStr "")]; [("name", VStr "Bolt")] ]);
    reflexivity.
Defined.

(** The second source's description has more than 20 characters, yet the
    thesis is not that description behind "Thesis: ": the first source's
    short description is the one chosen. *)
Lemma thesis_ignores_second_description :
  let cb_info := [("description", VStr "Seed fund")] in
  let pb_desc :=
    "A venture capital firm with a focus on enterprise technology." in
  let pb_info := [("description", VStr pb_desc)] in
  (20 < String.length pb_desc)%nat
  /\ VCDataEnricher._derive_investment_thesis cb_info pb_info [] [] []
     = Ok "Pattern: General investment approach across various sectors and stages."
  /\ VCDataEnricher._derive_investment_thesis cb_info pb_info [] [] []
     <> Ok ("Thesis: " +++ pb_desc).
Proof.
  split; [vm_compute; lia |].
  split; [reflexivity | discriminate].
Qed.

(** * Enrichment *)

Lemma dict_extend_other (d extra : dict) (k : string) :
  ~ In k (map fst extra) ->
  assoc_get (dict_extend d extra) k = assoc_get d k.
Proof.
  unfold dict_extend; revert d.
  induction extra as [| [k' v'] extra IH]; intros d Hnot; simpl; [reflexivity |].
  simpl in Hnot.
  rewrite IH by tauto.
  apply assoc_get_set_other; intros E; apply Hnot; left; exact E.
Qed.

Lemma dict_extend_in (d extra : dict) (k : string) (v : value) :
  NoDup (map fst extra) -> In (k, v) extra ->
  assoc_get (dict_extend d extra) k = Some v.
Proof.
  unfold dict_extend; revert d.
  induction extra as [| [k' v'] extra IH]; intros d Hnd Hin; simpl; [contradiction |].
  inversion Hnd as [| ? ? Hnot Hnd']; subst.
  destruct Hin as [Heq | Hin].
  - injection Heq as -> ->.
    change (fold_left _ extra (assoc_set d k v))
      with (dict_extend (assoc_set d k v) extra).
    rewrite dict_extend_other by exact Hnot.
    apply assoc_get_set_same.
  - apply IH; assumption.
Qed.

Lemma default_fields_nodup : NoDup (map fst VCDataEnricher.default_fields).
Proof.
  repeat constructor; cbn; intuition discriminate.
Qed.





(** The enrichment of one firm never raises. *)
Lemma enrich_vc_data_returns {W : Type} (cb pb : VCDataEnricher.Provider W)
  (vc : dict) (s : VCDataEnricher.state) :
  exists out, fst (VCDataEnricher.enrich_vc_data cb pb vc s) = Ok out.
Proof.
  unfold VCDataEnricher.enrich_vc_data.
  destruct (negb (truthy _)); [eexists; reflexivity |].
  destruct (VCDataEnricher.enrich_body cb pb vc _ s) as [[e | x] s'];
    eexists; reflexivity.
Qed.

(** When the [try] block raises, the record is the input with the
    defaults. *)
Lemma enrich_vc_data_caught {W : Type} (cb pb : VCDataEnricher.Provider W)
  (vc : dict) (s : VCDataEnricher.state) (x : exn) :
  truthy (Spec.firm_name vc) = true ->
  fst (VCDataEnricher.enrich_body cb pb vc (Spec.firm_name vc) s) = Raise x ->
  fst (VCDataEnricher.enrich_vc_data cb pb vc s)
  = Ok (dict_extend vc VCDataEnricher.default_fields).
Proof.
  intros Hname Hraise; unfold VCDataEnricher.enrich_vc_data.
  unfold Spec.firm_name in *; rewrite Hname; cbn [negb].
  destruct (VCDataEnricher.enrich_body cb pb vc _ s) as [[e | y] s'];
    cbn [fst] in *; [discriminate | reflexivity].
Qed.

Lemma enrich_loop_spec {W : Type} (cb pb : VCDataEnricher.Provider W)
  (vcs acc : list dict) (s : VCDataEnricher.state) :
  exists out,
    fst (VCDataEnricher.enrich_loop cb pb vcs acc s) = Ok (acc ++ out) /\
    Forall2
      (fun vc o =>
         exists si, fst (VCDataEnricher.enrich_vc_data cb pb vc si) = Ok o)
      vcs out.
Proof.
  revert acc s; induction vcs as [| vc vcs IH]; intros acc s; simpl.
  - exists []; split; [rewrite app_nil_r; reflexivity | constructor].
  - destruct (enrich_vc_data_returns cb pb vc s) as [o Ho].
    destruct (VCDataEnricher.enrich_vc_data cb pb vc s) as [[o' | x] s'] eqn:Hrun;
      cbn [fst] in Ho; [| discriminate].
    injection Ho as ->.
    destruct (IH (acc ++ [o]) s') as (out & Hout & Hall).
    exists (o :: out); split.
    + rewrite Hout, <- app_assoc; reflexivity.
    + constructor; [| exact Hall].
      exists s; rewrite Hrun; reflexivity.
Qed.

(** C7.  For every list of firm records, whatever the providers do and
    whatever the cache holds, the batch enrichment returns one record per
    input record, in input order: each is the single-firm enrichment of its
    input, in the state the batch had reached.  A single-firm enrichment
    whose [try] block raises yields the input record with the defaults: every
    input field outside the derived ones is kept, and every derived field
    has its default (empty text for "About" and the thesis, empty lists,
    "Unknown", and "USA" for the geography). *)
Theorem batch_enrichment_total {W : Type} (cb pb : VCDataEnricher.Provider W)
  (vcs : list dict) (s : VCDataEnricher.state) :
  exists out,
    fst (VCDataEnricher.enrich_multiple_vcs cb pb vcs s) = Ok out /\
    List.length out = List.length vcs /\
    Forall2
      (fun vc o =>
         exists si,
           fst (VCDataEnricher.enrich_vc_data cb pb vc si) = Ok o /\
           (truthy (Spec.firm_name vc) = true ->
            forall x,
              fst (VCDataEnricher.enrich_body cb pb vc (Spec.firm_name vc) si)
              = Raise x ->
              (forall f,
                  ~ In f (map fst VCDataEnricher.default_fields) ->
                  assoc_get o f = assoc_get vc f)
              /\ (forall f v,
                     In (f, v) VCDataEnricher.default_fields ->
                     assoc_get o f = Some v)))
      vcs out.
Proof.
  unfold VCDataEnricher.enrich_multiple_vcs.
  destruct (enrich_loop_spec cb pb vcs [] s) as (out & Hout & Hall).
  exists out; split; [exact Hout |].
  split; [symmetry; eapply Forall2_length; exact Hall |].
  eapply Forall2_impl; [| exact Hall].
  intros vc o [si Hsi]; exists si; split; [exact Hsi |].
  intros Hname x Hraise.
  rewrite (enrich_vc_data_caught cb pb vc si x Hname Hraise) in Hsi.
  assert (Ho : o = dict_extend vc VCDataEnricher.default_fields) by congruence.
  rewrite Ho; split.
  - intros f Hf; apply dict_extend_other; exact Hf.
  - intros f v Hin; apply dict_extend_in; [exact default_fields_nodup | exact Hin].
Qed.

(** A batch of three against a provider that is down: three records come
    back, each with the input fields and the defaults. *)
Lemma batch_enrichment_total_witness :
  let vcs := [ [("Name", VStr "Acme Ventures"); ("Website", VStr "acmeventures.com")];
               [("Website", VStr "betacapital.com")];
               [("Name", VStr "Gamma Partners")] ] in
  exists out,
    fst (VCDataEnricher.enrich_multiple_vcs Spec.offline Spec.offline vcs
           (VCDataEnricher.empty_cache, tt)) = Ok out /\
    List.length out = 3%nat.
Proof.
  destruct (batch_enrichment_total Spec.offline Spec.offline
              [ [("Name", VStr "Acme Ventures"); ("Website", VStr "acmeventures.com")];
                [("Website", VStr "betacapital.com")];
                [("Name", VStr "Gamma Partners")] ]
              (VCDataEnricher.empty_cache, tt)) as (out & Hout & Hlen & _).
  exists out; split; [exact Hout | exact Hlen].
Defined.

(** * Sorting in descending order *)

Section SortDescFacts.
Context {X : Type} (key : X -> Z).

Let after (x y : X) : Prop := key y <= key x.

Lemma insert_desc_perm (x : X) (l : list X) :
  Permutation (insert_desc key x l) (x :: l).
Proof.
  induction l as [| y l IH]; simpl.
  - apply Permutation_refl.
  - destruct (key y <? key x).
    + apply Permutation_refl.
    + eapply Permutation_trans; [apply perm_skip, IH | apply perm_swap].
Qed.

Lemma insert_desc_sorted (x : X) (l : list X) :
  StronglySorted after l -> StronglySorted after (insert_desc key x l).
Proof.
  induction 1 as [| y l Hs IH Hall]; simpl.
  - constructor; constructor.
  - destruct (Z.ltb_spec (key y) (key x)) as [Hlt | Hge].
    + constructor.
      * constructor; assumption.
      * constructor; [unfold after; lia |].
        eapply Forall_impl; [| exact Hall]; unfold after; simpl; intros; lia.
    + constructor; [exact IH |].
      eapply Permutation_Forall; [apply Permutation_sym, insert_desc_perm |].
      constructor; [exact Hge | exact Hall].
Qed.

Lemma sorted_desc_from (l acc : list X) :
  StronglySorted after acc ->
  Permutation (fold_left (fun acc x => insert_desc key x acc) l acc) (l ++ acc)
  /\ StronglySorted after (fold_left (fun acc x => insert_desc key x acc) l acc).
Proof.
  revert acc; induction l as [| x l IH]; intros acc Hacc; simpl.
  - split; [apply Permutation_refl | exact Hacc].
  - destruct (IH (insert_desc key x acc) (insert_desc_sorted x acc Hacc)) as [Hp Hs].
    split; [| exact Hs].
    eapply Permutation_trans; [exact Hp |].
    eapply Permutation_trans;
      [apply Permutation_app_head, insert_desc_perm
      | apply Permutation_sym, Permutation_middle].
Qed.

Lemma sorted_desc_perm (l : list X) : Permutation (sorted_desc key l) l.
Proof.
  destruct (sorted_desc_from l [] (SSorted_nil _)) as [Hp _].
  rewrite app_nil_r in Hp; exact Hp.
Qed.

Lemma sorted_desc_sorted (l : list X) :
  StronglySorted (fun x y => key y <= key x) (sorted_desc key l).
Proof. exact (proj2 (sorted_desc_from l [] (SSorted_nil _))). Qed.

End SortDescFacts.

Lemma sorted_app_inv {X : Type} (R : X -> X -> Prop) (l1 l2 : list X) :
  StronglySorted R (l1 ++ l2) ->
  StronglySorted R l1 /\ forall x y, In x l1 -> In y l2 -> R x y.
Proof.
  induction l1 as [| a l1 IH]; simpl; intros H.
  - split; [constructor | intros x y []].
  - inversion H as [| ? ? Hs Hall]; subst.
    destruct (IH Hs) as [Hs1 Hcross].
    rewrite Forall_app in Hall; destruct Hall as [Ha1 Ha2].
    split; [constructor; assumption |].
    intros x y [<- | Hx] Hy.
    + rewrite Forall_forall in Ha2; apply Ha2; exact Hy.
    + apply Hcross; assumption.
Qed.

Lemma sorted_map {X : Type} (key : X -> Z) (l : list X) :
  StronglySorted (fun x y => key y <= key x) l -> Spec.descending (map key l).
Proof.
  unfold Spec.descending; induction 1 as [| a l Hs IH Hall]; simpl; constructor.
  - exact IH.
  - rewrite Forall_map; exact Hall.
Qed.

(** * The sector classifier *)

Lemma keyword_score_sum (text_lower : string) (keywords : list string) :
  VCWebScraper.keyword_score text_lower keywords
  = Spec.occurrences text_lower keywords.
Proof.
  unfold VCWebScraper.keyword_score.
  assert (H : forall acc,
             fold_left (fun total keyword => total + Z.of_nat (str_count text_lower keyword))
               keywords acc
             = acc + Spec.occurrences text_lower keywords).
  { induction keywords as [| k ks IH]; intros acc; simpl; [lia |].
    rewrite IH; lia. }
  rewrite H; lia.
Qed.

Section Classifier.
Variable vocabulary : list (string * list string).
Variable text_lower : string.
Hypothesis names_distinct : NoDup (map fst vocabulary).

Let is_flagged (entry : string * list string) : bool :=
  VCWebScraper.flagged text_lower (snd entry).

Let scored (entry : string * list string) : string * Z :=
  (fst entry, VCWebScraper.keyword_score text_lower (snd entry)).

Lemma flagged_fold (entries : list (string * list string)) (acc : list string) :
  fold_left
    (fun sectors entry =>
       let '(sector, keywords) := entry in
       if VCWebScraper.flagged text_lower keywords
       then sectors ++ [sector] else sectors)
    entries acc
  = acc ++ map fst (filter is_flagged entries).
Proof.
  revert acc; induction entries as [| [s k] entries IH]; intros acc; simpl.
  - rewrite app_nil_r; reflexivity.
  - rewrite IH; unfold is_flagged; simpl.
    destruct (VCWebScraper.flagged text_lower k); simpl;
      [rewrite <- app_assoc |]; reflexivity.
Qed.

Lemma entry_by_name (e e' : string * list string) :
  In e vocabulary -> In e' vocabulary -> fst e = fst e' -> e = e'.
Proof.
  destruct e as [s k], e' as [s' k']; simpl; intros H H' <-.
  f_equal; exact (nodup_keys_functional vocabulary s k k' names_distinct H H').
Qed.

Lemma member_flagged (e : string * list string) :
  In e vocabulary ->
  existsb (String.eqb (fst e)) (map fst (filter is_flagged vocabulary))
  = is_flagged e.
Proof.
  intros He; destruct (is_flagged e) eqn:Hf.
  - apply existsb_exists; exists (fst e); split; [| apply String.eqb_refl].
    apply in_map, filter_In; split; assumption.
  - destruct (existsb _ _) eqn:Hex; [| reflexivity].
    apply existsb_exists in Hex; destruct Hex as (s & Hin & Heq).
    apply String.eqb_eq in Heq; subst s.
    apply in_map_iff in Hin; destruct Hin as (e' & Hname & Hin').
    apply filter_In in Hin'; destruct Hin' as [Hin' Hf'].
    rewrite (entry_by_name e e' He Hin' (eq_sym Hname)) in Hf; congruence.
Qed.

Lemma scores_fold (sectors : list string) (entries : list (string * list string))
  (acc : list (string * Z)) :
  NoDup (map fst acc ++ map fst entries) ->
  fold_left
    (fun scores entry =>
       let '(sector, keywords) := entry in
       if existsb (String.eqb sector) sectors
       then assoc_set scores sector
              (VCWebScraper.keyword_score text_lower keywords)
       else scores)
    entries acc
  = acc ++ map scored
             (filter (fun e => existsb (String.eqb (fst e)) sectors) entries).
Proof.
  revert acc; induction entries as [| [s k] entries IH]; intros acc Hnd; simpl.
  - rewrite app_nil_r; reflexivity.
  - simpl in Hnd.
    assert (Hfresh : assoc_get acc s = None).
    { apply assoc_get_none; intros Hin.
      apply NoDup_remove_2 in Hnd; apply Hnd, in_or_app; left; exact Hin. }
    destruct (existsb (String.eqb s) sectors); simpl.
    + rewrite (assoc_set_new acc s _ Hfresh), IH.
      * rewrite <- app_assoc; reflexivity.
      * rewrite map_app; simpl; rewrite <- app_assoc; exact Hnd.
    + apply IH; apply NoDup_remove_1 in Hnd; exact Hnd.
Qed.

(** The classifier in closed form. *)
Lemma extract_from_closed (text : string) :
  lower text = text_lower ->
  let flagged_entries := filter is_flagged vocabulary in
  VCWebScraper.extract_from vocabulary text
  = if (5 <? List.length flagged_entries)%nat
    then map fst (firstn 5 (sorted_desc snd (map scored flagged_entries)))
    else map fst flagged_entries.
Proof.
  intros Hlow flagged_entries; unfold VCWebScraper.extract_from, take.
  rewrite Hlow, flagged_fold; simpl app; fold flagged_entries.
  rewrite length_map.
  destruct (5 <? List.length flagged_entries)%nat; [| reflexivity].
  rewrite scores_fold by (simpl; exact names_distinct).
  simpl app; do 4 f_equal.
  apply filter_ext_in; intros e He; apply member_flagged; exact He.
Qed.

End Classifier.

Lemma distinct_nodup (l : list string) : Spec.distinct l = true -> NoDup l.
Proof.
  induction l as [| x l IH]; simpl; intros H; constructor.
  - apply andb_prop in H; destruct H as [Hx _].
    intros Hin; apply Bool.negb_true_iff in Hx.
    assert (existsb (String.eqb x) l = true)
      by (apply existsb_exists; exists x; split; [exact Hin | apply String.eqb_refl]).
    congruence.
  - apply andb_prop in H; apply IH, H.
Qed.

Lemma sector_names_distinct : NoDup (map fst VCWebScraper.sector_keywords).
Proof. apply distinct_nodup; vm_compute; reflexivity. Qed.

Lemma nodup_map_filter {X Y : Type} (f : X -> Y) (p : X -> bool) (l : list X) :
  NoDup (map f l) -> NoDup (map f (filter p l)).
Proof.
  induction l as [| x l IH]; simpl; intros H; [constructor |].
  inversion H as [| ? ? Hnot Hnd]; subst.
  destruct (p x); simpl; [| apply IH; exact Hnd].
  constructor; [| apply IH; exact Hnd].
  intros Hin; apply Hnot.
  apply in_map_iff in Hin; destruct Hin as (y & Hy & Hin).
  apply filter_In in Hin; rewrite <- Hy; apply in_map, Hin.
Qed.

Lemma assoc_get_of_in {V : Type} (d : list (string * V)) (k : string) (v : V) :
  NoDup (map fst d) -> In (k, v) d -> assoc_get d k = Some v.
Proof.
  intros Hnd Hin; destruct (assoc_get d k) as [v' |] eqn:E.
  - apply assoc_get_in in E.
    rewrite (nodup_keys_functional d k v v' Hnd Hin E); reflexivity.
  - exfalso; apply (assoc_get_none_notin d k E).
    apply in_map_iff; exists (k, v); split; [reflexivity | exact Hin].
Qed.

(** C8.  For every text the classifier returns at most five sectors.  When
    at most five sectors of the vocabulary have a keyword in the lower-cased
    text, it returns them all, in vocabulary order.  When more than five
    have one, it returns five distinct ones of them, in descending order of
    their keyword-occurrence counts, and no sector left out has a higher
    count than a sector returned. *)
Theorem sector_cap (text : string) :
  let sectors := VCWebScraper._extract_sectors text in
  let matched := Spec.flagged_sectors text in
  let score := Spec.sector_score text in
  (List.length sectors <= 5)%nat
  /\ ((List.length matched <= 5)%nat -> sectors = matched)
  /\ ((5 < List.length matched)%nat ->
      List.length sectors = 5%nat
      /\ NoDup sectors
      /\ incl sectors matched
      /\ Spec.descending (map score sectors)
      /\ forall s s',
           In s sectors -> In s' matched -> ~ In s' sectors ->
           score s' <= score s).
Proof.
  intros sectors matched score; subst sectors matched score.
  unfold VCWebScraper._extract_sectors, Spec.flagged_sectors.
  rewrite (extract_from_closed VCWebScraper.sector_keywords (lower text)
             sector_names_distinct text eq_refl).
  cbv zeta; unfold VCWebScraper.flagged.
  set (E := filter _ VCWebScraper.sector_keywords).
  set (scored := fun entry : string * list string =>
                   (fst entry, VCWebScraper.keyword_score (lower text) (snd entry))).
  assert (Hlen : List.length (map fst E) = List.length E) by apply length_map.
  destruct (Nat.ltb_spec 5 (List.length E)) as [Hmany | Hfew].
  2: { split; [rewrite Hlen; exact Hfew |].
       split; [reflexivity | intros H; rewrite Hlen in H; lia]. }
  set (S := map scored E).
  set (sorted := sorted_desc snd S).
  pose proof (sorted_desc_perm snd S) as Hperm; fold sorted in Hperm.
  pose proof (sorted_desc_sorted snd S) as Hsorted; fold sorted in Hsorted.
  assert (HlenS : List.length sorted = List.length E).
  { rewrite (Permutation_length Hperm); unfold S; apply length_map. }
  assert (Hnames : map fst S = map fst E).
  { unfold S; rewrite map_map; reflexivity. }
  assert (Hsplit : sorted = firstn 5 sorted ++ skipn 5 sorted)
    by (symmetry; apply firstn_skipn).
  assert (HndE : NoDup (map fst E))
    by (apply nodup_map_filter, sector_names_distinct).
  assert (HndS : NoDup (map fst sorted)).
  { eapply Permutation_NoDup;
      [apply Permutation_sym, Permutation_map, Hperm | rewrite Hnames; exact HndE]. }
  assert (Hfact : forall p, In p sorted ->
                    In (fst p) (map fst E) /\ Spec.sector_score text (fst p) = snd p).
  { intros p Hp.
    apply (Permutation_in _ Hperm) in Hp.
    unfold S in Hp; apply in_map_iff in Hp; destruct Hp as (e & <- & He).
    split; [exact (in_map fst E e He) |].
    unfold E in He; apply filter_In in He; destruct He as [He _].
    unfold Spec.sector_score, scored; destruct e as [s k]; cbn [fst snd].
    rewrite (assoc_get_of_in _ s k sector_names_distinct He).
    symmetry; apply keyword_score_sum. }
  assert (Hfirst : forall p, In p (firstn 5 sorted) -> In p sorted)
    by (intros p Hp; rewrite Hsplit; apply in_or_app; left; exact Hp).
  assert (Hrest : forall p, In p (skipn 5 sorted) -> In p sorted)
    by (intros p Hp; rewrite Hsplit; apply in_or_app; right; exact Hp).
  rewrite Hsplit in Hsorted.
  destruct (sorted_app_inv _ _ _ Hsorted) as [Hsorted5 Hcross].
  assert (Hfive : List.length (map fst (firstn 5 sorted)) = 5%nat)
    by (rewrite length_map; apply firstn_length_le; lia).
  split; [rewrite Hfive; lia |].
  split; [intros H; rewrite Hlen in H; lia |].
  intros _; split; [exact Hfive |].
  split.
  { rewrite Hsplit, map_app in HndS.
    exact (NoDup_app_remove_r _ _ HndS). }
  split.
  { intros s Hs; apply in_map_iff in Hs; destruct Hs as (p & <- & Hp).
    apply Hfact, Hfirst, Hp. }
  split.
  { rewrite map_map.
    rewrite (map_ext_in _ snd);
      [apply sorted_map; exact Hsorted5 |].
    intros p Hp; apply Hfact, Hfirst, Hp. }
  intros s s' Hs Hs' Hout.
  apply in_map_iff in Hs; destruct Hs as (p & <- & Hp).
  assert (Hs'' : In s' (map fst sorted)).
  { eapply Permutation_in;
      [apply Permutation_sym, Permutation_map, Hperm | rewrite Hnames; exact Hs']. }
  apply in_map_iff in Hs''; destruct Hs'' as (p' & <- & Hp').
  rewrite Hsplit in Hp'; apply in_app_or in Hp'; destruct Hp' as [Hp' | Hp'].
  - exfalso; apply Hout, in_map, Hp'.
  - rewrite (proj2 (Hfact p (Hfirst p Hp))), (proj2 (Hfact p' (Hrest p' Hp'))).
    exact (Hcross p p' Hp Hp').
Qed.

Lemma sector_cap_witness :
  let text := "Fintech, enterprise software, health, security, retail, education and climate." in
  (5 < List.length (Spec.flagged_sectors text))%nat
  /\ List.length (VCWebScraper._extract_sectors text) = 5%nat.
Proof.
  assert (Hmany :
            (5 < List.length
                   (Spec.flagged_sectors
                      "Fintech, enterprise software, health, security, retail, education and climate."))%nat)
    by (vm_compute; lia).
  split; [exact Hmany |].
  exact (proj1 (proj2 (proj2 (sector_cap
                                "Fintech, enterprise software, health, security, retail, education and climate."))
                 Hmany)).
Defined.

(** * The fallback matcher *)

(** C9.  The fallback matching is a function of the startup description, the
    profile list and the limit alone: two runs on the same three inputs give
    the same result -- the same profiles with the same scores and reasons in
    the same order, or the same exception -- whatever matcher objects the
    runs go through (reasoning client, model, tokenizer). *)
Theorem fallback_deterministic (run1 run2 : VCMatcher.matcher)
  (startup_description : string) (vc_data : list dict) (num_matches : Z) :
  VCMatcher._fallback_matching run1 startup_description vc_data num_matches
  = VCMatcher._fallback_matching run2 startup_description vc_data num_matches.
Proof. reflexivity. Qed.

(** * Remarks on the vocabulary *)

(** The record a list holds for a name is one of its records, and carries
    the name. *)
Lemma record_for_in (records : list dict) (name : string) (r : dict) :
  Spec.record_for records name = Some r ->
  In r records /\ Spec.name_of r = name.
Proof.
  induction records as [| r0 records IH]; simpl; [discriminate |].
  destruct (Spec.record_for records name) as [r' |].
  - intros H; injection H as ->.
    destruct (IH eq_refl) as [Hin Hname]; split; [right |]; assumption.
  - destruct (String.eqb_spec (Spec.name_of r0) name) as [E | E]; [| discriminate].
    intros H; injection H as ->; split; [left; reflexivity | exact E].
Qed.

(** When a single record of the list carries the name, it is that record. *)
Lemma record_for_unique (records : list dict) (name : string) (r : dict) :
  In r records -> Spec.name_of r = name ->
  (forall r', In r' records -> Spec.name_of r' = name -> r' = r) ->
  Spec.record_for records name = Some r.
Proof.
  induction records as [| r0 records IH]; simpl; intros Hin Hname Honly;
    [contradiction |].
  destruct (Spec.record_for records name) as [r' |] eqn:E.
  - destruct (record_for_in records name r' E) as [Hin' Hname'].
    rewrite (Honly r' (or_intror Hin') Hname'); reflexivity.
  - destruct Hin as [-> | Hin].
    + rewrite Hname, String.eqb_refl; reflexivity.
    + assert (Hsome : None = Some r); [| discriminate].
      apply IH; [exact Hin | exact Hname |].
      intros r' Hr' Hn'; apply Honly; [right; exact Hr' | exact Hn'].
Qed.

(** An amount that is truthy and not a number makes the comparison with 0
    raise: the check-size functions return exactly on the deal lists of
    the data model. *)
Lemma collect_amounts_raises (deals : list dict) :
  forallb Spec.numeric_amount deals = false ->
  VCDataEnricher.collect_amounts deals = Raise TypeError.
Proof.
  unfold VCDataEnricher.collect_amounts.
  assert (H : forall acc,
             forallb Spec.numeric_amount deals = false ->
             for_each
               (fun amounts deal =>
                  let amount := dict_get deal "amount" (VInt 0) in
                  if truthy amount then
                    match as_number amount with
                    | Some n => Ok (if 0 <? n then amounts ++ [n] else amounts)
                    | None => Raise TypeError
                    end
                  else Ok amounts)
               deals acc
             = Raise TypeError).
  { induction deals as [| deal deals IH]; intros acc H; simpl in *; [discriminate |].
    unfold Spec.numeric_amount, Spec.amount in H.
    destruct (as_number (dict_get deal "amount" (VInt 0))) as [n |] eqn:En.
    - simpl in H.
      destruct (truthy (dict_get deal "amount" (VInt 0))); simpl;
        [destruct (0 <? n) |]; apply IH; exact H.
    - destruct (truthy (dict_get deal "amount" (VInt 0))); simpl in *;
        [reflexivity | apply IH; exact H]. }
  apply H.
Qed.

(** The rounding edge of small amounts: a median of 2500 rounds to 0, which
    is shown as "Unknown". *)
Lemma sweet_spot_small_amounts :
  let deals := map (fun a => [("amount", VInt a)]) [1000; 2000; 3000; 4000] in
  VCDataEnricher._calculate_sweet_spot deals = Ok 0
  /\ VCDataEnricher._format_sweet_spot 0 = "Unknown".
Proof. split; reflexivity. Qed.

(** The check range of 750000 and 2500000. *)
Lemma check_range_example :
  let deals := map (fun a => [("amount", VInt a)]) [750000; 2500000] in
  VCDataEnricher._calculate_check_range deals = Ok (750, 2500)
  /\ VCDataEnricher._format_check_range 750 2500 = "$750k-$2.5M".
Proof. split; reflexivity. Qed.

(** The merge example of two sources for one company. *)
Lemma merge_example :
  VCDataEnricher._merge_company_data
    [ [("name", VStr "Acme"); ("website", VStr "a.com")] ]
    [ [("name", VStr "Acme"); ("website", VStr "b.com"); ("founded", VStr "2020")] ]
  = Ok [ [("name", VStr "Acme"); ("website", VStr "a.com");
          ("founded", VStr "2020")] ].
Proof. reflexivity. Qed.

(** * Further properties of the check-size functions *)

(** The median of a non-empty list lies between any bounds of the list. *)
Lemma median_between (l : list Z) (a b : Z) :
  l <> [] -> Forall (fun n => a <= n <= b) l ->
  (inject_Z a <= Spec.median_of_sorted l)%Q
  /\ (Spec.median_of_sorted l <= inject_Z b)%Q.
Proof.
  intros Hne Hall; unfold Spec.median_of_sorted.
  assert (Hlen : (0 < List.length l)%nat)
    by (destruct l; [contradiction | simpl; lia]).
  assert (Hnth : forall i, (i < List.length l)%nat -> a <= nth i l 0 <= b).
  { intros i Hi; rewrite Forall_forall in Hall; apply Hall, nth_In; exact Hi. }
  assert (Hhalf : (List.length l / 2 < List.length l)%nat)
    by (apply Nat.div_lt; lia).
  destruct (Nat.even (List.length l)).
  - assert (H1 := Hnth (List.length l / 2 - 1)%nat ltac:(lia)).
    assert (H2 := Hnth (List.length l / 2)%nat Hhalf).
    set (u := nth (List.length l / 2 - 1) l 0) in *.
    set (v := nth (List.length l / 2) l 0) in *.
    unfold Qle, Qdiv, Qmult, Qinv, inject_Z; cbn [Qnum Qden].
    split; lia.
  - rewrite <- !Zle_Qle; apply Hnth; exact Hhalf.
Qed.

Lemma round_to_50_mono_Q (x y : Q) :
  (x <= y)%Q ->
  Spec.round_to_50 (x / 1000) <= Spec.round_to_50 (y / 1000).
Proof.
  intros H; unfold Spec.round_to_50.
  apply Z.mul_le_mono_nonneg_r; [lia |].
  apply py_round_mono.
  apply Qmult_le_compat_r; [| discriminate].
  apply Qmult_le_compat_r; [exact H | discriminate].
Qed.

Lemma below_limit_within (deals : list dict) :
  Spec.below_limit deals = true -> Spec.within_double deals = true.
Proof.
  unfold Spec.below_limit, Spec.within_double; rewrite !forallb_forall.
  intros H a Ha; specialize (H a Ha).
  apply Z.ltb_lt in H; apply Z.ltb_lt.
  apply Z.lt_trans with (10 ^ 15); [exact H | reflexivity].
Qed.

(** Below [10^15] the check range is the exact rounding of the smallest and
    of the largest amount. *)
Lemma check_range_exact (deals : list dict) :
  forallb Spec.numeric_amount deals = true ->
  Spec.below_limit deals = true ->
  Spec.positive_amounts deals <> [] ->
  VCDataEnricher._calculate_check_range deals
  = Ok (Spec.round_to_50
          (inject_Z (VCDataEnricher.list_min (Spec.positive_amounts deals))
           / 1000),
        Spec.round_to_50
          (inject_Z (VCDataEnricher.list_max (Spec.positive_amounts deals))
           / 1000)).
Proof.
  intros Hnum Hlim Hne.
  rewrite (check_range_value deals Hnum (below_limit_within deals Hlim) Hne).
  pose proof (below_limit_spec deals Hlim) as Hall.
  rewrite Forall_forall in Hall.
  assert (Hmin : In (VCDataEnricher.list_min (Spec.positive_amounts deals))
                   (Spec.positive_amounts deals))
    by (apply list_min_in, Hne).
  assert (Hmax : In (VCDataEnricher.list_max (Spec.positive_amounts deals))
                   (Spec.positive_amounts deals))
    by (apply list_max_in, Hne).
  unfold Spec.round_to_50.
  rewrite !rounded_thousands_exact by (apply Hall; assumption).
  reflexivity.
Qed.

(** X1.  The sweet spot lies within the check range: for a deal list whose
    amounts are integers with the positive ones below [10^15], both
    calculations return and [lo <= sweet spot <= hi]. *)
Theorem sweet_spot_within_range (deals : list dict) :
  forallb Spec.numeric_amount deals = true ->
  Spec.below_limit deals = true ->
  exists lo hi sweet,
    VCDataEnricher._calculate_check_range deals = Ok (lo, hi) /\
    VCDataEnricher._calculate_sweet_spot deals = Ok sweet /\
    lo <= sweet <= hi.
Proof.
  intros Hnum Hlim.
  destruct (Spec.positive_amounts deals) as [| a amounts] eqn:Ea.
  - unfold VCDataEnricher._calculate_check_range,
      VCDataEnricher._calculate_sweet_spot.
    rewrite (collect_amounts_ok deals Hnum), Ea.
    exists 0, 0, 0; repeat split; lia.
  - assert (Hne : Spec.positive_amounts deals <> [])
      by (rewrite Ea; discriminate).
    rewrite (check_range_exact deals Hnum Hlim Hne).
    rewrite (sweet_spot_exact deals Hnum Hlim Hne).
    rewrite Ea; set (pos := a :: amounts) in *.
    do 3 eexists; split; [reflexivity | split; [reflexivity |]].
    assert (Hsorted : Forall (fun n => VCDataEnricher.list_min pos <= n
                                       <= VCDataEnricher.list_max pos) (sort_asc pos)).
    { eapply Permutation_Forall;
        [apply Permutation_sym, sort_asc_perm | apply list_min_max_bounds]. }
    assert (Hne' : sort_asc pos <> []).
    { intros E; pose proof (sort_asc_perm pos) as Hp; rewrite E in Hp.
      apply Permutation_nil in Hp; discriminate. }
    destruct (median_between _ _ _ Hne' Hsorted) as [Hlo Hhi].
    split; apply round_to_50_mono_Q; assumption.
Qed.

Lemma sweet_spot_within_range_witness :
  let deals := [ [("amount", VInt 750000)]; [("amount", VInt 15000000)];
                 [("amount", VInt 2500000)] ] in
  forallb Spec.numeric_amount deals = true /\
  Spec.below_limit deals = true /\
  exists lo hi sweet,
    VCDataEnricher._calculate_check_range deals = Ok (lo, hi) /\
    VCDataEnricher._calculate_sweet_spot deals = Ok sweet /\
    lo <= sweet <= hi.
Proof.
  split; [reflexivity |].
  split; [reflexivity |].
  apply (sweet_spot_within_range
           [ [("amount", VInt 750000)]; [("amount", VInt 15000000)];
             [("amount", VInt 2500000)] ]);
    reflexivity.
Defined.

(** The rounded thousands vanish exactly up to 25000. *)
Lemma rounded_thousands_zero (m : Z) :
  0 < m ->
  (py_round (float_divide (double_div m 1000) 50) = 0 <-> m <= 25000).
Proof.
  intros Hpos.
  pose proof (rounded_thousands_nonneg m Hpos) as H0.
  split.
  - intros H.
    destruct (Z.le_gt_cases m 25000) as [Hle | Hgt]; [exact Hle | exfalso].
    pose proof (rounded_thousands_mono 25001 m ltac:(lia)) as Hm.
    change (py_round (float_divide (double_div 25001 1000) 50)) with 1 in Hm.
    lia.
  - intros Hle.
    pose proof (rounded_thousands_mono m 25000 ltac:(lia)) as Hm.
    change (py_round (float_divide (double_div 25000 1000) 50)) with 0 in Hm.
    lia.
Qed.

Lemma format_amount_dollar (x : Z) :
  exists rest, VCDataEnricher.format_amount x = String "$" rest.
Proof.
  unfold VCDataEnricher.format_amount; destruct (1000 <=? x); eexists; reflexivity.
Qed.

(** X2.  Small checks vanish from the range: for a deal list whose amounts
    are integers with the positive ones below [2^1023], the formatted check
    range is "Unknown" exactly when no positive amount exceeds 25000 -- also
    when there are deals. *)
Theorem check_range_unknown_iff (deals : list dict) :
  forallb Spec.numeric_amount deals = true ->
  Spec.within_double deals = true ->
  exists lo hi,
    VCDataEnricher._calculate_check_range deals = Ok (lo, hi) /\
    (VCDataEnricher._format_check_range lo hi = "Unknown"
     <-> Forall (fun a => a <= 25000) (Spec.positive_amounts deals)).
Proof.
  intros Hnum Hlim.
  assert (Hfmt : forall lo hi, 0 <= lo <= hi ->
                   (VCDataEnricher._format_check_range lo hi = "Unknown" <-> hi = 0)).
  { intros lo hi Hord; unfold VCDataEnricher._format_check_range.
    destruct (Z.eqb_spec lo 0) as [Hlo | Hlo], (Z.eqb_spec hi 0) as [Hhi | Hhi];
      cbn [andb].
    - split; [intros _; exact Hhi | reflexivity].
    - destruct (format_amount_dollar lo) as [r ->]; split; [discriminate | contradiction].
    - lia.
    - destruct (format_amount_dollar lo) as [r ->]; split; [discriminate | contradiction]. }
  pose proof (positive_amounts_pos deals) as Hpos.
  destruct (Spec.positive_amounts deals) as [| a amounts] eqn:Ea.
  - unfold VCDataEnricher._calculate_check_range.
    rewrite (collect_amounts_ok deals Hnum), Ea.
    exists 0, 0; split; [reflexivity |].
    split; [constructor | reflexivity].
  - rewrite (check_range_value deals Hnum Hlim) by (rewrite Ea; discriminate).
    rewrite Ea; set (pos := a :: amounts) in *.
    destruct (list_min_max pos Hpos ltac:(discriminate)) as [Hmin Hmax].
    assert (Hmaxpos : 0 < VCDataEnricher.list_max pos) by lia.
    eexists _, _; split; [reflexivity |].
    pose proof (rounded_thousands_nonneg _ Hmin) as H0.
    pose proof (rounded_thousands_mono _ _ (conj Hmin Hmax)) as H1.
    rewrite Hfmt by lia.
    pose proof (rounded_thousands_zero _ Hmaxpos) as Hzero.
    pose proof (list_min_max_bounds pos) as Hb.
    split.
    + intros Hhi.
      assert (Hle : VCDataEnricher.list_max pos <= 25000)
        by (apply Hzero; lia).
      eapply Forall_impl; [| exact Hb]; cbv beta; intros n Hn; lia.
    + intros Hall; rewrite Forall_forall in Hall.
      assert (Hle : VCDataEnricher.list_max pos <= 25000)
        by (apply Hall, list_max_in; discriminate).
      apply Hzero in Hle; lia.
Qed.

Lemma check_range_unknown_iff_witness :
  let deals := [ [("amount", VInt 20000)]; [("amount", VInt 25000)] ] in
  forallb Spec.numeric_amount deals = true /\
  Spec.within_double deals = true /\
  exists lo hi,
    VCDataEnricher._calculate_check_range deals = Ok (lo, hi) /\
    VCDataEnricher._format_check_range lo hi = "Unknown".
Proof.
  split; [reflexivity |].
  split; [reflexivity |].
  destruct (check_range_unknown_iff
              [ [("amount", VInt 20000)]; [("amount", VInt 25000)] ]
              eq_refl eq_refl)
    as (lo & hi & Hrun & Hiff).
  exists lo, hi; split; [exact Hrun |].
  apply Hiff; repeat constructor; lia.
Defined.

(** * Ranked tags *)

Lemma held_bump (counts : list (string * Z)) (k t : string) :
  Spec.held (VCDataEnricher.bump counts k) t
  = Spec.held counts t + (if string_dec k t then 1 else 0).
Proof.
  unfold Spec.held, VCDataEnricher.bump.
  destruct (string_dec k t) as [-> | Hne].
  - rewrite assoc_get_set_same; reflexivity.
  - rewrite assoc_get_set_other by exact Hne; lia.
Qed.

Lemma bump_keys (counts : list (string * Z)) (k t : string) :
  In t (map fst (VCDataEnricher.bump counts k))
  <-> In t (map fst counts) \/ t = k.
Proof.
  unfold VCDataEnricher.bump.
  set (v := _ + 1).
  destruct (assoc_get counts k) as [c |] eqn:E.
  - rewrite (assoc_set_keys counts k v c E); split; [tauto |].
    intros [H | ->]; [exact H | eapply assoc_get_some_key; exact E].
  - rewrite (assoc_set_new counts k v E), map_app, in_app_iff; simpl.
    split; [intros [H | [H | []]]; auto | intros [H | ->]; auto].
Qed.

Lemma tally_spec (tags : list string) (counts : list (string * Z)) :
  NoDup (map fst counts) ->
  let final := fold_left VCDataEnricher.bump tags counts in
  NoDup (map fst final)
  /\ (forall t, Spec.held final t = Spec.held counts t + Spec.tag_count tags t)
  /\ (forall t, In t (map fst final) <-> In t (map fst counts) \/ In t tags).
Proof.
  revert counts; induction tags as [| k tags IH]; intros counts Hnd; simpl.
  - split; [exact Hnd |].
    split; [intros t; unfold Spec.tag_count; simpl; lia | intros t; tauto].
  - destruct (IH (VCDataEnricher.bump counts k)) as (Hnd' & Hheld & Hkeys).
    { unfold VCDataEnricher.bump; apply assoc_set_nodup; exact Hnd. }
    split; [exact Hnd' |].
    split.
    + intros t; rewrite Hheld, held_bump; unfold Spec.tag_count; simpl.
      destruct (string_dec k t); lia.
    + intros t; rewrite Hkeys, bump_keys; intuition.
Qed.

(** A Spec.held count of a key is positive once the key was tallied from an
    empty tally. *)
Lemma tally_from_empty (tags : list string) :
  let final := fold_left VCDataEnricher.bump tags [] in
  NoDup (map fst final)
  /\ (forall t, Spec.held final t = Spec.tag_count tags t)
  /\ (forall t, In t (map fst final) <-> In t tags).
Proof.
  destruct (tally_spec tags [] (NoDup_nil _)) as (Hnd & Hheld & Hkeys).
  split; [exact Hnd |].
  split; [intros t; rewrite Hheld; reflexivity |].
  intros t; rewrite Hkeys; simpl; tauto.
Qed.

(** The ranking of a tally: the keys Spec.held at least twice, each once, the
    most frequent first. *)
Lemma ranked_spec (counts : list (string * Z)) :
  NoDup (map fst counts) ->
  let r := VCDataEnricher.ranked counts in
  NoDup r
  /\ (forall t, In t r <-> In t (map fst counts) /\ 2 <= Spec.held counts t)
  /\ StronglySorted (fun a b => Spec.held counts b <= Spec.held counts a) r.
Proof.
  intros Hnd r; subst r; unfold VCDataEnricher.ranked.
  fold (Spec.held counts).
  set (top := map fst (filter (fun kc => 2 <=? snd kc) counts)).
  pose proof (sorted_desc_perm (Spec.held counts) top) as Hperm.
  pose proof (sorted_desc_sorted (Spec.held counts) top) as Hsorted.
  assert (Htop : NoDup top) by (apply nodup_map_filter; exact Hnd).
  assert (Hin : forall t, In t top <-> In t (map fst counts) /\ 2 <= Spec.held counts t).
  { intros t; unfold top; rewrite in_map_iff; split.
    - intros ([k c] & <- & Hf); apply filter_In in Hf; destruct Hf as [Hkc Hc].
      simpl in *; split; [apply in_map_iff; exists (k, c); auto |].
      unfold Spec.held; rewrite (assoc_get_of_in counts k c Hnd Hkc).
      apply Z.leb_le; exact Hc.
    - intros [Hk Hc]; apply in_map_iff in Hk; destruct Hk as ([k c] & <- & Hkc).
      simpl in *; exists (k, c); split; [reflexivity |].
      apply filter_In; split; [exact Hkc |].
      unfold Spec.held in Hc; rewrite (assoc_get_of_in counts k c Hnd Hkc) in Hc.
      apply Z.leb_le; exact Hc. }
  split; [eapply Permutation_NoDup; [apply Permutation_sym, Hperm | exact Htop] |].
  split; [| exact Hsorted].
  intros t; rewrite <- Hin; split; apply Permutation_in;
    [exact Hperm | apply Permutation_sym, Hperm].
Qed.

Lemma sorted_firstn {X : Type} (R : X -> X -> Prop) (n : nat) (l : list X) :
  StronglySorted R l ->
  StronglySorted R (firstn n l)
  /\ forall x y, In x (firstn n l) -> In y l -> ~ In y (firstn n l) -> R x y.
Proof.
  intros Hs; rewrite <- (firstn_skipn n l) in Hs.
  destruct (sorted_app_inv R _ _ Hs) as [Hfirst Hcross].
  split; [exact Hfirst |].
  intros x y Hx Hy Hout.
  rewrite <- (firstn_skipn n l) in Hy; apply in_app_or in Hy.
  destruct Hy as [Hy | Hy]; [contradiction | apply Hcross; assumption].
Qed.

Lemma nodup_firstn {X : Type} (n : nat) (l : list X) : NoDup l -> NoDup (firstn n l).
Proof.
  intros H; rewrite <- (firstn_skipn n l) in H.
  exact (NoDup_app_remove_r _ _ H).
Qed.

Lemma in_firstn {X : Type} (n : nat) (l : list X) (x : X) :
  In x (firstn n l) -> In x l.
Proof.
  intros H; rewrite <- (firstn_skipn n l); apply in_or_app; left; exact H.
Qed.

(** The loop of [_derive_sector_focus] tallies the category tags. *)
Lemma sector_tally (portfolio : list dict) (counts : list (string * Z)) :
  forallb (fun c => Spec.iterable (Spec.categories_of c)) portfolio = true ->
  for_each
    (fun counts company =>
       categories <- py_iter (dict_get company "categories" (VList [])) ;;
       Ok (fold_left
             (fun counts category =>
                match category with
                | VStr s => if String.eqb s "" then counts
                            else VCDataEnricher.bump counts s
                | _ => counts
                end)
             categories counts))
    portfolio counts
  = Ok (fold_left VCDataEnricher.bump (Spec.category_tags portfolio) counts).
Proof.
  revert counts; induction portfolio as [| c portfolio IH]; intros counts H;
    [reflexivity |].
  cbn [forallb] in H; apply andb_prop in H; destruct H as [Hc Hrest].
  cbn [for_each Spec.category_tags flat_map].
  unfold Spec.iterable, Spec.categories_of in Hc.
  unfold Spec.text_items at 1, Spec.categories_of at 1.
  destruct (py_iter (dict_get c "categories" (VList []))) as [items | e];
    [| discriminate].
  cbn [bind]; rewrite fold_left_app.
  change (flat_map (fun company => Spec.text_items (Spec.categories_of company)) portfolio)
    with (Spec.category_tags portfolio).
  rewrite IH by exact Hrest; f_equal; f_equal.
  clear; revert counts; induction items as [| x items IHi]; intros counts;
    [reflexivity |].
  cbn [fold_left flat_map]; rewrite fold_left_app, <- IHi.
  destruct x as [| b | n | s | l | d]; try reflexivity.
  destruct (String.eqb s ""); reflexivity.
Qed.

(** X3.  The sector focus of a portfolio whose category fields can be
    iterated: at most ten tags, each once, each a category of at least two
    occurrences, in descending order of their occurrences; a tag with at
    least two occurrences is left out only when ten tags are returned, and
    then it has no more occurrences than any tag returned. *)
Theorem sector_focus_ranking (portfolio : list dict) :
  forallb (fun c => Spec.iterable (Spec.categories_of c)) portfolio = true ->
  let count := Spec.tag_count (Spec.category_tags portfolio) in
  exists tags,
    VCDataEnricher._derive_sector_focus portfolio = Ok tags /\
    (List.length tags <= 10)%nat /\
    NoDup tags /\
    (forall t, In t tags -> 2 <= count t) /\
    Spec.descending (map count tags) /\
    (forall t, 2 <= count t -> ~ In t tags ->
               List.length tags = 10%nat /\ forall t', In t' tags -> count t <= count t').
Proof.
  intros Hiter count; unfold VCDataEnricher._derive_sector_focus, take.
  rewrite (sector_tally portfolio [] Hiter); cbn [bind].
  set (tags := Spec.category_tags portfolio) in *.
  set (counts := fold_left VCDataEnricher.bump tags []).
  destruct (tally_from_empty tags) as (Hnd & Hheld & Hkeys); fold counts in Hnd, Hheld, Hkeys.
  destruct (ranked_spec counts Hnd) as (Hrnd & Hrin & Hrsorted).
  set (r := VCDataEnricher.ranked counts) in *.
  destruct (sorted_firstn _ 10 r Hrsorted) as [Hfirst Hcross].
  eexists; split; [reflexivity |].
  split; [apply firstn_le_length |].
  split; [apply nodup_firstn; exact Hrnd |].
  split.
  { intros t Ht; apply in_firstn, Hrin in Ht; unfold count; rewrite <- Hheld; tauto. }
  split.
  { unfold count; rewrite (map_ext _ (Spec.held counts)) by (intros; symmetry; apply Hheld).
    apply sorted_map; exact Hfirst. }
  intros t Hcount Hout.
  assert (Hr : In t r).
  { apply Hrin; split; [| rewrite Hheld; exact Hcount].
    apply Hkeys.
    unfold count, Spec.tag_count in Hcount.
    destruct (count_occ string_dec tags t) eqn:E; [simpl in Hcount; lia |].
    apply (count_occ_In string_dec); lia. }
  split.
  - destruct (Nat.le_gt_cases 10 (List.length r)) as [Hlen | Hlen];
      [apply firstn_length_le; exact Hlen |].
    exfalso; apply Hout; rewrite firstn_all2 by lia; exact Hr.
  - intros t' Ht'; unfold count; rewrite <- !Hheld.
    exact (Hcross t' t Ht' Hr Hout).
Qed.

Lemma sector_focus_ranking_witness :
  let portfolio :=
    [ [("name", VStr "A"); ("categories", VList [VStr "Software"; VStr "AI"])];
      [("name", VStr "B"); ("categories", VList [VStr "AI"; VStr "Health"])];
      [("name", VStr "C")];
      [("name", VStr "D"); ("categories", VList [VStr "AI"; VStr "Software"])] ] in
  VCDataEnricher._derive_sector_focus portfolio = Ok ["AI"; "Software"].
Proof.
  destruct (sector_focus_ranking
              [ [("name", VStr "A"); ("categories", VList [VStr "Software"; VStr "AI"])];
                [("name", VStr "B"); ("categories", VList [VStr "AI"; VStr "Health"])];
                [("name", VStr "C")];
                [("name", VStr "D"); ("categories", VList [VStr "AI"; VStr "Software"])] ]
              eq_refl) as (tags & Hrun & _).
  cbv zeta; rewrite Hrun; f_equal.
  vm_compute in Hrun; injection Hrun as <-; reflexivity.
Defined.

Lemma normalize_stage_range (v : value) (n : string) :
  VCDataEnricher._normalize_stage v = Ok n -> n = "" \/ In n Spec.stage_names.
Proof.
  unfold VCDataEnricher._normalize_stage.
  destruct (value_lower v) as [s | e]; cbn [bind]; [| discriminate].
  intros H; injection H as <-.
  unfold Spec.stage_names.
  repeat match goal with
         | |- context [if ?b then _ else _] => destruct b
         end; cbn; tauto.
Qed.

Lemma count_pos_in (tags : list string) (t : string) :
  0 < Spec.tag_count tags t -> In t tags.
Proof.
  unfold Spec.tag_count; intros H.
  apply (count_occ_In string_dec); lia.
Qed.

(** The loop of [_derive_stage_preference] tallies the normalized stages. *)
Lemma stage_tally (deals : list dict) (counts : list (string * Z)) :
  forallb (fun d => Spec.text_or_empty (Spec.stage_of d)) deals = true ->
  for_each
    (fun counts deal =>
       if truthy (dict_get deal "stage" (VStr "")) then
         norm_stage <- VCDataEnricher._normalize_stage
                         (dict_get deal "stage" (VStr "")) ;;
         Ok (if String.eqb norm_stage "" then counts
             else VCDataEnricher.bump counts norm_stage)
       else Ok counts)
    deals counts
  = Ok (fold_left VCDataEnricher.bump (Spec.stage_tags deals) counts).
Proof.
  revert counts; induction deals as [| d deals IH]; intros counts H; [reflexivity |].
  cbn [forallb] in H; apply andb_prop in H; destruct H as [Hd Hrest].
  cbn [for_each Spec.stage_tags flat_map]; rewrite fold_left_app.
  change (flat_map _ deals) with (Spec.stage_tags deals).
  unfold Spec.stage_of in *.
  destruct (text_or_empty_cases _ Hd) as [(s & Es & Hs & Ts) | [Tf Ef]].
  - rewrite Ts, Es.
    assert (Hn : exists n, VCDataEnricher._normalize_stage (VStr s) = Ok n)
      by (unfold VCDataEnricher._normalize_stage; cbn [value_lower bind];
          eexists; reflexivity).
    destruct Hn as [n Hn]; rewrite Hn; cbn [bind].
    destruct (String.eqb n ""); cbn [fold_left]; apply IH; exact Hrest.
  - rewrite Tf; cbn [bind].
    assert (Hnone : match VCDataEnricher._normalize_stage
                            (dict_get d "stage" (VStr "")) with
                    | Ok n => if String.eqb n "" then [] else [n]
                    | Raise _ => []
                    end = []).
    { destruct (dict_get d "stage" (VStr "")) as [| b | n | s | l | dd];
        try reflexivity.
      cbn in Ef; subst s; reflexivity. }
    rewrite Hnone; cbn [fold_left]; apply IH; exact Hrest.
Qed.

Lemma stage_tags_named (deals : list dict) (t : string) :
  In t (Spec.stage_tags deals) -> In t Spec.stage_names.
Proof.
  unfold Spec.stage_tags; rewrite in_flat_map; intros (d & _ & Hin).
  destruct (VCDataEnricher._normalize_stage (Spec.stage_of d)) as [n | e] eqn:E;
    [| contradiction].
  destruct (String.eqb_spec n "") as [Hn | Hn]; [contradiction |].
  destruct Hin as [<- | []].
  destruct (normalize_stage_range _ _ E); [contradiction | assumption].
Qed.

(** X4.  The preferred stages of a deal list whose stage fields are text
    (or empty): exactly the normalized stages that at least two deals have,
    each once, each one of the six stage names, in descending order of
    their deals. *)
Theorem stage_preference_ranking (deals : list dict) :
  forallb (fun d => Spec.text_or_empty (Spec.stage_of d)) deals = true ->
  let count := Spec.tag_count (Spec.stage_tags deals) in
  exists stages,
    VCDataEnricher._derive_stage_preference deals = Ok stages /\
    NoDup stages /\
    incl stages Spec.stage_names /\
    (forall t, In t stages <-> 2 <= count t) /\
    Spec.descending (map count stages).
Proof.
  intros Htext count; unfold VCDataEnricher._derive_stage_preference.
  rewrite (stage_tally deals [] Htext); cbn [bind].
  set (tags := Spec.stage_tags deals) in *.
  set (counts := fold_left VCDataEnricher.bump tags []).
  destruct (tally_from_empty tags) as (Hnd & Hheld & Hkeys);
    fold counts in Hnd, Hheld, Hkeys.
  destruct (ranked_spec counts Hnd) as (Hrnd & Hrin & Hrsorted).
  eexists; split; [reflexivity |].
  split; [exact Hrnd |].
  split.
  { intros t Ht; apply Hrin in Ht; destruct Ht as [Ht _].
    apply Hkeys in Ht; exact (stage_tags_named deals t Ht). }
  split.
  { intros t; rewrite Hrin, Hheld; fold count; split; [tauto |].
    intros Hc; split; [| exact Hc].
    apply Hkeys, count_pos_in; unfold count in Hc; lia. }
  unfold count; rewrite (map_ext _ (Spec.held counts)) by (intros; symmetry; apply Hheld).
  apply sorted_map; exact Hrsorted.
Qed.

Lemma stage_preference_ranking_witness :
  let deals := [ [("stage", VStr "Seed")]; [("stage", VStr "Series A")];
                 [("stage", VStr "Pre-Seed round")]; [("stage", VStr "series a")];
                 [("stage", VStr "Angel")]; [("stage", VStr "SERIES A")];
                 [("company", VStr "Acme")] ] in
  VCDataEnricher._derive_stage_preference deals = Ok ["Series A"; "Seed"].
Proof.
  destruct (stage_preference_ranking
              [ [("stage", VStr "Seed")]; [("stage", VStr "Series A")];
                [("stage", VStr "Pre-Seed round")]; [("stage", VStr "series a")];
                [("stage", VStr "Angel")]; [("stage", VStr "SERIES A")];
                [("company", VStr "Acme")] ]
              eq_refl) as (stages & Hrun & _).
  cbv zeta; rewrite Hrun; f_equal.
  vm_compute in Hrun; injection Hrun as <-; reflexivity.
Defined.

(** * One record per identity *)

Lemma assoc_set_key_iff {V : Type} (d : list (string * V)) (k k' : string) (v : V) :
  In k' (map fst (assoc_set d k v)) <-> In k' (map fst d) \/ k' = k.
Proof.
  destruct (assoc_get d k) as [v0 |] eqn:E.
  - rewrite (assoc_set_keys d k v v0 E); split; [tauto |].
    intros [H | ->]; [exact H | eapply assoc_get_some_key; exact E].
  - rewrite (assoc_set_new d k v E), map_app, in_app_iff; simpl.
    split; [intros [H | [H | []]]; auto | intros [H | ->]; auto].
Qed.

Section MergedKeys.
Variable key_of : dict -> result string.
Variable id : dict -> string.

(** Both passes of a merge leave a mapping with distinct keys: the keys it
    had and the non-empty keys of the records. *)
Lemma insert_all_keys (records : list dict) (acc : list (string * dict)) :
  (forall r, In r records -> key_of r = Ok (id r)) ->
  NoDup (map fst acc) ->
  exists merged,
    VCDataEnricher.insert_all key_of records acc = Ok merged /\
    NoDup (map fst merged) /\
    forall k, In k (map fst merged)
              <-> In k (map fst acc) \/ (k <> "" /\ In k (map id records)).
Proof.
  unfold VCDataEnricher.insert_all; revert acc.
  induction records as [| r records IH]; intros acc Hkeys Hnd; simpl.
  - exists acc; split; [reflexivity | split; [exact Hnd | intros k; tauto]].
  - rewrite (Hkeys r (or_introl eq_refl)); cbn [bind].
    set (acc' := if String.eqb (id r) "" then acc else assoc_set acc (id r) r).
    assert (Hnd' : NoDup (map fst acc'))
      by (subst acc'; destruct (String.eqb (id r) "");
          [exact Hnd | apply assoc_set_nodup; exact Hnd]).
    destruct (IH acc' (fun r' H => Hkeys r' (or_intror H)) Hnd')
      as (merged & Hrun & Hndm & Hin).
    exists merged; split; [exact Hrun | split; [exact Hndm |]].
    intros k; rewrite Hin; subst acc'.
    destruct (String.eqb_spec (id r) "") as [E | E].
    + split; [intros [H | [H1 H2]]; auto | intros [H | [H1 [H2 | H2]]]; auto].
      congruence.
    + rewrite assoc_set_key_iff.
      split; [intros [[H | ->] | [H1 H2]]; auto | intros [H | [H1 [H2 | H2]]]; auto].
Qed.

Lemma add_or_update_keys (records : list dict) (acc : list (string * dict)) :
  (forall r, In r records -> key_of r = Ok (id r)) ->
  NoDup (map fst acc) ->
  exists merged,
    VCDataEnricher.add_or_update key_of records acc = Ok merged /\
    NoDup (map fst merged) /\
    forall k, In k (map fst merged)
              <-> In k (map fst acc) \/ (k <> "" /\ In k (map id records)).
Proof.
  unfold VCDataEnricher.add_or_update; revert acc.
  induction records as [| r records IH]; intros acc Hkeys Hnd; simpl.
  - exists acc; split; [reflexivity | split; [exact Hnd | intros k; tauto]].
  - rewrite (Hkeys r (or_introl eq_refl)); cbn [bind].
    set (step := if String.eqb (id r) "" then Ok acc
                 else match assoc_get acc (id r) with
                      | Some existing =>
                          Ok (assoc_set acc (id r)
                                (VCDataEnricher.fill_gaps existing r))
                      | None => Ok (assoc_set acc (id r) r)
                      end).
    assert (Hstep : exists acc',
               step = Ok acc' /\ NoDup (map fst acc') /\
               forall k, In k (map fst acc')
                         <-> In k (map fst acc) \/ (k <> "" /\ k = id r)).
    { subst step; destruct (String.eqb_spec (id r) "") as [E | E].
      - exists acc; split; [reflexivity | split; [exact Hnd |]].
        intros k; split; [auto | intros [H | [H1 H2]]; [exact H | congruence]].
      - destruct (assoc_get acc (id r)) as [existing |]; eexists;
          (split; [reflexivity | split; [apply assoc_set_nodup; exact Hnd |]]);
          intros k; rewrite assoc_set_key_iff;
          (split; [intros [H | ->]; auto | intros [H | [_ H]]; auto]). }
    destruct Hstep as (acc' & -> & Hnd' & Hin'); cbn [bind].
    destruct (IH acc' (fun r' H => Hkeys r' (or_intror H)) Hnd')
      as (merged & Hrun & Hndm & Hin).
    exists merged; split; [exact Hrun | split; [exact Hndm |]].
    intros k; rewrite Hin, Hin'.
    split; [intros [[H | [H1 ->]] | [H1 H2]]; auto | intros [H | [H1 [H2 | H2]]]; auto].
Qed.

(** A merge returns as many records as its two lists have distinct
    non-empty keys. *)
Lemma merge_count (A B : list dict) :
  (forall r, In r (A ++ B) -> key_of r = Ok (id r)) ->
  exists out,
    (merged <- VCDataEnricher.insert_all key_of A [] ;;
     merged <- VCDataEnricher.add_or_update key_of B merged ;;
     Ok (assoc_values merged)) = Ok out /\
    List.length out = List.length (Spec.distinct_nonempty (map id (A ++ B))).
Proof.
  intros Hkeys.
  destruct (insert_all_keys A [] (fun r H => Hkeys r (in_or_app _ _ _ (or_introl H)))
              (NoDup_nil _)) as (m1 & Hrun1 & Hnd1 & Hin1).
  destruct (add_or_update_keys B m1 (fun r H => Hkeys r (in_or_app _ _ _ (or_intror H)))
              Hnd1) as (m2 & Hrun2 & Hnd2 & Hin2).
  rewrite Hrun1; cbn [bind]; rewrite Hrun2; cbn [bind].
  eexists; split; [reflexivity |].
  unfold assoc_values; rewrite length_map, <- (length_map fst).
  apply Permutation_length, NoDup_Permutation;
    [exact Hnd2 | apply NoDup_nodup |].
  intros k; unfold Spec.distinct_nonempty.
  rewrite nodup_In, filter_In, Hin2, Hin1, map_app, in_app_iff; simpl.
  destruct (String.eqb_spec k ""); simpl; intuition congruence.
Qed.

(** The keys of a mapping after one more write. *)
Lemma assoc_set_fst {V : Type} (d : list (string * V)) (k : string) (v : V) :
  map fst (assoc_set d k v)
  = if existsb (String.eqb k) (map fst d) then map fst d
    else map fst d ++ [k].
Proof.
  induction d as [| [k' v'] d IH]; simpl; [reflexivity |].
  destruct (String.eqb k k'); simpl; [reflexivity |].
  rewrite IH; destruct (existsb (String.eqb k) (map fst d)); reflexivity.
Qed.

(** The keys a pass adds to a mapping: those of the records that the
    mapping does not hold yet, in the order of their first record. *)
Lemma keys_step (seen : list string) (k : string) (X : list string) :
  let seen' := if existsb (String.eqb k) seen then seen else seen ++ [k] in
  seen' ++ filter (fun x => negb (existsb (String.eqb x) seen')) X
  = seen ++ filter (fun x => negb (existsb (String.eqb x) seen))
              (k :: filter (fun x => negb (String.eqb x k)) X).
Proof.
  cbv zeta; cbn [filter].
  destruct (existsb (String.eqb k) seen) eqn:Hk; cbn [negb].
  - f_equal.
    induction X as [| x X IH]; [reflexivity |]; cbn [filter].
    destruct (String.eqb_spec x k) as [-> | Hne]; cbn [negb].
    + rewrite Hk; exact IH.
    + cbn [filter]; rewrite IH; reflexivity.
  - rewrite <- app_assoc; f_equal; cbn [app]; f_equal.
    induction X as [| x X IH]; [reflexivity |]; cbn [filter].
    rewrite existsb_app; cbn [existsb]; rewrite orb_false_r.
    destruct (String.eqb_spec x k) as [-> | Hne]; cbn [negb].
    + rewrite Hk; cbn [orb negb]; exact IH.
    + rewrite orb_false_r; cbn [filter].
      destruct (existsb (String.eqb x) seen); cbn [negb]; rewrite IH;
        reflexivity.
Qed.

Lemma merged_keys_cons (r : dict) (records : list dict) :
  Spec.merged_keys id (r :: records)
  = if String.eqb (id r) "" then Spec.merged_keys id records
    else id r :: filter (fun x => negb (String.eqb x (id r)))
                   (Spec.merged_keys id records).
Proof.
  unfold Spec.merged_keys; cbn [map filter].
  destruct (String.eqb (id r) ""); reflexivity.
Qed.

(** The first pass: the keys in the order of their first record, each with
    the last record that carries it. *)
Lemma insert_all_run (records : list dict) (acc : list (string * dict)) :
  (forall r, In r records -> key_of r = Ok (id r)) ->
  exists merged,
    VCDataEnricher.insert_all key_of records acc = Ok merged /\
    map fst merged
    = map fst acc
      ++ filter (fun x => negb (existsb (String.eqb x) (map fst acc)))
           (Spec.merged_keys id records) /\
    forall k, k <> "" ->
      assoc_get merged k
      = match Spec.last_with id records k with
        | Some r => Some r
        | None => assoc_get acc k
        end.
Proof.
  unfold VCDataEnricher.insert_all; revert acc.
  induction records as [| r records IH]; intros acc Hkeys; simpl.
  - exists acc; split; [reflexivity |].
    split; [rewrite app_nil_r; reflexivity | reflexivity].
  - rewrite (Hkeys r (or_introl eq_refl)); cbn [bind].
    set (acc' := if String.eqb (id r) "" then acc else assoc_set acc (id r) r).
    destruct (IH acc' (fun r' H => Hkeys r' (or_intror H)))
      as (merged & Hrun & Hfst & Hget).
    exists merged; split; [exact Hrun |].
    rewrite merged_keys_cons; subst acc'.
    destruct (String.eqb_spec (id r) "") as [E | E].
    + split; [exact Hfst |].
      intros k Hk; rewrite (Hget k Hk).
      destruct (Spec.last_with id records k); [reflexivity |].
      destruct (String.eqb_spec (id r) k); [congruence | reflexivity].
    + split.
      * rewrite Hfst, assoc_set_fst; apply keys_step.
      * intros k Hk; rewrite (Hget k Hk).
        destruct (Spec.last_with id records k); [reflexivity |].
        destruct (String.eqb_spec (id r) k) as [<- | Hne].
        -- apply assoc_get_set_same.
        -- apply assoc_get_set_other; exact Hne.
Qed.

(** The second pass: new keys go last, and a record with a key that the
    mapping holds fills the gaps of the record held. *)
Lemma add_or_update_run (records : list dict) (acc : list (string * dict)) :
  (forall r, In r records -> key_of r = Ok (id r)) ->
  exists merged,
    VCDataEnricher.add_or_update key_of records acc = Ok merged /\
    map fst merged
    = map fst acc
      ++ filter (fun x => negb (existsb (String.eqb x) (map fst acc)))
           (Spec.merged_keys id records) /\
    forall k, k <> "" ->
      assoc_get merged k
      = match assoc_get acc k with
        | Some e =>
            Some (fold_left VCDataEnricher.fill_gaps
                    (Spec.records_of id records k) e)
        | None =>
            match Spec.records_of id records k with
            | b :: bs => Some (fold_left VCDataEnricher.fill_gaps bs b)
            | [] => None
            end
        end.
Proof.
  unfold VCDataEnricher.add_or_update; revert acc.
  induction records as [| r records IH]; intros acc Hkeys; simpl.
  - exists acc; split; [reflexivity |].
    split; [rewrite app_nil_r; reflexivity |].
    intros k _; destruct (assoc_get acc k); reflexivity.
  - rewrite (Hkeys r (or_introl eq_refl)); cbn [bind].
    rewrite merged_keys_cons.
    destruct (String.eqb_spec (id r) "") as [E | E].
    + destruct (IH acc (fun r' H => Hkeys r' (or_intror H)))
        as (merged & Hrun & Hfst & Hget).
      exists merged; split; [exact Hrun | split; [exact Hfst |]].
      intros k Hk; rewrite (Hget k Hk).
      unfold Spec.records_of; cbn [filter].
      destruct (String.eqb_spec (id r) k); [congruence | reflexivity].
    + set (v := match assoc_get acc (id r) with
                | Some existing => VCDataEnricher.fill_gaps existing r
                | None => r
                end).
      assert (Hstep : match assoc_get acc (id r) with
                      | Some existing =>
                          Ok (assoc_set acc (id r)
                                (VCDataEnricher.fill_gaps existing r))
                      | None => Ok (assoc_set acc (id r) r)
                      end = Ok (assoc_set acc (id r) v))
        by (subst v; destruct (assoc_get acc (id r)); reflexivity).
      rewrite Hstep; cbn [bind].
      destruct (IH (assoc_set acc (id r) v) (fun r' H => Hkeys r' (or_intror H)))
        as (merged & Hrun & Hfst & Hget).
      exists merged; split; [exact Hrun |].
      split.
      * rewrite Hfst, assoc_set_fst; apply keys_step.
      * intros k Hk; rewrite (Hget k Hk).
        unfold Spec.records_of; cbn [filter].
        destruct (String.eqb_spec (id r) k) as [<- | Hne].
        -- rewrite assoc_get_set_same; subst v.
           destruct (assoc_get acc (id r)); reflexivity.
        -- rewrite assoc_get_set_other by exact Hne; reflexivity.
Qed.

Lemma first_occurrences_in (l : list string) (k : string) :
  In k (Spec.first_occurrences l) <-> In k l.
Proof.
  induction l as [| x l IH]; simpl; [tauto |].
  rewrite filter_In, IH.
  destruct (String.eqb_spec k x) as [-> | Hne]; simpl.
  - split; [intros [? | [? ?]]; auto | auto].
  - split; [intros [? | [? ?]]; auto | intros [? | ?]; auto].
Qed.

Lemma first_occurrences_nodup (l : list string) :
  NoDup (Spec.first_occurrences l).
Proof.
  induction l as [| x l IH]; simpl; constructor.
  - rewrite filter_In; intros [_ H].
    rewrite String.eqb_refl in H; discriminate.
  - apply NoDup_filter, IH.
Qed.

Lemma filter_true {X : Type} (l : list X) : filter (fun _ => true) l = l.
Proof. induction l as [| x l IH]; simpl; [| rewrite IH]; reflexivity. Qed.

Lemma filter_twice {X : Type} (p q : X -> bool) (l : list X) :
  filter p (filter q l) = filter (fun x => q x && p x) l.
Proof.
  induction l as [| x l IH]; simpl; [reflexivity |].
  destruct (q x); simpl; [destruct (p x) |]; rewrite IH; reflexivity.
Qed.

Lemma existsb_filter_other (y x : string) (l : list string) :
  y <> x ->
  existsb (String.eqb y) (filter (fun k' => negb (String.eqb k' x)) l)
  = existsb (String.eqb y) l.
Proof.
  intros Hne; induction l as [| z l IH]; [reflexivity |]; cbn [filter existsb].
  destruct (String.eqb_spec z x) as [-> | Hzx]; cbn [negb existsb].
  - rewrite IH; destruct (String.eqb_spec y x); [contradiction | reflexivity].
  - rewrite IH; reflexivity.
Qed.

(** The keys of two lists, one after the other. *)
Lemma first_occurrences_app (l1 l2 : list string) :
  Spec.first_occurrences (l1 ++ l2)
  = Spec.first_occurrences l1
    ++ filter (fun x => negb (existsb (String.eqb x)
                                (Spec.first_occurrences l1)))
         (Spec.first_occurrences l2).
Proof.
  induction l1 as [| x l1 IH]; cbn [app Spec.first_occurrences].
  - cbn [existsb negb]; rewrite filter_true; reflexivity.
  - rewrite IH, filter_app; cbn [app]; f_equal; f_equal.
    rewrite filter_twice; apply filter_ext.
    intros y; cbn [existsb].
    destruct (String.eqb_spec y x) as [-> | Hne]; cbn [orb negb].
    + apply andb_false_r.
    + rewrite andb_true_r, existsb_filter_other by exact Hne; reflexivity.
Qed.

Lemma merged_keys_in (records : list dict) (k : string) :
  In k (Spec.merged_keys id records)
  <-> k <> "" /\ exists r, In r records /\ id r = k.
Proof.
  unfold Spec.merged_keys.
  rewrite first_occurrences_in, filter_In, in_map_iff.
  destruct (String.eqb_spec k "") as [E | E]; simpl.
  - split; [intros [_ H]; discriminate | intros [H _]; contradiction].
  - split.
    + intros [(r & Hr & Hin) _]; split; [exact E | exists r; auto].
    + intros [_ (r & Hin & Hr)]; split; [exists r; auto | reflexivity].
Qed.

(** The values of a mapping with distinct keys, read by its keys. *)
Lemma assoc_values_lookup {V : Type} (d : list (string * V)) :
  NoDup (map fst d) ->
  map Some (assoc_values d) = map (assoc_get d) (map fst d).
Proof.
  unfold assoc_values.
  induction d as [| [k v] d IH]; intros Hnd; simpl; [reflexivity |].
  inversion Hnd as [| ? ? Hk Hd]; subst.
  rewrite String.eqb_refl; f_equal.
  rewrite (IH Hd); apply map_ext_in.
  intros k' Hk'.
  destruct (String.eqb_spec k' k) as [-> | _]; [contradiction | reflexivity].
Qed.

(** A merge returns, key by key in the order of the first records, the
    record that stands for the key. *)
Lemma merge_run (A B : list dict) :
  (forall r, In r (A ++ B) -> key_of r = Ok (id r)) ->
  exists out,
    (merged <- VCDataEnricher.insert_all key_of A [] ;;
     merged <- VCDataEnricher.add_or_update key_of B merged ;;
     Ok (assoc_values merged)) = Ok out /\
    map Some out
    = map (Spec.merged_record id A B) (Spec.merged_keys id (A ++ B)).
Proof.
  intros Hkeys.
  destruct (insert_all_run A [] (fun r H => Hkeys r (in_or_app _ _ _ (or_introl H))))
    as (m1 & Hrun1 & Hfst1 & Hget1).
  destruct (add_or_update_run B m1
              (fun r H => Hkeys r (in_or_app _ _ _ (or_intror H))))
    as (m2 & Hrun2 & Hfst2 & Hget2).
  rewrite Hrun1; cbn [bind]; rewrite Hrun2; cbn [bind].
  eexists; split; [reflexivity |].
  destruct (insert_all_keys A [] (fun r H => Hkeys r (in_or_app _ _ _ (or_introl H)))
              (NoDup_nil _)) as (m1' & Hrun1' & Hnd1 & _).
  rewrite Hrun1 in Hrun1'; injection Hrun1' as <-.
  destruct (add_or_update_keys B m1
              (fun r H => Hkeys r (in_or_app _ _ _ (or_intror H))) Hnd1)
    as (m2' & Hrun2' & Hnd2 & Hin2).
  rewrite Hrun2 in Hrun2'; injection Hrun2' as <-.
  rewrite (assoc_values_lookup m2 Hnd2).
  assert (Hall : map fst m2 = Spec.merged_keys id (A ++ B)).
  { rewrite Hfst2, Hfst1; cbn [map app existsb negb].
    rewrite filter_true.
    unfold Spec.merged_keys; rewrite map_app, filter_app.
    symmetry; apply first_occurrences_app. }
  rewrite Hall; apply map_ext_in.
  intros k Hk; apply merged_keys_in in Hk; destruct Hk as [Hne _].
  rewrite (Hget2 k Hne), (Hget1 k Hne); unfold Spec.merged_record.
  destruct (Spec.last_with id A k); reflexivity.
Qed.

End MergedKeys.

Lemma append_nonempty (a b : string) : b <> "" -> a +++ b <> "".
Proof.
  destruct a; simpl; [tauto | discriminate].
Qed.

Lemma deal_key_total (deal : dict) :
  Spec.deal_text deal = true ->
  VCDataEnricher.deal_key deal = Ok (Spec.deal_id deal) /\ Spec.deal_id deal <> "".
Proof.
  unfold Spec.deal_text, Spec.deal_id, VCDataEnricher.deal_key.
  destruct (dict_get deal "company" (VStr "")); try discriminate.
  destruct (dict_get deal "stage" (VStr "")); try discriminate.
  intros _; cbn [value_lower bind]; split; [reflexivity |].
  apply append_nonempty; discriminate.
Qed.

(** X5.  Deals collapse by identity: for deal lists whose company and stage
    fields are text, the merge returns one record for each distinct key
    [company.lower()|date|stage.lower()] of the two lists, in the order in
    which the keys first occur; the record of a key is the last deal of [A]
    with that key filled from the deals of [B] with that key in turn, or,
    without such a deal in [A], the first one of [B] filled from the later
    ones.  No deal is dropped, since no key is empty: the key of every deal
    is among the keys of the result. *)
Theorem merged_deals_one_per_key (A B : list dict) :
  forallb Spec.deal_text (A ++ B) = true ->
  exists out,
    VCDataEnricher._merge_deal_data A B = Ok out /\
    map Some out
    = map (Spec.merged_record Spec.deal_id A B)
        (Spec.merged_keys Spec.deal_id (A ++ B)) /\
    NoDup (Spec.merged_keys Spec.deal_id (A ++ B)) /\
    (forall deal,
        In deal (A ++ B) ->
        In (Spec.deal_id deal) (Spec.merged_keys Spec.deal_id (A ++ B))) /\
    List.length out
    = List.length (nodup string_dec (map Spec.deal_id (A ++ B))).
Proof.
  intros Htext; rewrite forallb_forall in Htext.
  pose proof (fun r H => proj1 (deal_key_total r (Htext r H))) as Hkeys.
  destruct (merge_run VCDataEnricher.deal_key Spec.deal_id A B Hkeys)
    as (out & Hrun & Hout).
  destruct (merge_count VCDataEnricher.deal_key Spec.deal_id A B Hkeys)
    as (out' & Hrun' & Hlen).
  unfold VCDataEnricher._merge_deal_data.
  rewrite Hrun in Hrun'; injection Hrun' as <-.
  exists out; split; [exact Hrun |].
  split; [exact Hout |].
  split; [apply first_occurrences_nodup |].
  split.
  - intros deal Hin; apply merged_keys_in.
    split; [exact (proj2 (deal_key_total deal (Htext deal Hin))) |].
    exists deal; split; [exact Hin | reflexivity].
  - rewrite Hlen; unfold Spec.distinct_nonempty; do 2 f_equal.
    apply forallb_filter_id, forallb_forall.
    intros k Hk; apply in_map_iff in Hk; destruct Hk as (r & <- & Hr).
    destruct (String.eqb_spec (Spec.deal_id r) "") as [E | E]; [| reflexivity].
    exfalso; exact (proj2 (deal_key_total r (Htext r Hr)) E).
Qed.

Lemma merged_deals_one_per_key_witness :
  let A := [ [("company", VStr "Acme"); ("date", VStr "2022-01-01");
              ("stage", VStr "Seed"); ("amount", VInt 0)];
             [("company", VStr "Bolt"); ("date", VStr "2022-02-01");
              ("stage", VStr "Series A")] ] in
  let B := [ [("company", VStr "ACME"); ("date", VStr "2022-01-01");
              ("stage", VStr "seed"); ("amount", VInt 750000)];
             [("date", VStr "2023-05-15")] ] in
  forallb Spec.deal_text (A ++ B) = true /\
  exists out,
    VCDataEnricher._merge_deal_data A B = Ok out /\
    map Some out
    = [ Some [("company", VStr "Acme"); ("date", VStr "2022-01-01");
              ("stage", VStr "Seed"); ("amount", VInt 750000)];
        Some [("company", VStr "Bolt"); ("date", VStr "2022-02-01");
              ("stage", VStr "Series A")];
        Some [("date", VStr "2023-05-15")] ].
Proof.
  split; [reflexivity |].
  destruct (merged_deals_one_per_key
              [ [("company", VStr "Acme"); ("date", VStr "2022-01-01");
                 ("stage", VStr "Seed"); ("amount", VInt 0)];
                [("company", VStr "Bolt"); ("date", VStr "2022-02-01");
                 ("stage", VStr "Series A")] ]
              [ [("company", VStr "ACME"); ("date", VStr "2022-01-01");
                 ("stage", VStr "seed"); ("amount", VInt 750000)];
                [("date", VStr "2023-05-15")] ]
              eq_refl) as (out & Hrun & Hout & _).
  exists out; split; [exact Hrun | exact Hout].
Defined.

(** X6.  Companies collapse by name: for company lists whose names are
    text, the merge returns one record for each distinct non-empty
    lower-cased name of the two lists, in the order in which the names
    first occur, and each record carries its name; the record of a name is
    the last record of [A] with that name filled from the records of [B]
    with that name in turn, or, without such a record in [A], the first one
    of [B] filled from the later ones. *)
Theorem merged_companies_one_per_name (A B : list dict) :
  forallb Spec.text_name (A ++ B) = true ->
  exists out,
    VCDataEnricher._merge_company_data A B = Ok out /\
    map Some out
    = map (Spec.merged_record Spec.name_of A B)
        (Spec.merged_keys Spec.name_of (A ++ B)) /\
    map Spec.name_of out = Spec.merged_keys Spec.name_of (A ++ B) /\
    NoDup (map Spec.name_of out) /\
    (forall r,
        In r (A ++ B) -> Spec.name_of r <> "" ->
        In (Spec.name_of r) (map Spec.name_of out)) /\
    List.length out
    = List.length (Spec.distinct_nonempty (map Spec.name_of (A ++ B))).
Proof.
  intros Htext.
  pose proof Htext as Hsplit; rewrite forallb_app in Hsplit.
  apply andb_true_iff in Hsplit; destruct Hsplit as [HA HB].
  rewrite forallb_forall in Htext.
  pose proof (fun r H => text_name_key r (Htext r H)) as Hkeys.
  destruct (merge_run VCDataEnricher.company_key Spec.name_of A B Hkeys)
    as (out & Hrun & Hout).
  destruct (merge_count VCDataEnricher.company_key Spec.name_of A B Hkeys)
    as (out' & Hrun' & Hlen).
  rewrite Hrun in Hrun'; injection Hrun' as <-.
  assert (Hnames : map Spec.name_of out
                   = Spec.merged_keys Spec.name_of (A ++ B)).
  { (* every record of the mapping is stored under its own name *)
    destruct (insert_all_spec A [] HA keyed_nil) as (m1 & Hrun1 & Hk1 & _).
    destruct (add_or_update_spec B B m1 (incl_refl B) HB Hk1)
      as (m2 & Hrun2 & [Hnd Hk2] & _).
    destruct (insert_all_run VCDataEnricher.company_key Spec.name_of A []
                (fun r H => Hkeys r (in_or_app _ _ _ (or_introl H))))
      as (n1 & Hn1 & Hfst1 & _).
    rewrite Hrun1 in Hn1; injection Hn1 as <-.
    destruct (add_or_update_run VCDataEnricher.company_key Spec.name_of B m1
                (fun r H => Hkeys r (in_or_app _ _ _ (or_intror H))))
      as (n2 & Hn2 & Hfst2 & _).
    rewrite Hrun2 in Hn2; injection Hn2 as <-.
    rewrite Hrun1 in Hrun; cbn [bind] in Hrun.
    rewrite Hrun2 in Hrun; cbn [bind] in Hrun; injection Hrun as <-.
    transitivity (map fst m2).
    - unfold assoc_values; rewrite map_map; apply map_ext_in.
      intros [k r] Hin; unfold Spec.name_of; cbn [fst snd].
      rewrite (proj1 (Hk2 k r Hin)); reflexivity.
    - rewrite Hfst2, Hfst1; cbn [map app existsb negb].
      rewrite filter_true.
      unfold Spec.merged_keys; rewrite map_app, filter_app.
      symmetry; apply first_occurrences_app. }
  unfold VCDataEnricher._merge_company_data.
  exists out; split; [exact Hrun |].
  split; [exact Hout |].
  split; [exact Hnames |].
  rewrite Hnames.
  split; [apply first_occurrences_nodup |].
  split; [| exact Hlen].
  intros r Hin Hne; apply merged_keys_in.
  split; [exact Hne | exists r; split; [exact Hin | reflexivity]].
Qed.

Lemma merged_companies_one_per_name_witness :
  let A := [ [("name", VStr "Acme")]; [("name", VStr "")]; [("name", VStr "Bolt")] ] in
  let B := [ [("name", VStr "ACME"); ("website", VStr "acme.com")];
             [("website", VStr "nameless.com")]; [("name", VStr "Core")] ] in
  forallb Spec.text_name (A ++ B) = true /\
  exists out,
    VCDataEnricher._merge_company_data A B = Ok out /\
    map Some out
    = [ Some [("name", VStr "Acme"); ("website", VStr "acme.com")];
        Some [("name", VStr "Bolt")];
        Some [("name", VStr "Core")] ].
Proof.
  split; [reflexivity |].
  destruct (merged_companies_one_per_name
              [ [("name", VStr "Acme")]; [("name", VStr "")]; [("name", VStr "Bolt")] ]
              [ [("name", VStr "ACME"); ("website", VStr "acme.com")];
                [("website", VStr "nameless.com")]; [("name", VStr "Core")] ]
              eq_refl) as (out & Hrun & Hout & _).
  exists out; split; [exact Hrun | exact Hout].
Defined.

(** * Merging again *)

Lemma assoc_set_same_value {V : Type} (d : list (string * V)) (k : string) (v : V) :
  assoc_get d k = Some v -> assoc_set d k v = d.
Proof.
  induction d as [| [k' v'] d IH]; simpl; [discriminate |].
  destruct (String.eqb_spec k k') as [-> | Hk]; intros H.
  - injection H as ->; reflexivity.
  - rewrite IH by exact H; reflexivity.
Qed.

(** Filling gaps from a record that is covered changes nothing. *)
Lemma fill_gaps_noop (m b : dict) :
  Spec.covers m b -> VCDataEnricher.fill_gaps m b = m.
Proof.
  unfold VCDataEnricher.fill_gaps, Spec.covers.
  induction b as [| [key value] b IH]; intros Hcov; simpl; [reflexivity |].
  assert (Hstep : (truthy value
                   && match assoc_get m key with
                      | Some old => negb (truthy old)
                      | None => true
                      end)%bool = false).
  { destruct (truthy value) eqn:Tv; [| reflexivity].
    destruct (Hcov key value (or_introl eq_refl) Tv) as (v' & -> & ->); reflexivity. }
  rewrite Hstep; apply IH.
  intros F v Hin; apply Hcov; right; exact Hin.
Qed.

(** After filling gaps from a record, the record is covered. *)
Lemma fill_gaps_covers (m b : dict) :
  Spec.covers (VCDataEnricher.fill_gaps m b) b.
Proof.
  unfold Spec.covers, VCDataEnricher.fill_gaps; revert m.
  induction b as [| [key value] b IH]; intros m F v Hin Htrue; [contradiction |].
  cbn [fold_left].
  set (m' := if (truthy value && _)%bool then assoc_set m key value else m).
  destruct Hin as [Heq | Hin]; [| exact (IH m' F v Hin Htrue)].
  injection Heq as -> ->.
  assert (Hnow : exists v', assoc_get m' F = Some v' /\ truthy v' = true).
  { subst m'; rewrite Htrue; cbn [andb].
    destruct (assoc_get m F) as [old |] eqn:E.
    - destruct (truthy old) eqn:To; cbn [negb].
      + exists old; split; assumption.
      + exists v; split; [apply assoc_get_set_same | exact Htrue].
    - exists v; split; [apply assoc_get_set_same | exact Htrue]. }
  destruct Hnow as (v' & Hget & Hv').
  exists v'; split; [| exact Hv'].
  apply (fill_gaps_keeps m' b F v' Hget Hv').
Qed.

Lemma covers_kept (m b c : dict) :
  Spec.covers m b -> Spec.covers (VCDataEnricher.fill_gaps m c) b.
Proof.
  intros Hcov F v Hin Htrue.
  destruct (Hcov F v Hin Htrue) as (v' & Hget & Hv').
  exists v'; split; [apply fill_gaps_keeps; assumption | exact Hv'].
Qed.

Lemma covers_self (b : dict) : Spec.well_formed b = true -> Spec.covers b b.
Proof.
  intros Hwf F v Hin Htrue; exists v; split; [| exact Htrue].
  apply assoc_get_of_in; [apply distinct_nodup; exact Hwf | exact Hin].
Qed.

(** After the second pass every record of the second list is covered by the
    record stored under its name. *)
Lemma add_or_update_covers (bs : list dict) (acc : list (string * dict))
  (seen : list dict) :
  forallb Spec.text_name bs = true ->
  forallb Spec.well_formed bs = true ->
  Spec.keyed acc ->
  (forall b, In b seen -> Spec.name_of b <> "" ->
             exists m, assoc_get acc (Spec.name_of b) = Some m /\ Spec.covers m b) ->
  exists merged,
    VCDataEnricher.add_or_update VCDataEnricher.company_key bs acc = Ok merged /\
    Spec.keyed merged /\
    forall b, In b (seen ++ bs) -> Spec.name_of b <> "" ->
              exists m, assoc_get merged (Spec.name_of b) = Some m /\ Spec.covers m b.
Proof.
  unfold VCDataEnricher.add_or_update; revert acc seen.
  induction bs as [| r bs IH]; intros acc seen Htext Hwf Hacc Hseen; simpl.
  - exists acc; split; [reflexivity | split; [exact Hacc |]].
    intros b Hb; rewrite app_nil_r in Hb; apply Hseen; exact Hb.
  - cbn [forallb] in Htext, Hwf.
    apply andb_prop in Htext; destruct Htext as [Hr Htext].
    apply andb_prop in Hwf; destruct Hwf as [Hrwf Hwf].
    rewrite (text_name_key r Hr); cbn [bind].
    assert (Hgoal : forall acc',
               Spec.keyed acc' ->
               (forall b, In b (seen ++ [r]) -> Spec.name_of b <> "" ->
                          exists m, assoc_get acc' (Spec.name_of b) = Some m
                                    /\ Spec.covers m b) ->
               exists merged,
                 for_each
                   (fun merged record =>
                      key <- VCDataEnricher.company_key record ;;
                      if String.eqb key "" then Ok merged
                      else match assoc_get merged key with
                           | Some existing =>
                               Ok (assoc_set merged key
                                     (VCDataEnricher.fill_gaps existing record))
                           | None => Ok (assoc_set merged key record)
                           end)
                   bs acc' = Ok merged /\
                 Spec.keyed merged /\
                 forall b, In b (seen ++ r :: bs) -> Spec.name_of b <> "" ->
                           exists m, assoc_get merged (Spec.name_of b) = Some m
                                     /\ Spec.covers m b).
    { intros acc' Hacc' Hseen'.
      destruct (IH acc' (seen ++ [r]) Htext Hwf Hacc' Hseen')
        as (merged & Hrun & Hkeyed & Hcov).
      exists merged; split; [exact Hrun | split; [exact Hkeyed |]].
      intros b Hb; apply Hcov; rewrite <- app_assoc; exact Hb. }
    destruct (String.eqb_spec (Spec.name_of r) "") as [E | E]; cbn [bind].
    + apply Hgoal; [exact Hacc |].
      intros b Hb Hname; apply in_app_or in Hb; destruct Hb as [Hb | [<- | []]];
        [apply Hseen; assumption | contradiction].
    + destruct (assoc_get acc (Spec.name_of r)) as [existing |] eqn:Hex; cbn [bind].
      * assert (Hkey : VCDataEnricher.company_key existing = Ok (Spec.name_of r))
          by (apply (proj2 Hacc), assoc_get_in; exact Hex).
        apply Hgoal.
        { apply keyed_set; [exact Hacc | apply fill_gaps_key; assumption | exact E]. }
        intros b Hb Hname; apply in_app_or in Hb.
        destruct (String.eqb_spec (Spec.name_of r) (Spec.name_of b)) as [Ek | Ek].
        -- rewrite <- Ek, assoc_get_set_same; eexists; split; [reflexivity |].
           destruct Hb as [Hb | [<- | []]]; [| apply fill_gaps_covers].
           destruct (Hseen b Hb Hname) as (m & Hm & Hcov).
           rewrite <- Ek, Hex in Hm; injection Hm as <-.
           apply covers_kept; exact Hcov.
        -- rewrite assoc_get_set_other by exact Ek.
           destruct Hb as [Hb | [<- | []]]; [apply Hseen; assumption | contradiction Ek; reflexivity].
      * apply Hgoal.
        { apply keyed_set; [exact Hacc | apply text_name_key; exact Hr | exact E]. }
        intros b Hb Hname; apply in_app_or in Hb.
        destruct (String.eqb_spec (Spec.name_of r) (Spec.name_of b)) as [Ek | Ek].
        -- rewrite <- Ek, assoc_get_set_same; eexists; split; [reflexivity |].
           destruct Hb as [Hb | [<- | []]]; [| apply covers_self; exact Hrwf].
           destruct (Hseen b Hb Hname) as (m & Hm & Hcov).
           rewrite <- Ek, Hex in Hm; discriminate.
        -- rewrite assoc_get_set_other by exact Ek.
           destruct Hb as [Hb | [<- | []]]; [apply Hseen; assumption | contradiction Ek; reflexivity].
Qed.

(** On a mapping that covers them, the second pass changes nothing. *)
Lemma add_or_update_fixed (bs : list dict) (acc : list (string * dict)) :
  forallb Spec.text_name bs = true ->
  (forall b, In b bs -> Spec.name_of b <> "" ->
             exists m, assoc_get acc (Spec.name_of b) = Some m /\ Spec.covers m b) ->
  VCDataEnricher.add_or_update VCDataEnricher.company_key bs acc = Ok acc.
Proof.
  unfold VCDataEnricher.add_or_update.
  induction bs as [| r bs IH]; intros Htext Hcov; simpl; [reflexivity |].
  cbn [forallb] in Htext; apply andb_prop in Htext; destruct Htext as [Hr Htext].
  rewrite (text_name_key r Hr); cbn [bind].
  destruct (String.eqb_spec (Spec.name_of r) "") as [E | E]; cbn [bind].
  - apply IH; [exact Htext | intros b Hb; apply Hcov; right; exact Hb].
  - destruct (Hcov r (or_introl eq_refl) E) as (m & Hm & Hc).
    rewrite Hm, (fill_gaps_noop m r Hc), (assoc_set_same_value acc _ m Hm); cbn [bind].
    apply IH; [exact Htext | intros b Hb; apply Hcov; right; exact Hb].
Qed.

(** The first pass over the records of a keyed mapping rebuilds it. *)
Lemma insert_all_rebuilds (merged : list (string * dict)) :
  Spec.keyed merged ->
  VCDataEnricher.insert_all VCDataEnricher.company_key (assoc_values merged) []
  = Ok merged.
Proof.
  intros [Hnd Hkeys].
  assert (Hnames : map Spec.name_of (assoc_values merged) = map fst merged).
  { unfold assoc_values; rewrite map_map; apply map_ext_in.
    intros [k r] Hin; simpl; unfold Spec.name_of.
    rewrite (proj1 (Hkeys k r Hin)); reflexivity. }
  rewrite (insert_all_distinct (assoc_values merged) []).
  - simpl; f_equal; unfold assoc_values; rewrite map_map.
    rewrite <- (map_id merged) at 2; apply map_ext_in.
    intros [k r] Hin; simpl; unfold Spec.name_of.
    rewrite (proj1 (Hkeys k r Hin)); reflexivity.
  - simpl; rewrite Hnames; exact Hnd.
  - rewrite Hnames; intros Hin; apply in_map_iff in Hin.
    destruct Hin as ([k r] & Hk & Hin); simpl in Hk; subst k.
    exact (proj2 (Hkeys "" r Hin) eq_refl).
Qed.

(** X7.  Merging again changes nothing: for company lists whose names are
    text, with the records of [B] well formed, the result of merging [A]
    with [B] is returned unchanged when it is merged with [B] once more,
    and when it is merged with the empty list. *)
Theorem merge_again (A B : list dict) :
  forallb Spec.text_name A = true ->
  forallb Spec.text_name B = true ->
  forallb Spec.well_formed B = true ->
  exists merged,
    VCDataEnricher._merge_company_data A B = Ok merged /\
    VCDataEnricher._merge_company_data merged B = Ok merged /\
    VCDataEnricher._merge_company_data merged [] = Ok merged.
Proof.
  intros HA HB Hwf; unfold VCDataEnricher._merge_company_data.
  destruct (insert_all_spec A [] HA keyed_nil) as (m1 & Hrun1 & Hk1 & _).
  destruct (add_or_update_covers B m1 [] HB Hwf Hk1 (fun b H => False_ind _ H))
    as (m2 & Hrun2 & Hk2 & Hcov).
  rewrite Hrun1; cbn [bind]; rewrite Hrun2; cbn [bind].
  exists (assoc_values m2); split; [reflexivity |].
  rewrite (insert_all_rebuilds m2 Hk2); cbn [bind].
  split; [| reflexivity].
  rewrite (add_or_update_fixed B m2 HB Hcov); reflexivity.
Qed.

Lemma merge_again_witness :
  let A := [ [("name", VStr "Acme"); ("website", VStr "a.com")];
             [("name", VStr "Bolt"); ("founded", VStr "")] ] in
  let B := [ [("name", VStr "ACME"); ("website", VStr "b.com");
              ("founded", VStr "2020")];
             [("name", VStr "bolt"); ("founded", VStr "2019")];
             [("name", VStr "Core")] ] in
  (forallb Spec.text_name A = true /\ forallb Spec.text_name B = true
   /\ forallb Spec.well_formed B = true) /\
  exists merged,
    VCDataEnricher._merge_company_data A B = Ok merged /\
    VCDataEnricher._merge_company_data merged B = Ok merged /\
    VCDataEnricher._merge_company_data merged [] = Ok merged.
Proof.
  split; [repeat split |].
  apply (merge_again
           [ [("name", VStr "Acme"); ("website", VStr "a.com")];
             [("name", VStr "Bolt"); ("founded", VStr "")] ]
           [ [("name", VStr "ACME"); ("website", VStr "b.com");
              ("founded", VStr "2020")];
             [("name", VStr "bolt"); ("founded", VStr "2019")];
             [("name", VStr "Core")] ]);
    reflexivity.
Defined.

(** * The cache of the provider gateway *)

Lemma key_eqb_refl (k : VCDataEnricher.key) : VCDataEnricher.key_eqb k k = true.
Proof.
  destruct k; simpl; [reflexivity | apply Z.eqb_refl | apply String.eqb_refl].
Qed.

Section CacheFacts.
Context {W : Type}.

Lemma memoised_hit {X : Type} read write
  (call : value -> W -> result X * W) (k : value) (x : X)
  (s : VCDataEnricher.state (W := W)) :
  Spec.cached read k x (fst s) ->
  VCDataEnricher.memoised read write call k s = (Ok x, s).
Proof.
  destruct s as [c w]; intros (hk & Hk & Hget); simpl in Hget.
  unfold VCDataEnricher.memoised; rewrite Hk, Hget; reflexivity.
Qed.

Lemma memoised_caches {X : Type} read write
  (call : value -> W -> result X * W) (k : value) (x : X)
  (s s1 : VCDataEnricher.state (W := W)) :
  (forall c m, read (write c m) = m) ->
  VCDataEnricher.memoised read write call k s = (Ok x, s1) ->
  Spec.cached read k x (fst s1).
Proof.
  destruct s as [c w]; intros Hrw; unfold VCDataEnricher.memoised, Spec.cached.
  destruct (VCDataEnricher.hash_key k) as [hk | e]; [| discriminate].
  destruct (VCDataEnricher.memo_get (read c) hk) as [y |] eqn:Hget.
  - intros H; injection H as <- <-; exists hk; split; [reflexivity | exact Hget].
  - destruct (call k w) as [[y | e] w']; [| discriminate].
    intros H; injection H as <- <-; exists hk; split; [reflexivity |].
    simpl; rewrite Hrw; simpl; rewrite key_eqb_refl; reflexivity.
Qed.

(** A memoised call leaves the cache as it was or writes its own slot. *)
Lemma memoised_cache {X : Type} read write
  (call : value -> W -> result X * W) (k : value) (r : result X)
  (s s1 : VCDataEnricher.state (W := W)) :
  VCDataEnricher.memoised read write call k s = (r, s1) ->
  fst s1 = fst s \/ exists m, fst s1 = write (fst s) m.
Proof.
  destruct s as [c w]; unfold VCDataEnricher.memoised.
  destruct (VCDataEnricher.hash_key k) as [hk | e];
    [| intros H; injection H as <- <-; left; reflexivity].
  destruct (VCDataEnricher.memo_get (read c) hk) as [y |];
    [intros H; injection H as <- <-; left; reflexivity |].
  destruct (call k w) as [[y | e] w']; intros H; injection H as <- <-.
  - right; eexists; reflexivity.
  - left; reflexivity.
Qed.

Lemma bindM_ok {A B : Type} (m : VCDataEnricher.M (W := W) A)
  (k : A -> VCDataEnricher.M (W := W) B) s b s2 :
  VCDataEnricher.bindM m k s = (Ok b, s2) ->
  exists a s1, m s = (Ok a, s1) /\ k a s1 = (Ok b, s2).
Proof.
  unfold VCDataEnricher.bindM; destruct (m s) as [[a | e] s1]; [| discriminate].
  intros H; exists a, s1; split; [reflexivity | exact H].
Qed.

End CacheFacts.

Ltac slot_kept H :=
  let E := fresh "E" in
  destruct (memoised_cache _ _ _ _ _ _ _ H) as [E | [? E]];
  rewrite E; reflexivity.

(** X8.  What the gateway returned it has cached: once the two information
    lookups for a name and then the four portfolio and deal lookups for two
    ids have returned, repeating them in the state reached returns the same
    answers and leaves the cache and the world as they are, whatever the
    providers would answer now. *)
Theorem lookups_cached {W : Type} (crunchbase pitchbook later_cb later_pb : VCDataEnricher.Provider W)
  (name cb_id pb_id : value) (s s1 s2 : VCDataEnricher.state (W := W))
  (infos : dict * dict)
  (fetched : list dict * list dict * list dict * list dict) :
  VCDataEnricher._get_vc_info crunchbase pitchbook name s = (Ok infos, s1) ->
  VCDataEnricher._get_portfolio_and_deals crunchbase pitchbook cb_id pb_id s1
  = (Ok fetched, s2) ->
  VCDataEnricher._get_vc_info later_cb later_pb name s2 = (Ok infos, s2) /\
  VCDataEnricher._get_portfolio_and_deals later_cb later_pb cb_id pb_id s2
  = (Ok fetched, s2).
Proof.
  unfold VCDataEnricher._get_vc_info, VCDataEnricher._get_portfolio_and_deals.
  intros H1 H2.
  apply bindM_ok in H1; destruct H1 as (cb & sa & Hcb & H1).
  apply bindM_ok in H1; destruct H1 as (pb & sb & Hpb & H1).
  unfold VCDataEnricher.ret in H1; injection H1 as <- <-.
  apply bindM_ok in H2; destruct H2 as (cbp & sc & Hcbp & H2).
  apply bindM_ok in H2; destruct H2 as (cbd & sd & Hcbd & H2).
  apply bindM_ok in H2; destruct H2 as (pbp & se & Hpbp & H2).
  apply bindM_ok in H2; destruct H2 as (pbd & sf & Hpbd & H2).
  unfold VCDataEnricher.ret in H2; injection H2 as <- <-.
  assert (C1 : Spec.cached VCDataEnricher.cb_info name cb (fst sf)).
  { pose proof (memoised_caches VCDataEnricher.cb_info VCDataEnricher.set_cb_info _ _ _ _ _ (fun c m => eq_refl) Hcb) as (hk & Hk & Hget).
    exists hk; split; [exact Hk |]. rewrite <- Hget.
    f_equal.
    transitivity (VCDataEnricher.cb_info (fst se)); [slot_kept Hpbd |].
    transitivity (VCDataEnricher.cb_info (fst sd)); [slot_kept Hpbp |].
    transitivity (VCDataEnricher.cb_info (fst sc)); [slot_kept Hcbd |].
    transitivity (VCDataEnricher.cb_info (fst sb)); [slot_kept Hcbp |].
    slot_kept Hpb. }
  assert (C2 : Spec.cached VCDataEnricher.pb_info name pb (fst sf)).
  { pose proof (memoised_caches VCDataEnricher.pb_info VCDataEnricher.set_pb_info _ _ _ _ _ (fun c m => eq_refl) Hpb) as (hk & Hk & Hget).
    exists hk; split; [exact Hk |]. rewrite <- Hget.
    f_equal.
    transitivity (VCDataEnricher.pb_info (fst se)); [slot_kept Hpbd |].
    transitivity (VCDataEnricher.pb_info (fst sd)); [slot_kept Hpbp |].
    transitivity (VCDataEnricher.pb_info (fst sc)); [slot_kept Hcbd |].
    slot_kept Hcbp. }
  assert (C3 : Spec.cached VCDataEnricher.cb_portfolio cb_id cbp (fst sf)).
  { pose proof (memoised_caches VCDataEnricher.cb_portfolio VCDataEnricher.set_cb_portfolio _ _ _ _ _ (fun c m => eq_refl) Hcbp) as (hk & Hk & Hget).
    exists hk; split; [exact Hk |]. rewrite <- Hget.
    f_equal.
    transitivity (VCDataEnricher.cb_portfolio (fst se)); [slot_kept Hpbd |].
    transitivity (VCDataEnricher.cb_portfolio (fst sd)); [slot_kept Hpbp |].
    slot_kept Hcbd. }
  assert (C4 : Spec.cached VCDataEnricher.cb_deals cb_id cbd (fst sf)).
  { pose proof (memoised_caches VCDataEnricher.cb_deals VCDataEnricher.set_cb_deals _ _ _ _ _ (fun c m => eq_refl) Hcbd) as (hk & Hk & Hget).
    exists hk; split; [exact Hk |]. rewrite <- Hget.
    f_equal.
    transitivity (VCDataEnricher.cb_deals (fst se)); [slot_kept Hpbd |].
    slot_kept Hpbp. }
  assert (C5 : Spec.cached VCDataEnricher.pb_portfolio pb_id pbp (fst sf)).
  { pose proof (memoised_caches VCDataEnricher.pb_portfolio VCDataEnricher.set_pb_portfolio _ _ _ _ _ (fun c m => eq_refl) Hpbp) as (hk & Hk & Hget).
    exists hk; split; [exact Hk |]. rewrite <- Hget.
    f_equal.
    slot_kept Hpbd. }
  assert (C6 : Spec.cached VCDataEnricher.pb_deals pb_id pbd (fst sf))
    by exact (memoised_caches VCDataEnricher.pb_deals VCDataEnricher.set_pb_deals _ _ _ _ _ (fun c m => eq_refl) Hpbd).
  unfold VCDataEnricher.bindM, VCDataEnricher.ret.
  rewrite (memoised_hit _ _ _ _ _ _ C1), (memoised_hit _ _ _ _ _ _ C2).
  rewrite (memoised_hit _ _ _ _ _ _ C3), (memoised_hit _ _ _ _ _ _ C4).
  rewrite (memoised_hit _ _ _ _ _ _ C5), (memoised_hit _ _ _ _ _ _ C6).
  split; reflexivity.
Qed.

Lemma lookups_cached_witness :
  let answering : VCDataEnricher.Provider nat :=
    {| VCDataEnricher.get_vc_info :=
         fun _ w => (Ok [("uuid", VStr "u1")], S w);
       VCDataEnricher.get_portfolio :=
         fun _ w => (Ok [[("name", VStr "Acme")]], S w);
       VCDataEnricher.get_deals := fun _ w => (Ok [], S w) |} in
  let failing : VCDataEnricher.Provider nat :=
    {| VCDataEnricher.get_vc_info := fun _ w => (Raise KeyError, S w);
       VCDataEnricher.get_portfolio := fun _ w => (Raise KeyError, S w);
       VCDataEnricher.get_deals := fun _ w => (Raise KeyError, S w) |} in
  exists infos fetched s1 s2,
    VCDataEnricher._get_vc_info answering answering (VStr "Sequoia")
      (VCDataEnricher.empty_cache, 0%nat) = (Ok infos, s1) /\
    VCDataEnricher._get_portfolio_and_deals answering answering
      (VStr "u1") (VStr "") s1 = (Ok fetched, s2) /\
    snd s2 = 4%nat /\
    VCDataEnricher._get_vc_info failing failing (VStr "Sequoia") s2
    = (Ok infos, s2) /\
    VCDataEnricher._get_portfolio_and_deals failing failing
      (VStr "u1") (VStr "") s2 = (Ok fetched, s2).
Proof.
  intros answering failing.
  do 4 eexists.
  split; [reflexivity |].
  split; [reflexivity |].
  split; [reflexivity |].
  eapply (lookups_cached answering answering failing failing
            (VStr "Sequoia") (VStr "u1") (VStr "")
            (VCDataEnricher.empty_cache, 0%nat));
    reflexivity.
Defined.

(** * The mock providers *)

Lemma for_each_invariant {S X : Type} (P : S -> Prop)
  (body : S -> X -> result S) (xs : list X) (s out : S) :
  (forall s x s', P s -> body s x = Ok s' -> P s') ->
  P s -> for_each body xs s = Ok out -> P out.
Proof.
  intros Hstep; revert s; induction xs as [| x xs IH]; intros s Hs; simpl.
  - intros H; injection H as <-; exact Hs.
  - destruct (body s x) as [s' |] eqn:E; simpl; [| discriminate].
    apply IH, (Hstep s x s' Hs E).
Qed.

(** An endpoint under [/organizations/] holds the word the Crunchbase
    request looks for first, and one under [/investors/] the word the
    PitchBook request looks for first. *)
Lemma organizations_endpoint (rest : string) :
  contains ("/organizations/" +++ rest) "organizations" = true.
Proof. reflexivity. Qed.

Lemma investors_endpoint (rest : string) :
  contains ("/investors/" +++ rest) "investors" = true.
Proof. reflexivity. Qed.

(** X9.  The providers the enricher is built with never return a portfolio
    company or a deal: for every id, the portfolio and the deal requests of
    both providers return the empty list after one simulated delay, whatever
    [use_mock] is.  Their endpoints all hold the word that selects the
    organization (or investor) answer, so the portfolio and deal generators
    are never reached. *)
Theorem mock_lists_empty (use_mock : bool) (vc_id : value) (w : world) :
  let crunchbase := fst (__init__ use_mock) in
  let pitchbook := snd (__init__ use_mock) in
  VCDataEnricher.get_portfolio crunchbase vc_id w = (Ok [], sleep w) /\
  VCDataEnricher.get_deals crunchbase vc_id w = (Ok [], sleep w) /\
  VCDataEnricher.get_portfolio pitchbook vc_id w = (Ok [], sleep w) /\
  VCDataEnricher.get_deals pitchbook vc_id w = (Ok [], sleep w).
Proof.
  assert (Hinit : __init__ use_mock
                  = (MockCrunchbaseProvider.new None, MockPitchbookProvider.new))
    by (destruct use_mock; reflexivity).
  rewrite Hinit; cbn [fst snd MockCrunchbaseProvider.new MockPitchbookProvider.new
                      VCDataEnricher.get_portfolio VCDataEnricher.get_deals].
  unfold MockCrunchbaseProvider.get_portfolio, MockCrunchbaseProvider.get_deals,
    MockPitchbookProvider.get_portfolio, MockPitchbookProvider.get_deals,
    MockCrunchbaseProvider._make_request, MockPitchbookProvider._make_request.
  rewrite !organizations_endpoint, !investors_endpoint.
  repeat split; reflexivity.
Qed.

Lemma deal_of_card_not_lead (card props : value) (deal : dict) :
  MockCrunchbaseProvider.deal_of_card card props = Ok deal ->
  assoc_get deal "is_lead" = Some (VBool false).
Proof.
  unfold MockCrunchbaseProvider.deal_of_card; intros H.
  apply bind_ok in H; destruct H as (lead_investors & _ & H).
  apply bind_ok in H; destruct H as (is_lead & Hany & H).
  assert (His : is_lead = false)
    by (destruct lead_investors; simpl in Hany; [congruence | discriminate]).
  subst is_lead.
  repeat (apply bind_ok in H; destruct H as (? & _ & H)).
  injection H as <-; reflexivity.
Qed.

Lemma cards_of_response_all {X : Type} (P : X -> Prop) (response : value)
  (record_of : value -> value -> result X) (records : list X) :
  (forall card props record, record_of card props = Ok record -> P record) ->
  MockCrunchbaseProvider.cards_of_response response record_of = Ok records ->
  Forall P records.
Proof.
  intros Hrec; unfold MockCrunchbaseProvider.cards_of_response; intros H.
  apply bind_ok in H; destruct H as ([|] & _ & H);
    [| injection H as <-; constructor].
  apply bind_ok in H; destruct H as (data & _ & H).
  apply bind_ok in H; destruct H as (cards & _ & H).
  apply bind_ok in H; destruct H as (items & _ & H).
  revert H; apply for_each_invariant; [| constructor].
  intros acc card acc' Hacc Hbody.
  apply bind_ok in Hbody; destruct Hbody as ([|] & _ & Hbody);
    [| injection Hbody as <-; exact Hacc].
  apply bind_ok in Hbody; destruct Hbody as (props & _ & Hbody).
  apply bind_ok in Hbody; destruct Hbody as (record & Hrecord & Hbody).
  injection Hbody as <-.
  apply Forall_app; split; [exact Hacc |].
  constructor; [exact (Hrec card props record Hrecord) | constructor].
Qed.

Lemma no_lead_deals (deals : list dict) :
  Forall (fun deal => assoc_get deal "is_lead" = Some (VBool false)) deals ->
  Spec.lead_deals deals = [].
Proof.
  unfold Spec.lead_deals; induction 1 as [| deal deals Hd _ IH]; [reflexivity |].
  cbn [filter]; unfold dict_get; rewrite Hd; exact IH.
Qed.

(** X10.  The Crunchbase provider never reports a lead: whatever answers the
    request (a generated answer or a mock file), the deals it returns all
    carry [is_lead = False], because the lead test reads a name the method
    does not bind and so raises as soon as a card lists a lead investor.
    The enricher therefore rates such a deal list "Follow", or "Unknown"
    when it is empty. *)
Theorem crunchbase_never_leads (mock_data_path : option string)
  (vc_id : value) (w w' : world) (deals : list dict) :
  MockCrunchbaseProvider.get_deals mock_data_path vc_id w = (Ok deals, w') ->
  Forall (fun deal => assoc_get deal "is_lead" = Some (VBool false)) deals /\
  VCDataEnricher._determine_lead_follow deals
  = match deals with [] => "Unknown" | _ :: _ => "Follow" end.
Proof.
  unfold MockCrunchbaseProvider.get_deals.
  destruct (MockCrunchbaseProvider._make_request mock_data_path _ w)
    as [response w1].
  intros H; injection H as H _.
  apply bind_ok in H; destruct H as (r & _ & H).
  assert (Hall : Forall (fun deal => assoc_get deal "is_lead" = Some (VBool false))
                   deals).
  { revert H; unfold MockCrunchbaseProvider.deals_of_response.
    apply cards_of_response_all; exact deal_of_card_not_lead. }
  split; [exact Hall |].
  pose proof (lead_follow_by_counts deals) as Hrate; cbv zeta in Hrate.
  rewrite Hrate, (no_lead_deals deals Hall).
  destruct deals as [| d ds]; [reflexivity |].
  cbn [List.length].
  destruct (Z.eqb_spec (Z.of_nat (S (List.length ds))) 0) as [E | _]; [lia |].
  destruct (Z.leb_spec (7 * Z.of_nat (S (List.length ds))) (10 * Z.of_nat 0));
    [lia |].
  destruct (Z.leb_spec (10 * Z.of_nat 0) (3 * Z.of_nat (S (List.length ds))));
    [reflexivity | lia].
Qed.

Lemma crunchbase_never_leads_witness :
  let response :=
    VDict
      [ ("data",
         VDict
           [ ("cards",
              VList
                [ VDict
                    [ ("uuid", VStr "d1");
                      ("properties",
                       VDict [ ("name", VStr "Round 1");
                               ("money_raised", VInt 500000);
                               ("lead_investor_identifiers", VList []) ]) ];
                  VDict [("uuid", VStr "d2")] ]) ]) ] in
  let w :=
    {| sleeps := 0;
       json_file :=
         fun path =>
           if String.eqb path "mocks/participated_funding_rounds.json"
           then Some (Ok response) else None |} in
  exists deals,
    MockCrunchbaseProvider.get_deals (Some "mocks") (VStr "u1") w = (Ok deals, w)
    /\ List.length deals = 1%nat
    /\ Forall (fun deal => assoc_get deal "is_lead" = Some (VBool false)) deals
    /\ VCDataEnricher._determine_lead_follow deals
       = match deals with [] => "Unknown" | _ :: _ => "Follow" end.
Proof.
  intros response w.
  eexists; split; [reflexivity |]; split; [reflexivity |].
  eapply (crunchbase_never_leads (Some "mocks") (VStr "u1") w w).
  reflexivity.
Defined.

(** * The enricher with its mock providers *)

Lemma crunchbase_info_answer (name : value) (w : world) :
  MockCrunchbaseProvider.get_vc_info None name w
  = (Ok Spec.crunchbase_answer, sleep w).
Proof. reflexivity. Qed.

Lemma pitchbook_info_answer (name : value) (w : world) :
  MockPitchbookProvider.get_vc_info name w = (Ok Spec.pitchbook_answer, sleep w).
Proof. reflexivity. Qed.

Lemma crunchbase_portfolio_answer (vc_id : value) (w : world) :
  MockCrunchbaseProvider.get_portfolio None vc_id w = (Ok [], sleep w).
Proof.
  unfold MockCrunchbaseProvider.get_portfolio, MockCrunchbaseProvider._make_request.
  rewrite organizations_endpoint; reflexivity.
Qed.

Lemma crunchbase_deals_answer (vc_id : value) (w : world) :
  MockCrunchbaseProvider.get_deals None vc_id w = (Ok [], sleep w).
Proof.
  unfold MockCrunchbaseProvider.get_deals, MockCrunchbaseProvider._make_request.
  rewrite organizations_endpoint; reflexivity.
Qed.

Lemma pitchbook_portfolio_answer (vc_id : value) (w : world) :
  MockPitchbookProvider.get_portfolio vc_id w = (Ok [], sleep w).
Proof.
  unfold MockPitchbookProvider.get_portfolio, MockPitchbookProvider._make_request.
  rewrite investors_endpoint; reflexivity.
Qed.

Lemma pitchbook_deals_answer (vc_id : value) (w : world) :
  MockPitchbookProvider.get_deals vc_id w = (Ok [], sleep w).
Proof.
  unfold MockPitchbookProvider.get_deals, MockPitchbookProvider._make_request.
  rewrite investors_endpoint; reflexivity.
Qed.

Lemma memo_get_in {X : Type} (m : list (VCDataEnricher.key * X))
  (k : VCDataEnricher.key) (x : X) :
  VCDataEnricher.memo_get m k = Some x -> exists k', In (k', x) m.
Proof.
  induction m as [| [k' y] m IH]; simpl; [discriminate |].
  destruct (VCDataEnricher.key_eqb k k').
  - intros H; injection H as ->; exists k'; left; reflexivity.
  - intros H; destruct (IH H) as [k'' Hin]; exists k''; right; exact Hin.
Qed.

(** A memoised call whose slot holds only [x0] and whose provider answers
    [x0] after one delay: it returns [x0], from the cache or after one
    delay. *)
Lemma memoised_constant {X : Type} read write
  (call : value -> world -> result X * world) (k : value) (x0 : X)
  (hk : VCDataEnricher.key) (c : VCDataEnricher.Cache) (w : world) :
  VCDataEnricher.hash_key k = Ok hk ->
  Forall (fun e => snd e = x0) (read c) ->
  (forall w, call k w = (Ok x0, sleep w)) ->
  (VCDataEnricher.memo_get (read c) hk <> None /\
   VCDataEnricher.memoised read write call k (c, w) = (Ok x0, (c, w)))
  \/ (VCDataEnricher.memo_get (read c) hk = None /\
      VCDataEnricher.memoised read write call k (c, w)
      = (Ok x0, (write c ((hk, x0) :: read c), sleep w))).
Proof.
  intros Hk Hall Hcall; unfold VCDataEnricher.memoised; rewrite Hk.
  destruct (VCDataEnricher.memo_get (read c) hk) as [x |] eqn:Hget.
  - left; split; [discriminate |].
    destruct (memo_get_in _ _ _ Hget) as [k' Hin].
    rewrite Forall_forall in Hall; rewrite <- (Hall _ Hin); reflexivity.
  - right; split; [reflexivity |]; rewrite Hcall; reflexivity.
Qed.

Lemma slot_of_one_key {X : Type} (m : list (VCDataEnricher.key * X))
  (hk : VCDataEnricher.key) (x0 : X) :
  Forall (fun e => e = (hk, x0)) m ->
  VCDataEnricher.memo_get m hk = None -> m = [].
Proof.
  destruct m as [| e m]; [reflexivity |].
  intros Hall; inversion Hall as [| ? ? He _]; subst e; simpl.
  rewrite key_eqb_refl; discriminate.
Qed.

Ltac mock_slots :=
  match goal with
  | H : Spec.mock_cache _ |- _ =>
      destruct H as (Hm1 & Hm2 & Hm3 & Hm4 & Hm5 & Hm6)
  end.

(** The two information lookups. *)
Lemma mock_infos (name : value) (hk : VCDataEnricher.key)
  (c : VCDataEnricher.Cache) (w : world) :
  VCDataEnricher.hash_key name = Ok hk -> Spec.mock_cache c ->
  exists c' w',
    VCDataEnricher._get_vc_info (MockCrunchbaseProvider.new None)
      MockPitchbookProvider.new name (c, w)
    = (Ok (Spec.crunchbase_answer, Spec.pitchbook_answer), (c', w')) /\
    Spec.mock_cache c' /\ Spec.pending c' = Spec.pending c /\
    (sleeps w' <= sleeps w + 2)%nat.
Proof.
  intros Hk Hc; mock_slots.
  unfold VCDataEnricher._get_vc_info, VCDataEnricher.bindM, VCDataEnricher.ret.
  cbn [MockCrunchbaseProvider.new MockPitchbookProvider.new
       VCDataEnricher.get_vc_info].
  destruct (memoised_constant VCDataEnricher.cb_info VCDataEnricher.set_cb_info
              (MockCrunchbaseProvider.get_vc_info None) name
              Spec.crunchbase_answer hk c w Hk Hm1
              (crunchbase_info_answer name)) as [[_ ->] | [_ ->]].
  - destruct (memoised_constant VCDataEnricher.pb_info VCDataEnricher.set_pb_info
                MockPitchbookProvider.get_vc_info name
                Spec.pitchbook_answer hk c w Hk Hm2
                (pitchbook_info_answer name)) as [[_ ->] | [_ ->]].
    + exists c, w; repeat split; try assumption; lia.
    + eexists _, _; split; [reflexivity |].
      repeat split; simpl; try assumption; try lia.
      constructor; [reflexivity | assumption].
  - match goal with
    | |- context [VCDataEnricher.memoised _ _ _ _ (?c1, ?w1)] =>
        destruct (memoised_constant VCDataEnricher.pb_info
                    VCDataEnricher.set_pb_info
                    MockPitchbookProvider.get_vc_info name
                    Spec.pitchbook_answer hk c1 w1 Hk Hm2
                    (pitchbook_info_answer name)) as [[_ ->] | [_ ->]]
    end.
    + eexists _, _; split; [reflexivity |].
      repeat split; simpl; try assumption; try lia.
      constructor; [reflexivity | assumption].
    + eexists _, _; split; [reflexivity |].
      repeat split; simpl; try assumption; try lia;
        constructor; solve [reflexivity | assumption].
Qed.

(** One portfolio or deal lookup under the id of a mock answer. *)
Lemma mock_list_lookup read write
  (call : value -> world -> result (list dict) * world)
  (id : string) (c : VCDataEnricher.Cache) (w : world) :
  Forall (fun e => e = (VCDataEnricher.KStr id, [])) (read c) ->
  (forall w, call (VStr id) w = (Ok [], sleep w)) ->
  (VCDataEnricher.memoised read write call (VStr id) (c, w) = (Ok [], (c, w)))
  \/ (read c = [] /\
      VCDataEnricher.memoised read write call (VStr id) (c, w)
      = (Ok [], (write c [(VCDataEnricher.KStr id, [])], sleep w))).
Proof.
  intros Hall Hcall.
  assert (Hvals : Forall (fun e : VCDataEnricher.key * list dict => snd e = [])
                    (read c)).
  { eapply Forall_impl; [| exact Hall]; intros e ->; reflexivity. }
  destruct (memoised_constant read write call (VStr id) [] (VCDataEnricher.KStr id)
              c w eq_refl Hvals Hcall) as [[_ H] | [Hnone H]].
  - left; exact H.
  - right; pose proof (slot_of_one_key _ _ _ Hall Hnone) as Hnil.
    split; [exact Hnil |]; rewrite H, Hnil; reflexivity.
Qed.

(** The four portfolio and deal lookups. *)
Lemma mock_lists (c : VCDataEnricher.Cache) (w : world) :
  Spec.mock_cache c ->
  exists c' w',
    VCDataEnricher._get_portfolio_and_deals (MockCrunchbaseProvider.new None)
      MockPitchbookProvider.new (VStr "mock-uuid") (VStr "mock-pb-id") (c, w)
    = (Ok ([], [], [], []), (c', w')) /\
    Spec.mock_cache c' /\
    (sleeps w' + Spec.pending c' <= sleeps w + Spec.pending c)%nat.
Proof.
  intros Hc; mock_slots.
  unfold VCDataEnricher._get_portfolio_and_deals, VCDataEnricher.bindM,
    VCDataEnricher.ret.
  cbn [MockCrunchbaseProvider.new MockPitchbookProvider.new
       VCDataEnricher.get_portfolio VCDataEnricher.get_deals].
  assert (S1 : exists c1 w1,
             VCDataEnricher.memoised VCDataEnricher.cb_portfolio
               VCDataEnricher.set_cb_portfolio
               (VCDataEnricher.if_id (MockCrunchbaseProvider.get_portfolio None))
               (VStr "mock-uuid") (c, w) = (Ok [], (c1, w1)) /\
             Spec.mock_cache c1 /\
             (sleeps w1 + Spec.pending c1 <= sleeps w + Spec.pending c)%nat).
  { destruct (mock_list_lookup VCDataEnricher.cb_portfolio
                VCDataEnricher.set_cb_portfolio
                (VCDataEnricher.if_id (MockCrunchbaseProvider.get_portfolio None))
                "mock-uuid" c w Hm3
                (fun w => crunchbase_portfolio_answer (VStr "mock-uuid") w))
      as [H | [Hnil H]]; rewrite H; eexists _, _; (split; [reflexivity |]).
    - split; [repeat split; assumption | lia].
    - split; [repeat split; simpl; try assumption;
              constructor; [reflexivity | constructor] |].
      unfold Spec.pending; simpl; rewrite Hnil; simpl; lia. }
  destruct S1 as (c1 & w1 & -> & Hc1 & Hp1); clear Hm1 Hm2 Hm3 Hm4 Hm5 Hm6.
  mock_slots.
  assert (S2 : exists c2 w2,
             VCDataEnricher.memoised VCDataEnricher.cb_deals
               VCDataEnricher.set_cb_deals
               (VCDataEnricher.if_id (MockCrunchbaseProvider.get_deals None))
               (VStr "mock-uuid") (c1, w1) = (Ok [], (c2, w2)) /\
             Spec.mock_cache c2 /\
             (sleeps w2 + Spec.pending c2 <= sleeps w1 + Spec.pending c1)%nat).
  { destruct (mock_list_lookup VCDataEnricher.cb_deals
                VCDataEnricher.set_cb_deals
                (VCDataEnricher.if_id (MockCrunchbaseProvider.get_deals None))
                "mock-uuid" c1 w1 Hm4
                (fun w => crunchbase_deals_answer (VStr "mock-uuid") w))
      as [H | [Hnil H]]; rewrite H; eexists _, _; (split; [reflexivity |]).
    - split; [repeat split; assumption | lia].
    - split; [repeat split; simpl; try assumption;
              constructor; [reflexivity | constructor] |].
      unfold Spec.pending; simpl; rewrite Hnil; simpl; lia. }
  destruct S2 as (c2 & w2 & -> & Hc2 & Hp2); clear Hm1 Hm2 Hm3 Hm4 Hm5 Hm6.
  mock_slots.
  assert (S3 : exists c3 w3,
             VCDataEnricher.memoised VCDataEnricher.pb_portfolio
               VCDataEnricher.set_pb_portfolio
               (VCDataEnricher.if_id MockPitchbookProvider.get_portfolio)
               (VStr "mock-pb-id") (c2, w2) = (Ok [], (c3, w3)) /\
             Spec.mock_cache c3 /\
             (sleeps w3 + Spec.pending c3 <= sleeps w2 + Spec.pending c2)%nat).
  { destruct (mock_list_lookup VCDataEnricher.pb_portfolio
                VCDataEnricher.set_pb_portfolio
                (VCDataEnricher.if_id MockPitchbookProvider.get_portfolio)
                "mock-pb-id" c2 w2 Hm5
                (fun w => pitchbook_portfolio_answer (VStr "mock-pb-id") w))
      as [H | [Hnil H]]; rewrite H; eexists _, _; (split; [reflexivity |]).
    - split; [repeat split; assumption | lia].
    - split; [repeat split; simpl; try assumption;
              constructor; [reflexivity | constructor] |].
      unfold Spec.pending; simpl; rewrite Hnil; simpl; lia. }
  destruct S3 as (c3 & w3 & -> & Hc3 & Hp3); clear Hm1 Hm2 Hm3 Hm4 Hm5 Hm6.
  mock_slots.
  assert (S4 : exists c4 w4,
             VCDataEnricher.memoised VCDataEnricher.pb_deals
               VCDataEnricher.set_pb_deals
               (VCDataEnricher.if_id MockPitchbookProvider.get_deals)
               (VStr "mock-pb-id") (c3, w3) = (Ok [], (c4, w4)) /\
             Spec.mock_cache c4 /\
             (sleeps w4 + Spec.pending c4 <= sleeps w3 + Spec.pending c3)%nat).
  { destruct (mock_list_lookup VCDataEnricher.pb_deals
                VCDataEnricher.set_pb_deals
                (VCDataEnricher.if_id MockPitchbookProvider.get_deals)
                "mock-pb-id" c3 w3 Hm6
                (fun w => pitchbook_deals_answer (VStr "mock-pb-id") w))
      as [H | [Hnil H]]; rewrite H; eexists _, _; (split; [reflexivity |]).
    - split; [repeat split; assumption | lia].
    - split; [repeat split; simpl; try assumption;
              constructor; [reflexivity | constructor] |].
      unfold Spec.pending; simpl; rewrite Hnil; simpl; lia. }
  destruct S4 as (c4 & w4 & -> & Hc4 & Hp4).
  exists c4, w4; split; [reflexivity |]; split; [exact Hc4 | lia].
Qed.

(** The derived fields of the two mock answers with empty portfolio and
    deal lists. *)
Lemma mock_profile_derived (vc : dict) :
  (merged_portfolio <- VCDataEnricher._merge_company_data [] [] ;;
   merged_deals <- VCDataEnricher._merge_deal_data [] [] ;;
   sector_focus <- VCDataEnricher._derive_sector_focus merged_portfolio ;;
   stage_preference <- VCDataEnricher._derive_stage_preference merged_deals ;;
   range <- VCDataEnricher._calculate_check_range merged_deals ;;
   let check_range := VCDataEnricher._format_check_range (fst range) (snd range) in
   sweet_spot <- VCDataEnricher._calculate_sweet_spot merged_deals ;;
   let sweet_spot_str := VCDataEnricher._format_sweet_spot sweet_spot in
   let lead_follow := VCDataEnricher._determine_lead_follow merged_deals in
   geo_focus <- VCDataEnricher._determine_geo_focus Spec.crunchbase_answer
                  Spec.pitchbook_answer merged_portfolio ;;
   investment_thesis <-
     VCDataEnricher._derive_investment_thesis Spec.crunchbase_answer
       Spec.pitchbook_answer sector_focus stage_preference merged_portfolio ;;
   status <- VCDataEnricher.derive_status merged_portfolio merged_deals ;;
   Ok (dict_extend vc
         [ ("About",
            py_or (dict_get Spec.crunchbase_answer "description" (VStr ""))
                  (dict_get Spec.pitchbook_answer "description" (VStr "")));
           ("Investment Thesis", VStr investment_thesis);
           ("Sector Focus", VList (map VStr sector_focus));
           ("Preferred Deal Stage", VList (map VStr stage_preference));
           ("Check Range", VStr check_range);
           ("Check Sweet Spot", VStr sweet_spot_str);
           ("Geo Focus", VStr geo_focus);
           ("Status", VStr status);
           ("Lead/Follow", VStr lead_follow);
           ("Portfolio", VList (map VDict merged_portfolio));
           ("Deals", VList (map VDict merged_deals)) ]))
  = Ok (dict_extend vc Spec.mock_profile).
Proof. reflexivity. Qed.

(** One firm, in a cache of mock answers. *)
Lemma enrich_with_mocks (vc : dict) (c : VCDataEnricher.Cache) (w : world) :
  Spec.mock_cache c ->
  exists c' w',
    VCDataEnricher.enrich_vc_data (MockCrunchbaseProvider.new None)
      MockPitchbookProvider.new vc (c, w)
    = (Ok (Spec.enriched_with_mocks vc), (c', w')) /\
    Spec.mock_cache c' /\
    (sleeps w' + Spec.pending c'
     <= sleeps w + Spec.pending c
        + (if truthy (Spec.firm_name vc) then 2 else 0))%nat.
Proof.
  intros Hc; unfold VCDataEnricher.enrich_vc_data, Spec.enriched_with_mocks,
    Spec.firm_name, Spec.hashable.
  destruct (truthy (dict_get vc "Name" (VStr ""))) eqn:Hname; cbn [negb].
  2: { exists c, w; split; [reflexivity |]; split; [exact Hc | lia]. }
  destruct (VCDataEnricher.hash_key (dict_get vc "Name" (VStr ""))) as [hk | e]
    eqn:Hk.
  - destruct (mock_infos _ hk c w Hk Hc) as (c1 & w1 & Hinfo & Hc1 & Hp1 & Hs1).
    destruct (mock_lists c1 w1 Hc1) as (c2 & w2 & Hlists & Hc2 & Hs2).
    exists c2, w2.
    unfold VCDataEnricher.enrich_body, VCDataEnricher.bindM.
    rewrite Hinfo.
    change (dict_get Spec.crunchbase_answer "uuid" (VStr "")) with (VStr "mock-uuid").
    change (dict_get Spec.pitchbook_answer "uuid" (VStr "")) with (VStr "mock-pb-id").
    rewrite Hlists; unfold VCDataEnricher.lift.
    rewrite mock_profile_derived.
    split; [reflexivity |]; split; [exact Hc2 | lia].
  - exists c, w.
    unfold VCDataEnricher.enrich_body, VCDataEnricher.bindM,
      VCDataEnricher._get_vc_info, VCDataEnricher.memoised.
    rewrite Hk.
    split; [reflexivity |]; split; [exact Hc | lia].
Qed.

Lemma enrich_loop_with_mocks (vcs acc : list dict)
  (c : VCDataEnricher.Cache) (w : world) :
  Spec.mock_cache c ->
  exists c' w',
    VCDataEnricher.enrich_loop (MockCrunchbaseProvider.new None)
      MockPitchbookProvider.new vcs acc (c, w)
    = (Ok (acc ++ map Spec.enriched_with_mocks vcs), (c', w')) /\
    Spec.mock_cache c' /\
    (sleeps w' + Spec.pending c'
     <= sleeps w + Spec.pending c + 2 * List.length (Spec.named vcs))%nat.
Proof.
  revert acc c w; induction vcs as [| vc vcs IH]; intros acc c w Hc.
  - exists c, w; simpl; rewrite app_nil_r.
    split; [reflexivity |]; split; [exact Hc | lia].
  - destruct (enrich_with_mocks vc c w Hc) as (c1 & w1 & Hrun & Hc1 & Hs1).
    destruct (IH (acc ++ [Spec.enriched_with_mocks vc]) c1 w1 Hc1)
      as (c2 & w2 & Hrest & Hc2 & Hs2).
    exists c2, w2; cbn [VCDataEnricher.enrich_loop]; rewrite Hrun, Hrest.
    split; [rewrite <- app_assoc; reflexivity |]; split; [exact Hc2 |].
    unfold Spec.named in *; cbn [filter].
    destruct (truthy (Spec.firm_name vc)); cbn [List.length]; lia.
Qed.

Lemma empty_cache_mock : Spec.mock_cache VCDataEnricher.empty_cache.
Proof. repeat split; constructor. Qed.

Lemma init_providers (use_mock : bool) :
  __init__ use_mock = (MockCrunchbaseProvider.new None, MockPitchbookProvider.new).
Proof. destruct use_mock; reflexivity. Qed.

(** X11.  With the providers it is built with, the enricher gives every
    firm the same profile: from an empty cache, a batch returns each record
    without a name unchanged, each record with a hashable name extended by
    one fixed set of derived fields (the Crunchbase mock description as
    About and thesis, Silicon Valley, no sectors, stages, portfolio or
    deals, the rest "Unknown"), and each record with an unhashable name
    extended by the defaults -- whatever the names are. *)
Theorem mock_enrichment_uniform (use_mock : bool) (vcs : list dict) (w : world) :
  let crunchbase := fst (__init__ use_mock) in
  let pitchbook := snd (__init__ use_mock) in
  exists s',
    VCDataEnricher.enrich_multiple_vcs crunchbase pitchbook vcs
      (VCDataEnricher.empty_cache, w)
    = (Ok (map Spec.enriched_with_mocks vcs), s').
Proof.
  rewrite init_providers; cbn [fst snd].
  destruct (enrich_loop_with_mocks vcs [] VCDataEnricher.empty_cache w
              empty_cache_mock) as (c' & w' & Hrun & _).
  exists (c', w'); exact Hrun.
Qed.

(** X12.  The cache bounds the provider requests of a batch: from an empty
    cache, enriching a list of firms makes at most two requests per named
    firm and four more -- the portfolio and deal requests are made once for
    the whole batch -- each request being one simulated delay. *)
Theorem mock_requests_bounded (use_mock : bool) (vcs : list dict) (w : world) :
  let crunchbase := fst (__init__ use_mock) in
  let pitchbook := snd (__init__ use_mock) in
  let run :=
    VCDataEnricher.enrich_multiple_vcs crunchbase pitchbook vcs
      (VCDataEnricher.empty_cache, w) in
  (sleeps (snd (snd run)) <= sleeps w + 2 * List.length (Spec.named vcs) + 4)%nat.
Proof.
  rewrite init_providers; cbn [fst snd]; cbv zeta.
  unfold VCDataEnricher.enrich_multiple_vcs.
  destruct (enrich_loop_with_mocks vcs [] VCDataEnricher.empty_cache w
              empty_cache_mock) as (c1 & w1 & Hrun1 & Hc1 & Hs1).
  rewrite Hrun1; cbn [fst snd].
  change (Spec.pending VCDataEnricher.empty_cache) with 4%nat in Hs1.
  lia.
Qed.

(** * The ranking of the fallback matcher *)

Lemma for_each_invariant_in {S X : Type} (P : S -> Prop)
  (body : S -> X -> result S) (xs : list X) (s out : S) :
  (forall s x s', In x xs -> P s -> body s x = Ok s' -> P s') ->
  P s -> for_each body xs s = Ok out -> P out.
Proof.
  revert s; induction xs as [| x xs IH]; intros s Hstep Hs; simpl.
  - intros H; injection H as <-; exact Hs.
  - destruct (body s x) as [s' |] eqn:E; simpl; [| discriminate].
    apply IH.
    + intros s0 x0 s0' Hin; apply Hstep; right; exact Hin.
    + apply (Hstep s x s' (or_introl eq_refl) Hs E).
Qed.

(** A table adds no negative score. *)
Lemma score_tags_grows (vc : dict) (field label : string) (points : Z)
  (matched : list string) (score score' : Z) (reasons reasons' : list string) :
  0 <= points ->
  VCMatcher.score_tags vc field label points matched (score, reasons)
  = Ok (score', reasons') ->
  score <= score'.
Proof.
  intros Hpoints; unfold VCMatcher.score_tags.
  destruct (truthy (dict_get vc field VNone) && _)%bool;
    [| intros H; injection H as <- _; lia].
  apply (for_each_invariant (fun acc : Z * list string => score <= fst acc));
    [| simpl; lia].
  intros [s r] tag [s' r'] Hs Hbody; cbn [fst] in *.
  apply bind_ok in Hbody; destruct Hbody as (items & _ & Hbody).
  apply bind_ok in Hbody; destruct Hbody as (hit & _ & Hbody).
  destruct hit; injection Hbody as <- _; lia.
Qed.

(** What the loop body does to the list of matches: the profile is appended
    with its capped score when the score is positive; an active profile has
    five points more than the rest of the scoring gave. *)
Lemma score_vc_inv (description_lower : string)
  (matched_sectors matched_stages : list string)
  (lead_preference : option string) (matches out : list dict) (vc : dict) :
  VCMatcher.score_vc description_lower matched_sectors matched_stages
    lead_preference matches vc = Ok out ->
  exists base reasons,
    0 <= base /\
    out =
    let score := if Spec.active vc then base + 5 else base in
    if 0 <? score
    then matches ++
         [dict_extend vc
            [ ("match_score", VInt (Z.min score 100));
              ("match_reason", VStr (join "; " reasons));
              ("caution", VStr VCMatcher.caution_text) ]]
    else matches.
Proof.
  unfold VCMatcher.score_vc; intros H.
  apply bind_ok in H; destruct H as ([s1 r1] & H1 & H).
  apply bind_ok in H; destruct H as ([s2 r2] & H2 & H).
  apply score_tags_grows in H1; [| lia].
  apply score_tags_grows in H2; [| lia].
  set (lead := match lead_preference with
               | Some preference => _
               | None => (s2, r2)
               end) in H.
  assert (Hlead : s2 <= fst lead).
  { subst lead; destruct lead_preference as [preference |]; [| simpl; lia].
    destruct (truthy _ && _)%bool; simpl; lia. }
  destruct lead as [s3 r3]; cbn [fst] in Hlead.
  apply bind_ok in H; destruct H as (thesis_hit & _ & H).
  set (thesis := if thesis_hit then _ else (s3, r3)) in H.
  assert (Hthesis : s3 <= fst thesis)
    by (subst thesis; destruct thesis_hit; simpl; lia).
  destruct thesis as [s4 r4]; cbn [fst] in Hthesis.
  injection H as <-.
  exists s4, r4; split; [lia | reflexivity].
Qed.

Lemma match_score_of_scored (vc m : dict) :
  Spec.scored_from vc m -> 1 <= VCMatcher.match_score m <= 100.
Proof.
  intros (score & reason & Hrange & ->); unfold VCMatcher.match_score.
  rewrite (dict_extend_in vc _ "match_score" (VInt score)).
  - exact Hrange.
  - apply distinct_nodup; reflexivity.
  - left; reflexivity.
Qed.

Lemma fallback_matches (description_lower : string)
  (matched_sectors matched_stages : list string)
  (lead_preference : option string) (vc_data matches : list dict) :
  for_each
    (VCMatcher.score_vc description_lower matched_sectors matched_stages
       lead_preference)
    vc_data [] = Ok matches ->
  Forall (fun m => exists vc, In vc vc_data /\ Spec.scored_from vc m) matches.
Proof.
  apply for_each_invariant_in; [| constructor].
  intros acc vc acc' Hin Hacc Hbody.
  apply score_vc_inv in Hbody; destruct Hbody as (base & reasons & Hbase & ->).
  cbv zeta.
  destruct (Z.ltb_spec 0 (if Spec.active vc then base + 5 else base)) as [Hpos | _];
    [| exact Hacc].
  apply Forall_app; split; [exact Hacc |].
  constructor; [| constructor].
  exists vc; split; [exact Hin |].
  eexists _, _; split; [| reflexivity]; lia.
Qed.

(** X13.  What the fallback matcher returns, for a limit that is not
    negative: at most [num_matches] records, in descending order of their
    scores, each of them one of the given profiles extended with a score
    between 1 and 100, the reasons and the fixed caution. *)
Theorem fallback_ranking (self : VCMatcher.matcher) (startup_description : string)
  (vc_data out : list dict) (num_matches : Z) :
  0 <= num_matches ->
  VCMatcher._fallback_matching self startup_description vc_data num_matches
  = Ok out ->
  (List.length out <= Z.to_nat num_matches)%nat /\
  Spec.descending (map VCMatcher.match_score out) /\
  Forall (fun m => exists vc, In vc vc_data /\ Spec.scored_from vc m) out /\
  Forall (fun m => 1 <= VCMatcher.match_score m <= 100) out.
Proof.
  intros Hlimit; unfold VCMatcher._fallback_matching; intros H.
  apply bind_ok in H; destruct H as (matches & Hloop & H).
  injection H as <-.
  apply fallback_matches in Hloop.
  unfold slice_to; destruct (Z.ltb_spec num_matches 0) as [Hneg | _]; [lia |].
  assert (Hkept : Forall (fun m => exists vc, In vc vc_data /\ Spec.scored_from vc m)
                    (firstn (Z.to_nat num_matches)
                       (sorted_desc VCMatcher.match_score matches))).
  { apply Forall_forall; intros m Hm; apply in_firstn in Hm.
    rewrite Forall_forall in Hloop; apply Hloop.
    eapply Permutation_in; [apply sorted_desc_perm | exact Hm]. }
  split; [apply firstn_le_length |].
  split.
  - apply sorted_map.
    exact (proj1 (sorted_firstn _ _ _ (sorted_desc_sorted VCMatcher.match_score matches))).
  - split; [exact Hkept |].
    eapply Forall_impl; [| exact Hkept].
    intros m (vc & _ & Hm); exact (match_score_of_scored vc m Hm).
Qed.

Lemma fallback_ranking_witness :
  let self := {| VCMatcher.client := fun _ => Raise (ProviderError "offline");
                 VCMatcher.model := "gpt-3.5-turbo";
                 VCMatcher.encoding := None |} in
  let vc_data :=
    [ [("Name", VStr "Tech Ventures");
       ("Sector Focus", VList [VStr "AI/ML"; VStr "Enterprise SaaS"]);
       ("Preferred Deal Stage", VList [VStr "Seed"; VStr "Series A"]);
       ("Status", VStr "Active")];
      [("Name", VStr "Health Capital");
       ("Sector Focus", VList [VStr "Health Tech"]);
       ("Preferred Deal Stage", VList [VStr "Series A"]);
       ("Investment Thesis", VStr "Investing in the future of healthcare.");
       ("Status", VStr "Active")];
      [("Name", VStr "Dormant Fund"); ("Status", VStr "Closed")] ] in
  let description := "An AI platform for healthcare at seed stage" in
  exists out,
    VCMatcher._fallback_matching self description vc_data 5 = Ok out /\
    map VCMatcher.match_score out = [55; 50] /\
    (List.length out <= Z.to_nat 5)%nat /\
    Spec.descending (map VCMatcher.match_score out) /\
    Forall (fun m => exists vc, In vc vc_data /\ Spec.scored_from vc m) out /\
    Forall (fun m => 1 <= VCMatcher.match_score m <= 100) out.
Proof.
  intros self vc_data description.
  eexists; split; [reflexivity |]; split; [reflexivity |].
  apply (fallback_ranking self description vc_data _ 5); [lia | reflexivity].
Defined.

Lemma fallback_count (description_lower : string)
  (matched_sectors matched_stages : list string)
  (lead_preference : option string) (vc_data acc matches : list dict) :
  forallb Spec.active vc_data = true ->
  for_each
    (VCMatcher.score_vc description_lower matched_sectors matched_stages
       lead_preference)
    vc_data acc = Ok matches ->
  List.length matches = (List.length acc + List.length vc_data)%nat.
Proof.
  revert acc; induction vc_data as [| vc vc_data IH]; intros acc Hactive; simpl.
  - intros H; injection H as <-; lia.
  - cbn [forallb] in Hactive; apply andb_prop in Hactive.
    destruct Hactive as [Hvc Hrest].
    destruct (VCMatcher.score_vc _ _ _ _ acc vc) as [acc' |] eqn:E; simpl;
      [| discriminate].
    intros H; rewrite (IH acc' Hrest H).
    apply score_vc_inv in E; destruct E as (base & reasons & Hbase & ->).
    cbv zeta; rewrite Hvc.
    destruct (Z.ltb_spec 0 (base + 5)) as [_ | Hle]; [| lia].
    rewrite length_app; simpl; lia.
Qed.

(** X14.  The fallback matcher drops no active profile except by the limit:
    when every profile given has the status "Active" -- as the profiles
    [match_startup_to_vcs] passes have -- the result holds as many records
    as the limit allows, [min(num_matches, len(vc_data))], whatever the
    description says. *)
Theorem fallback_keeps_active (self : VCMatcher.matcher)
  (startup_description : string) (vc_data out : list dict) (num_matches : Z) :
  0 <= num_matches ->
  forallb Spec.active vc_data = true ->
  VCMatcher._fallback_matching self startup_description vc_data num_matches
  = Ok out ->
  List.length out = Nat.min (Z.to_nat num_matches) (List.length vc_data).
Proof.
  intros Hlimit Hactive; unfold VCMatcher._fallback_matching; intros H.
  apply bind_ok in H; destruct H as (matches & Hloop & H).
  injection H as <-.
  apply fallback_count in Hloop; [| exact Hactive].
  unfold slice_to; destruct (Z.ltb_spec num_matches 0) as [Hneg | _]; [lia |].
  rewrite length_firstn, (Permutation_length (sorted_desc_perm _ matches)), Hloop.
  reflexivity.
Qed.

Lemma fallback_keeps_active_witness :
  let self := {| VCMatcher.client := fun _ => Raise (ProviderError "offline");
                 VCMatcher.model := "gpt-3.5-turbo";
                 VCMatcher.encoding := None |} in
  let vc_data :=
    [ [("Name", VStr "Tech Ventures"); ("Status", VStr "Active")];
      [("Name", VStr "Health Capital");
       ("Sector Focus", VList [VStr "Health Tech"]);
       ("Status", VStr "Active")];
      [("Name", VStr "Quiet Fund"); ("Status", VStr "Active")] ] in
  exists out,
    VCMatcher._fallback_matching self "A bakery" vc_data 2 = Ok out /\
    List.length out = Nat.min (Z.to_nat 2) (List.length vc_data).
Proof.
  intros self vc_data.
  eexists; split; [reflexivity |].
  apply (fallback_keeps_active self "A bakery" vc_data _ 2);
    [lia | reflexivity | reflexivity].
Defined.

(** * The prompt context *)

Lemma map_result_length {X Y : Type} (f : X -> result Y) (xs : list X)
  (ys : list Y) :
  map_result f xs = Ok ys -> List.length ys = List.length xs.
Proof.
  revert ys; induction xs as [| x xs IH]; intros ys; simpl.
  - intros H; injection H as <-; reflexivity.
  - intros H; apply bind_ok in H; destruct H as (y & _ & H).
    apply bind_ok in H; destruct H as (ys' & Hys & H).
    injection H as <-; simpl; rewrite (IH ys' Hys); reflexivity.
Qed.

Lemma map_snd_combine {A B : Type} (l1 : list A) (l2 : list B) :
  List.length l1 = List.length l2 -> map snd (combine l1 l2) = l2.
Proof.
  revert l2; induction l1 as [| a l1 IH]; intros [| b l2]; simpl;
    intros H; try discriminate; [reflexivity |].
  rewrite IH by congruence; reflexivity.
Qed.

(** Sorting by completeness rearranges the profiles. *)
Lemma sorted_by_completeness_perm (vc_data sorted_vcs : list dict) :
  VCMatcher.sorted_by_completeness vc_data = Ok sorted_vcs ->
  Permutation sorted_vcs vc_data.
Proof.
  unfold VCMatcher.sorted_by_completeness; intros H.
  apply bind_ok in H; destruct H as (keys & Hkeys & H); injection H as <-.
  apply map_result_length in Hkeys.
  rewrite <- (map_snd_combine keys vc_data Hkeys) at 2.
  apply Permutation_map, sorted_desc_perm.
Qed.

Lemma context_loop_spec (self : VCMatcher.matcher) (max_tokens : Z)
  (sorted_vcs : list dict) (context_parts out : list string)
  (current_tokens : Z) :
  current_tokens <= max_tokens ->
  VCMatcher.context_loop self max_tokens sorted_vcs context_parts current_tokens
  = Ok out ->
  exists added,
    out = context_parts ++ added /\
    Forall2 (fun vc part => VCMatcher.summary_of vc = Ok part)
      (firstn (List.length added) sorted_vcs) added /\
    current_tokens + Spec.total_tokens self added <= max_tokens.
Proof.
  revert context_parts current_tokens;
    induction sorted_vcs as [| vc rest IH]; intros parts current Hle; simpl.
  - intros H; injection H as <-; exists []; rewrite app_nil_r.
    split; [reflexivity |]; split; [constructor | simpl; lia].
  - intros H; apply bind_ok in H; destruct H as (vc_summary & Hsum & H).
    apply bind_ok in H; destruct H as (tokens_to_add & Htok & H).
    destruct (Z.ltb_spec max_tokens (current + tokens_to_add)) as [Hover | Hfits].
    + injection H as <-; exists []; rewrite app_nil_r.
      split; [reflexivity |]; split; [constructor | simpl; lia].
    + destruct (IH _ _ Hfits H) as (added & -> & Hall & Hbudget).
      exists (vc_summary :: added); rewrite <- app_assoc.
      split; [reflexivity |]; split; [constructor; assumption |].
      simpl; unfold Spec.tokens at 1; rewrite Htok; lia.
Qed.

(** X15.  The context keeps its token limit: for a limit that is not
    negative, the context returned is the concatenation of the summaries of
    the first profiles in the order of completeness -- a rearrangement of
    the profiles given -- and the token counts of these summaries add up to
    no more than the limit. *)
Theorem context_within_limit (self : VCMatcher.matcher) (vc_data : list dict)
  (max_tokens : Z) (context : string) :
  0 <= max_tokens ->
  VCMatcher._create_vc_context self vc_data max_tokens = Ok context ->
  exists sorted_vcs parts,
    VCMatcher.sorted_by_completeness vc_data = Ok sorted_vcs /\
    Permutation sorted_vcs vc_data /\
    Forall2 (fun vc part => VCMatcher.summary_of vc = Ok part)
      (firstn (List.length parts) sorted_vcs) parts /\
    context = join "" parts /\
    Spec.total_tokens self parts <= max_tokens.
Proof.
  intros Hlimit; unfold VCMatcher._create_vc_context; intros H.
  apply bind_ok in H; destruct H as (sorted_vcs & Hsorted & H).
  apply bind_ok in H; destruct H as (parts & Hloop & H); injection H as <-.
  destruct (context_loop_spec self max_tokens sorted_vcs [] parts 0 Hlimit Hloop)
    as (added & Hparts & Hall & Hbudget).
  simpl in Hparts; subst added.
  exists sorted_vcs, parts.
  split; [exact Hsorted |].
  split; [exact (sorted_by_completeness_perm _ _ Hsorted) |].
  split; [exact Hall |]; split; [reflexivity | lia].
Qed.

Lemma context_within_limit_witness :
  let self := {| VCMatcher.client := fun _ => Raise (ProviderError "offline");
                 VCMatcher.model := "gpt-3.5-turbo";
                 VCMatcher.encoding :=
                   Some (fun text => map (fun _ => 0) (VCMatcher.split text)) |} in
  let vc_data :=
    [ [("Name", VStr "Quiet Fund"); ("Status", VStr "Active")];
      [("Name", VStr "Tech Ventures");
       ("Sector Focus", VList [VStr "AI/ML"; VStr "Enterprise SaaS"]);
       ("Investment Thesis", VStr "We back technical founders.");
       ("Status", VStr "Active")] ] in
  exists context,
    VCMatcher._create_vc_context self vc_data 20 = Ok context /\
    String.length context = 118%nat /\
    exists sorted_vcs parts,
      VCMatcher.sorted_by_completeness vc_data = Ok sorted_vcs /\
      Permutation sorted_vcs vc_data /\
      Forall2 (fun vc part => VCMatcher.summary_of vc = Ok part)
        (firstn (List.length parts) sorted_vcs) parts /\
      context = join "" parts /\
      Spec.total_tokens self parts <= 20.
Proof.
  intros self vc_data.
  eexists; split; [reflexivity |]; split; [reflexivity |].
  apply (context_within_limit self vc_data 20); [lia | reflexivity].
Defined.

(** * Matching through the service *)

Lemma candidates_filtered (match_criteria : option dict)
  (vc_data filtered : list dict) :
  VCMatcher.filter_by_criteria match_criteria vc_data = Ok filtered ->
  Spec.candidates match_criteria vc_data = Ok (filter Spec.active filtered).
Proof. unfold Spec.candidates; intros ->; reflexivity. Qed.

(** Without a tokenizer no context can be made of a profile. *)
Lemma context_needs_tokenizer (self : VCMatcher.matcher) (vc : dict)
  (rest : list dict) (max_tokens : Z) :
  VCMatcher.encoding self = None ->
  exists e, VCMatcher._create_vc_context self (vc :: rest) max_tokens = Raise e.
Proof.
  intros Hnone; unfold VCMatcher._create_vc_context.
  destruct (VCMatcher.sorted_by_completeness (vc :: rest)) as [sorted_vcs | e]
    eqn:Hsorted; [| exists e; reflexivity].
  apply sorted_by_completeness_perm in Hsorted.
  destruct sorted_vcs as [| first others];
    [apply Permutation_nil in Hsorted; discriminate |].
  cbn [bind VCMatcher.context_loop].
  destruct (VCMatcher.summary_of first) as [vc_summary | e];
    [| exists e; reflexivity].
  cbn [bind]; unfold VCMatcher._count_tokens; rewrite Hnone.
  exists AttributeError; reflexivity.
Qed.

(** X16.  A matcher without tokenizer cannot match: when the tokenizer
    could not be loaded, [match_startup_to_vcs] returns the empty list if
    no profile passes the criteria and is active, and raises as soon as one
    does -- the service and the fallback are never reached. *)
Theorem matching_without_tokenizer (json_loads : string -> option value)
  (self : VCMatcher.matcher) (startup_description : string)
  (vc_data : list dict) (num_matches : Z) (match_criteria : option dict) :
  VCMatcher.encoding self = None ->
  let run :=
    VCMatcher.match_startup_to_vcs json_loads self startup_description vc_data
      num_matches match_criteria in
  match Spec.candidates match_criteria vc_data with
  | Ok [] => run = Ok []
  | Ok (_ :: _) => exists e, run = Raise e
  | Raise e => run = Raise e
  end.
Proof.
  intros Hnone run; subst run.
  unfold Spec.candidates, VCMatcher.match_startup_to_vcs.
  destruct (VCMatcher.filter_by_criteria match_criteria vc_data)
    as [filtered | e]; [| reflexivity].
  cbn [bind].
  change (filter (fun vc => eq_str (dict_get vc "Status" VNone) "Active") filtered)
    with (filter Spec.active filtered).
  destruct (filter Spec.active filtered) as [| vc rest]; [reflexivity |].
  destruct (context_needs_tokenizer self vc rest 3500 Hnone) as [e ->].
  exists e; reflexivity.
Qed.

Lemma matching_without_tokenizer_witness :
  let self := {| VCMatcher.client := fun _ => Ok "[]";
                 VCMatcher.model := "gpt-3.5-turbo";
                 VCMatcher.encoding := None |} in
  let vc_data :=
    [ [("Name", VStr "Tech Ventures"); ("Status", VStr "Active")];
      [("Name", VStr "Dormant Fund"); ("Status", VStr "Closed")] ] in
  Spec.candidates None vc_data
  = Ok [[("Name", VStr "Tech Ventures"); ("Status", VStr "Active")]] /\
  exists e,
    VCMatcher.match_startup_to_vcs (fun _ => Some (VList [])) self
      "An AI platform" vc_data 5 None = Raise e.
Proof.
  intros self vc_data; split; [reflexivity |].
  exact (matching_without_tokenizer (fun _ => Some (VList [])) self
           "An AI platform" vc_data 5 None eq_refl).
Defined.

(** Once a match is found the name of the profile list is bound to a
    non-empty dict, and the next match cannot be looked up. *)
Lemma add_match_after_first (d : dict) (result : list dict) (match_ : value) :
  d <> [] -> exists e, VCMatcher.add_match (VDict d, result) match_ = Raise e.
Proof.
  intros Hd; unfold VCMatcher.add_match.
  destruct (value_get match_ "name" VNone) as [vc_name | e];
    [| exists e; reflexivity].
  cbn [bind]; unfold VCMatcher.named_like.
  destruct d as [| [k v] d]; [contradiction |].
  exists AttributeError; reflexivity.
Qed.

Lemma assoc_set_not_nil {V : Type} (d : list (string * V)) (k : string) (v : V) :
  assoc_set d k v <> [].
Proof.
  destruct d as [| [k' v'] d]; simpl; [discriminate |].
  destruct (String.eqb k k'); discriminate.
Qed.

Lemma service_loop_at_most_one (matches : list value) (start final : value * list dict) :
  (snd start = [] \/
   (exists d, fst start = VDict d /\ d <> []) /\ List.length (snd start) = 1%nat) ->
  for_each VCMatcher.add_match matches start = Ok final ->
  (List.length (snd final) <= 1)%nat.
Proof.
  intros Hstart Hrun.
  assert (Hfinal : snd final = [] \/
                   (exists d, fst final = VDict d /\ d <> [])
                   /\ List.length (snd final) = 1%nat).
  { revert Hrun.
    apply (for_each_invariant
             (fun st : value * list dict =>
                snd st = [] \/
                (exists d, fst st = VDict d /\ d <> [])
                /\ List.length (snd st) = 1%nat));
      [| exact Hstart].
    intros [vc_data result] match_ st Hst Hbody; cbn [fst snd] in Hst.
    destruct Hst as [-> | [(d & -> & Hd) Hlen]].
    - unfold VCMatcher.add_match in Hbody.
      apply bind_ok in Hbody; destruct Hbody as (vc_name & _ & Hbody).
      apply bind_ok in Hbody; destruct Hbody as (matching_vcs & _ & Hbody).
      destruct matching_vcs as [| first others];
        [injection Hbody as <-; left; reflexivity |].
      destruct first as [| | | | | first]; try discriminate.
      apply bind_ok in Hbody; destruct Hbody as (match_score & _ & Hbody).
      apply bind_ok in Hbody; destruct Hbody as (match_reason & _ & Hbody).
      apply bind_ok in Hbody; destruct Hbody as (caution & _ & Hbody).
      injection Hbody as <-; right; cbn [fst snd]; split; [| reflexivity].
      eexists; split; [reflexivity | apply assoc_set_not_nil].
    - destruct (add_match_after_first d result match_ Hd) as [e He].
      rewrite He in Hbody; discriminate. }
  destruct Hfinal as [-> | [_ ->]]; simpl; lia.
Qed.

(** X17.  The service path returns at most one investor: whatever the
    service answers, a result of [match_startup_to_vcs] either holds at most
    one record or is the result of the fallback matcher on the active
    profiles that pass the criteria.  A second match of the answer is looked
    up in the copy of the first profile found, which raises and sends the
    call to the fallback. *)
Theorem service_returns_at_most_one (json_loads : string -> option value)
  (self : VCMatcher.matcher) (startup_description : string)
  (vc_data out : list dict) (num_matches : Z) (match_criteria : option dict) :
  VCMatcher.match_startup_to_vcs json_loads self startup_description vc_data
    num_matches match_criteria = Ok out ->
  (List.length out <= 1)%nat \/
  exists filtered,
    Spec.candidates match_criteria vc_data = Ok filtered /\
    VCMatcher._fallback_matching self startup_description filtered num_matches
    = Ok out.
Proof.
  unfold VCMatcher.match_startup_to_vcs; intros H.
  apply bind_ok in H; destruct H as (filtered & Hfiltered & H).
  apply candidates_filtered in Hfiltered.
  change (filter (fun vc => eq_str (dict_get vc "Status" VNone) "Active") filtered)
    with (filter Spec.active filtered) in H.
  apply bind_ok in H; destruct H as (vc_context & _ & H).
  destruct (filter Spec.active filtered) as [| vc rest] eqn:Hactive;
    [injection H as <-; left; simpl; lia |].
  destruct (VCMatcher.service_matches json_loads self _ vc_data)
    as [[result |] | e] eqn:Hservice.
  - injection H as <-; left.
    unfold VCMatcher.service_matches in Hservice.
    apply bind_ok in Hservice; destruct Hservice as (result_text & _ & Hservice).
    destruct (VCMatcher.bracket_span result_text) as [json_str |];
      [| discriminate].
    destruct (json_loads json_str) as [matches |]; [| discriminate].
    apply bind_ok in Hservice; destruct Hservice as (items & _ & Hservice).
    apply bind_ok in Hservice; destruct Hservice as (final & Hloop & Hservice).
    injection Hservice as <-.
    apply (service_loop_at_most_one items (VList (map VDict vc_data), []) final);
      [left; reflexivity | exact Hloop].
  - right; exists (vc :: rest); split; [exact Hfiltered | exact H].
  - right; exists (vc :: rest); split; [exact Hfiltered | exact H].
Qed.

Lemma service_returns_at_most_one_witness :
  let answer :=
    VList [ VDict [("name", VStr "Tech Ventures"); ("match_score", VInt 95);
                   ("match_reason", VStr "AI focus")] ] in
  let self := {| VCMatcher.client := fun _ => Ok "Here you are: [...] Good luck";
                 VCMatcher.model := "gpt-3.5-turbo";
                 VCMatcher.encoding := Some (fun text => [0]) |} in
  let vc_data :=
    [ [("Name", VStr "Tech Ventures"); ("Status", VStr "Active")];
      [("Name", VStr "Health Capital"); ("Status", VStr "Active")] ] in
  let json_loads := fun text => if String.eqb text "[...]" then Some answer else None in
  exists out,
    VCMatcher.match_startup_to_vcs json_loads self "An AI platform" vc_data 5 None
    = Ok out /\
    out = [ [("Name", VStr "Tech Ventures"); ("Status", VStr "Active");
             ("match_score", VInt 95); ("match_reason", VStr "AI focus");
             ("caution", VStr "")] ] /\
    ((List.length out <= 1)%nat \/
     exists filtered,
       Spec.candidates None vc_data = Ok filtered /\
       VCMatcher._fallback_matching self "An AI platform" filtered 5 = Ok out).
Proof.
  intros answer self vc_data json_loads.
  eexists; split; [reflexivity |]; split; [reflexivity |].
  apply (service_returns_at_most_one json_loads self "An AI platform" vc_data _ 5 None).
  reflexivity.
Defined.

(** Two matches in the answer: the lookup of the second raises, and the
    result is the fallback's. *)
Example second_match_falls_back :
  let answer :=
    VList [ VDict [("name", VStr "Tech Ventures"); ("match_score", VInt 95)];
            VDict [("name", VStr "Health Capital"); ("match_score", VInt 80)] ] in
  let self := {| VCMatcher.client := fun _ => Ok "[...]";
                 VCMatcher.model := "gpt-3.5-turbo";
                 VCMatcher.encoding := Some (fun text => [0]) |} in
  let vc_data :=
    [ [("Name", VStr "Tech Ventures"); ("Status", VStr "Active")];
      [("Name", VStr "Health Capital"); ("Status", VStr "Active")] ] in
  VCMatcher.match_startup_to_vcs (fun _ => Some answer) self "An AI platform"
    vc_data 5 None
  = VCMatcher._fallback_matching self "An AI platform" vc_data 5.
Proof. reflexivity. Qed.

(** * The stages and the geography of the scraper *)

Lemma prefix_intro (kw rest : string) : String.prefix kw (kw +++ rest) = true.
Proof.
  induction kw as [| c kw IH]; simpl; [destruct rest; reflexivity |].
  destruct (ascii_dec c c) as [_ | Hne]; [exact IH | contradiction].
Qed.

Lemma prefix_split (kw s : string) :
  String.prefix kw s = true -> exists rest, s = kw +++ rest.
Proof.
  revert s; induction kw as [| c kw IH]; intros s H.
  - exists s; reflexivity.
  - destruct s as [| c' s]; simpl in H; [discriminate |].
    destruct (ascii_dec c c') as [<- | _]; [| discriminate].
    destruct (IH s H) as [rest ->]; exists rest; reflexivity.
Qed.

Lemma contains_prefix (text kw : string) :
  String.prefix kw text = true -> contains text kw = true.
Proof. destruct text; cbn [contains]; intros ->; reflexivity. Qed.

Lemma contains_intro (pre kw rest : string) :
  contains (pre +++ kw +++ rest) kw = true.
Proof.
  induction pre as [| c pre IH].
  - apply contains_prefix; exact (prefix_intro kw rest).
  - change (String c pre +++ kw +++ rest) with (String c (pre +++ kw +++ rest)).
    cbn [contains]; rewrite IH; destruct (String.prefix kw _); reflexivity.
Qed.

Lemma contains_split (s kw : string) :
  contains s kw = true -> exists pre rest, s = pre +++ kw +++ rest.
Proof.
  induction s as [| c s IH]; cbn [contains].
  - destruct (String.prefix kw "") eqn:E; [| discriminate].
    intros _; destruct (prefix_split kw "" E) as [rest Hrest].
    exists "", rest; exact Hrest.
  - destruct (String.prefix kw (String c s)) eqn:E.
    + intros _; destruct (prefix_split kw _ E) as [rest Hrest].
      exists "", rest; exact Hrest.
    + intros H; destruct (IH H) as (pre & rest & ->).
      exists (String c pre), rest; reflexivity.
Qed.

Lemma search_intro (items : list VCWebScraper.regex_item) (pre x : string) :
  VCWebScraper.match_here items x = true ->
  VCWebScraper.search_items items (pre +++ x) = true.
Proof.
  intros Hx; induction pre as [| c pre IH].
  - destruct x; simpl; rewrite Hx; reflexivity.
  - change (String c pre +++ x) with (String c (pre +++ x)).
    cbn [VCWebScraper.search_items]; rewrite IH; apply Bool.orb_true_r.
Qed.

Lemma search_split (items : list VCWebScraper.regex_item) (s : string) :
  VCWebScraper.search_items items s = true ->
  exists pre x, s = pre +++ x /\ VCWebScraper.match_here items x = true.
Proof.
  induction s as [| c s IH]; cbn [VCWebScraper.search_items]; intros H;
    apply Bool.orb_prop in H; destruct H as [H | H].
  - exists "", ""; split; [reflexivity | exact H].
  - discriminate.
  - exists "", (String c s); split; [reflexivity | exact H].
  - destruct (IH H) as (pre & x & -> & Hx).
    exists (String c pre), x; split; [reflexivity | exact Hx].
Qed.

(** A pattern of literal characters matches where the text has it as a
    prefix. *)
Lemma match_literal (kw s : string) :
  VCWebScraper.match_here (map VCWebScraper.Literal (list_ascii_of_string kw)) s
  = String.prefix kw s.
Proof.
  revert s; induction kw as [| c kw IH]; intros s; simpl.
  - destruct s; reflexivity.
  - destruct s as [| c' s]; [reflexivity |].
    change (String.prefix (String c kw) (String c' s))
      with (if ascii_dec c c' then String.prefix kw s else false).
    destruct (ascii_dec c c') as [<- | Hne].
    + rewrite Ascii.eqb_refl; exact (IH s).
    + destruct (Ascii.eqb_spec c c'); [contradiction | reflexivity].
Qed.

Lemma search_literal (kw s : string) :
  VCWebScraper.search_items (map VCWebScraper.Literal (list_ascii_of_string kw)) s
  = contains s kw.
Proof.
  induction s as [| c s IH]; cbn [VCWebScraper.search_items contains];
    rewrite match_literal.
  - destruct (String.prefix kw ""); reflexivity.
  - rewrite IH; destruct (String.prefix kw (String c s)); reflexivity.
Qed.

(** A mention of pre-seed in one of its three spellings is found by the
    pattern of the first stage, and holds the word the second stage looks
    for. *)
Lemma preseed_spelling (text_lower kw : string) :
  In kw ["pre-seed"; "preseed"; "pre seed"] ->
  contains text_lower kw = true ->
  VCWebScraper.re_search "pre.?seed" text_lower = true /\
  contains text_lower "seed" = true.
Proof.
  intros Hkw Hin; apply contains_split in Hin; destruct Hin as (pre & rest & ->).
  unfold VCWebScraper.re_search.
  destruct Hkw as [<- | [<- | [<- | []]]].
  - split; [apply search_intro; reflexivity |].
    change (pre +++ "pre-seed" +++ rest) with (pre +++ "pre-" +++ "seed" +++ rest).
    rewrite <- append_assoc; apply contains_intro.
  - split; [apply search_intro; reflexivity |].
    change (pre +++ "preseed" +++ rest) with (pre +++ "pre" +++ "seed" +++ rest).
    rewrite <- append_assoc; apply contains_intro.
  - split; [apply search_intro; reflexivity |].
    change (pre +++ "pre seed" +++ rest) with (pre +++ "pre " +++ "seed" +++ rest).
    rewrite <- append_assoc; apply contains_intro.
Qed.

Ltac literal_step H x :=
  let c := fresh "c" in
  let Hc := fresh "Hc" in
  destruct x as [| c x]; [discriminate |];
  apply andb_prop in H; destruct H as [Hc H];
  apply Ascii.eqb_eq in Hc; subst c.

(** Where the pattern of the first stage matches, the text holds "seed". *)
Lemma preseed_holds_seed (text_lower : string) :
  VCWebScraper.re_search "pre.?seed" text_lower = true ->
  contains text_lower "seed" = true.
Proof.
  unfold VCWebScraper.re_search; intros H.
  apply search_split in H; destruct H as (pre & x & -> & H).
  cbn [VCWebScraper.compile] in H.
  cbn [VCWebScraper.match_here] in H.
  literal_step H x; literal_step H x; literal_step H x.
  apply Bool.orb_prop in H; destruct H as [H | H].
  - destruct x as [| sep x]; [discriminate |].
    apply andb_prop in H; destruct H as [_ H].
    literal_step H x; literal_step H x; literal_step H x; literal_step H x.
    change (pre +++ String "p" (String "r" (String "e" (String sep
              (String "s" (String "e" (String "e" (String "d" x))))))))
      with (pre +++ String "p" (String "r" (String "e" (String sep "")))
            +++ "seed" +++ x).
    rewrite <- append_assoc; apply contains_intro.
  - literal_step H x; literal_step H x; literal_step H x; literal_step H x.
    change (pre +++ String "p" (String "r" (String "e"
              (String "s" (String "e" (String "e" (String "d" x)))))))
      with (pre +++ "pre" +++ "seed" +++ x).
    rewrite <- append_assoc; apply contains_intro.
Qed.

Section StageTable.
Variable hit : list string -> bool.

Lemma stage_fold (entries : list (string * list string)) (acc : list string) :
  fold_left
    (fun stages entry =>
       let '(stage, patterns) := entry in
       if hit patterns then stages ++ [stage] else stages)
    entries acc
  = acc ++ map fst (filter (fun entry => hit (snd entry)) entries).
Proof.
  revert acc; induction entries as [| [stage patterns] entries IH]; intros acc;
    simpl.
  - rewrite app_nil_r; reflexivity.
  - rewrite IH; destruct (hit patterns); simpl;
      [rewrite <- app_assoc |]; reflexivity.
Qed.

Lemma stage_listed (stage : string) (patterns : list string) :
  In (stage, patterns) VCWebScraper.stage_patterns ->
  (In stage
     (map fst (filter (fun entry => hit (snd entry)) VCWebScraper.stage_patterns))
   <-> hit patterns = true).
Proof.
  intros Hin; split.
  - intros H; apply in_map_iff in H; destruct H as ([stage' patterns'] & Hname & H).
    apply filter_In in H; destruct H as [Hin' Hhit]; simpl in Hname, Hhit.
    subst stage'.
    assert (Hnd : NoDup (map fst VCWebScraper.stage_patterns))
      by (apply distinct_nodup; reflexivity).
    rewrite (nodup_keys_functional _ stage patterns patterns' Hnd Hin Hin').
    exact Hhit.
  - intros H; apply in_map_iff; exists (stage, patterns); split; [reflexivity |].
    apply filter_In; split; [exact Hin | exact H].
Qed.

Lemma stage_filter_names :
  map fst (filter (fun entry => hit (snd entry)) VCWebScraper.stage_patterns)
  = filter
      (fun stage =>
         match assoc_get VCWebScraper.stage_patterns stage with
         | Some patterns => hit patterns
         | None => false
         end)
      Spec.scraper_stage_names.
Proof.
  unfold Spec.scraper_stage_names, VCWebScraper.stage_patterns; simpl.
  repeat match goal with
         | |- context [hit ?l] => destruct (hit l)
         end; reflexivity.
Qed.

End StageTable.

(** X18.  The stages the scraper reads from a text: they are names of its
    stage table, in the order of the table, each at most once.  Every text
    that holds the word "seed" is rated Seed; so a text that mentions
    pre-seed (as "pre-seed", "preseed" or "pre seed") is rated Pre-seed and
    Seed, and Pre-seed is reported without Seed only for a text that holds
    "concept", "idea stage" or "earliest". *)
Theorem stages_extracted (text : string) :
  let stages := VCWebScraper._extract_stages text in
  let mentions := contains (lower text) in
  (exists keep, stages = filter keep Spec.scraper_stage_names) /\
  (mentions "seed" = true -> In "Seed" stages) /\
  (existsb mentions ["pre-seed"; "preseed"; "pre seed"] = true ->
   In "Pre-seed" stages /\ In "Seed" stages) /\
  (In "Pre-seed" stages ->
   In "Seed" stages
   \/ existsb mentions ["concept"; "idea stage"; "earliest"] = true).
Proof.
  intros stages mentions.
  set (hit := existsb (fun pattern => VCWebScraper.re_search pattern (lower text))).
  assert (Hstages : stages
                    = map fst (filter (fun entry => hit (snd entry))
                                 VCWebScraper.stage_patterns)).
  { unfold stages, VCWebScraper._extract_stages; cbv zeta.
    rewrite (stage_fold hit); reflexivity. }
  assert (Hseed : forall patterns,
             In ("Seed", patterns) VCWebScraper.stage_patterns ->
             mentions "seed" = true -> In "Seed" stages).
  { intros patterns Hin Hm; rewrite Hstages.
    apply (stage_listed hit "Seed" patterns Hin).
    destruct Hin as [H | [H | [H | [H | [H | []]]]]]; try discriminate.
    injection H as <-; unfold hit; cbn [existsb].
    unfold VCWebScraper.re_search at 1.
    change (VCWebScraper.compile "seed")
      with (map VCWebScraper.Literal (list_ascii_of_string "seed")).
    rewrite search_literal; fold (mentions "seed"); rewrite Hm; reflexivity. }
  assert (Hseed' : mentions "seed" = true -> In "Seed" stages)
    by (apply (Hseed ["seed"; "early stage"; "initial funding"]);
        right; left; reflexivity).
  split; [eexists; rewrite Hstages; apply stage_filter_names |].
  split; [exact Hseed' |].
  split.
  - intros Hm; apply existsb_exists in Hm; destruct Hm as (kw & Hkw & Hm).
    destruct (preseed_spelling (lower text) kw Hkw Hm) as [Hpattern Hword].
    split; [| exact (Hseed' Hword)].
    rewrite Hstages.
    apply (stage_listed hit "Pre-seed"
             ["pre.?seed"; "concept"; "idea stage"; "earliest"]);
      [left; reflexivity |].
    unfold hit; cbn [existsb]; rewrite Hpattern; reflexivity.
  - intros Hpre; rewrite Hstages in Hpre.
    apply (stage_listed hit "Pre-seed"
             ["pre.?seed"; "concept"; "idea stage"; "earliest"]) in Hpre;
      [| left; reflexivity].
    unfold hit in Hpre; cbn [existsb] in Hpre.
    apply Bool.orb_prop in Hpre; destruct Hpre as [Hpattern | Hother].
    + left; exact (Hseed' (preseed_holds_seed _ Hpattern)).
    + right; cbn [existsb]; unfold mentions.
      unfold VCWebScraper.re_search in Hother.
      change (VCWebScraper.compile "concept")
        with (map VCWebScraper.Literal (list_ascii_of_string "concept")) in Hother.
      change (VCWebScraper.compile "idea stage")
        with (map VCWebScraper.Literal (list_ascii_of_string "idea stage")) in Hother.
      change (VCWebScraper.compile "earliest")
        with (map VCWebScraper.Literal (list_ascii_of_string "earliest")) in Hother.
      rewrite !search_literal in Hother; exact Hother.
Qed.

Lemma first_flagged_listed (regions : list (string * list string))
  (text_lower region : string) :
  VCWebScraper.first_flagged regions text_lower = Some region ->
  In region (map fst regions).
Proof.
  induction regions as [| [r keywords] regions IH]; simpl; [discriminate |].
  destruct (VCWebScraper.flagged text_lower keywords).
  - intros H; injection H as <-; left; reflexivity.
  - intros H; right; exact (IH H).
Qed.

Lemma first_flagged_none (regions : list (string * list string))
  (text_lower : string) :
  VCWebScraper.first_flagged regions text_lower = None <->
  forallb (fun entry => negb (VCWebScraper.flagged text_lower (snd entry))) regions
  = true.
Proof.
  induction regions as [| [r keywords] regions IH]; simpl; [tauto |].
  destruct (VCWebScraper.flagged text_lower keywords); simpl;
    [split; discriminate | exact IH].
Qed.

Lemma first_flagged_app (before after : list (string * list string))
  (text_lower : string) :
  VCWebScraper.first_flagged (before ++ after) text_lower
  = match VCWebScraper.first_flagged before text_lower with
    | Some region => Some region
    | None => VCWebScraper.first_flagged after text_lower
    end.
Proof.
  induction before as [| [r keywords] before IH]; simpl; [reflexivity |].
  destruct (VCWebScraper.flagged text_lower keywords); [reflexivity | exact IH].
Qed.

(** X19.  The geography the scraper reads from a text is a region of its
    table.  A region whose keyword occurs in the text is passed over only
    for a region listed before it.  The answer is "USA" exactly when no
    keyword of the nine regions listed before USA occurs: the keywords of
    USA itself change nothing. *)
Theorem geo_focus_extracted (text : string) :
  let region := VCWebScraper._extract_geo_focus text in
  let named := fun entry : string * list string =>
                 VCWebScraper.flagged (lower text) (snd entry) in
  In region Spec.scraper_region_names /\
  (forall before entry after,
      VCWebScraper.geo_regions = before ++ entry :: after ->
      named entry = true ->
      In region (map fst (before ++ [entry]))) /\
  (region = "USA" <->
   forallb (fun entry => negb (named entry))
     (removelast VCWebScraper.geo_regions) = true).
Proof.
  intros region named; subst region; unfold VCWebScraper._extract_geo_focus.
  cbv zeta.
  split; [| split].
  - destruct (VCWebScraper.first_flagged _ _) as [region |] eqn:E.
    + exact (first_flagged_listed _ _ _ E).
    + unfold Spec.scraper_region_names; simpl; tauto.
  - intros before [r keywords] after Htable Hnamed; unfold named in Hnamed.
    simpl in Hnamed.
    rewrite Htable.
    change (before ++ (r, keywords) :: after)
      with (before ++ [(r, keywords)] ++ after).
    rewrite app_assoc, first_flagged_app.
    destruct (VCWebScraper.first_flagged (before ++ [(r, keywords)]) (lower text))
      as [region |] eqn:E.
    + exact (first_flagged_listed _ _ _ E).
    + apply first_flagged_none in E.
      rewrite forallb_app in E; apply andb_prop in E; destruct E as [_ E].
      simpl in E; rewrite Hnamed in E; discriminate.
  - change VCWebScraper.geo_regions
      with (removelast VCWebScraper.geo_regions
            ++ [("USA",
                 ["usa"; "united states"; "america"; "american"; "nationwide";
                  "national"; "across the country"])]) at 1.
    rewrite first_flagged_app.
    destruct (VCWebScraper.first_flagged (removelast VCWebScraper.geo_regions)
                (lower text)) as [region |] eqn:E.
    + split.
      * intros ->; apply first_flagged_listed in E; simpl in E.
        repeat (destruct E as [E | E]; [discriminate |]); contradiction.
      * intros H; apply first_flagged_none in H; congruence.
    + split; [intros _; exact (proj1 (first_flagged_none _ (lower text)) E) |].
      intros _; cbn [VCWebScraper.first_flagged].
      destruct (VCWebScraper.flagged (lower text) _); reflexivity.
Qed.

(** * The explicit criteria *)

Lemma filter_result_mask {X : Type} (p : X -> result bool) (xs ys : list X) :
  filter_result p xs = Ok ys ->
  ys = filter (fun x => match p x with Ok keep => keep | Raise _ => false end) xs.
Proof.
  revert ys; induction xs as [| x xs IH]; intros ys; simpl.
  - intros H; injection H as <-; reflexivity.
  - intros H; apply bind_ok in H; destruct H as (keep & Hkeep & H).
    apply bind_ok in H; destruct H as (kept & Hkept & H); injection H as <-.
    rewrite Hkeep, (IH kept Hkept); reflexivity.
Qed.

Lemma filter_when_mask (wanted : value) (keep : dict -> result bool)
  (xs ys : list dict) :
  VCMatcher.filter_when wanted keep xs = Ok ys ->
  exists mask, ys = filter mask xs /\ (truthy wanted = false -> ys = xs).
Proof.
  unfold VCMatcher.filter_when; destruct (truthy wanted).
  - intros H; eexists; split; [exact (filter_result_mask _ _ _ H) | discriminate].
  - intros H; injection H as <-; exists (fun _ => true); split; [| reflexivity].
    induction xs as [| x xs IH]; simpl; [| rewrite <- IH]; reflexivity.
Qed.

(** X20.  The explicit criteria only remove profiles: whenever the
    filtering returns, its result is the given list with some profiles left
    out, in the same order; and with no criterion set it is the given list
    itself. *)
Theorem criteria_only_remove (match_criteria : option dict)
  (vc_data filtered : list dict) :
  VCMatcher.filter_by_criteria match_criteria vc_data = Ok filtered ->
  (exists keep, filtered = filter keep vc_data) /\
  (Spec.no_criteria match_criteria = true -> filtered = vc_data).
Proof.
  assert (Hall : forall xs : list dict, xs = filter (fun _ => true) xs).
  { induction xs as [| x xs IH]; simpl; [| rewrite <- IH]; reflexivity. }
  unfold VCMatcher.filter_by_criteria, Spec.no_criteria.
  destruct match_criteria as [[| entry criteria] |].
  - intros H; injection H as <-; split; [eexists; apply Hall | reflexivity].
  - set (d := entry :: criteria); intros H.
    apply bind_ok in H; destruct H as (f1 & H1 & H).
    apply bind_ok in H; destruct H as (f2 & H2 & H).
    apply bind_ok in H; destruct H as (f3 & H3 & H4).
    apply filter_when_mask in H1; destruct H1 as (m1 & E1 & I1).
    apply filter_when_mask in H2; destruct H2 as (m2 & E2 & I2).
    apply filter_when_mask in H3; destruct H3 as (m3 & E3 & I3).
    apply filter_when_mask in H4; destruct H4 as (m4 & E4 & I4).
    split.
    + exists (fun vc => (m1 vc && (m2 vc && (m3 vc && m4 vc)))%bool).
      rewrite E4, E3, E2, E1, !filter_twice; reflexivity.
    + cbn [forallb]; intros Hnone.
      repeat (apply andb_prop in Hnone; destruct Hnone as [?Hc Hnone]).
      apply Bool.negb_true_iff in Hc, Hc0, Hc1, Hc2.
      rewrite (I4 Hc2), (I3 Hc1), (I2 Hc0), (I1 Hc); reflexivity.
  - intros H; injection H as <-; split; [eexists; apply Hall | reflexivity].
Qed.

Lemma criteria_only_remove_witness :
  let vc_data :=
    [ [("Name", VStr "Tech Ventures");
       ("Sector Focus", VList [VStr "AI/ML"; VStr "Enterprise SaaS"]);
       ("Geo Focus", VStr "Silicon Valley")];
      [("Name", VStr "Health Capital");
       ("Sector Focus", VList [VStr "Health Tech"])];
      [("Name", VStr "Data Fund");
       ("Sector Focus", VList [VStr "ai/ml"]);
       ("Geo Focus", VStr "Global")] ] in
  let match_criteria := Some [("sector", VStr "AI/ML"); ("stage", VStr "")] in
  exists filtered,
    VCMatcher.filter_by_criteria match_criteria vc_data = Ok filtered /\
    map (fun vc => dict_get vc "Name" VNone) filtered
    = [VStr "Tech Ventures"; VStr "Data Fund"] /\
    (exists keep, filtered = filter keep vc_data) /\
    (Spec.no_criteria match_criteria = true -> filtered = vc_data).
Proof.
  intros vc_data match_criteria.
  eexists; split; [reflexivity |]; split; [reflexivity |].
  apply (criteria_only_remove match_criteria vc_data); reflexivity.
Defined.
